(** * Deals bot: the orchestration loop of [src/bot.py]

    A shallow embedding of [DealsBot]: message rendering, affiliate links,
    the per-deal posting pipeline and the [run_forever] loop, with the
    collaborators (proxy manager, deals finder, database, Telegram client,
    clock, event loop) kept abstract behind an interface record.

    A run is a function from the world before to a result (a value or an
    exception), the world after and the trace of the events it issued, each
    stamped with the value the run flag had at that moment.  The [while]
    loop is run for a bounded number of cycles. *)

From Stdlib Require Import ZArith NArith List String Ascii Bool Lia.
From Stdlib Require Import SpecFloat.
Import ListNotations.
Open Scope string_scope.

Set Implicit Arguments.
Set Warnings "-register-all".

(** ** Python values *)

Module Py.

(** Python floats are IEEE binary64 numbers. *)
Definition float := spec_float.
Definition prec : Z := 53.
Definition emax : Z := 1024.

Definition fsub (x y : float) : float := SFsub prec emax x y.
Definition fmul (x y : float) : float := SFmul prec emax x y.
Definition fdiv (x y : float) : float := SFdiv prec emax x y.
Definition feqb (x y : float) : bool := SFeqb x y.
Definition float_of_Z (z : Z) : float := binary_normalize prec emax z 0 false.

(** The float nearest to [n / 100], which is what the literal [n/100]
    written with two decimals denotes. *)
Definition cents (n : Z) : float := fdiv (float_of_Z n) (float_of_Z 100).

Definition is_finite (x : float) : bool :=
  match x with
  | S754_zero _ | S754_finite _ _ _ => true
  | S754_infinity _ | S754_nan => false
  end.

(** *** Decimal numerals *)

Definition digit_char (n : N) : ascii :=
  ascii_of_N (48 + n mod 10).

Definition is_digit (c : ascii) : bool :=
  let n := N_of_ascii c in ((48 <=? n) && (n <=? 57))%N.

Fixpoint digits_from (fuel : nat) (n : N) (acc : string) : string :=
  match fuel with
  | O => acc
  | S fuel' =>
      let acc' := String (digit_char n) acc in
      if (n <? 10)%N then acc' else digits_from fuel' (n / 10) acc'
  end.

(** [str(n)] for a natural number. *)
Definition decimal (n : N) : string :=
  digits_from (S (N.to_nat (N.log2 n))) n "".

(** [str(z)] for a Python int. *)
Definition str_int (z : Z) : string :=
  match z with
  | Zneg p => "-" ++ decimal (Npos p)
  | _ => decimal (Z.to_N z)
  end.

(** A numeral padded with zeros on the left up to [width] characters. *)
Fixpoint zeros (k : nat) : string :=
  match k with O => "" | S k' => String "0" (zeros k') end.

Definition pad (width : nat) (n : N) : string :=
  let s := decimal n in zeros (width - String.length s) ++ s.

(** *** The format specification [.2f] *)

(** The integer nearest to [a / b] for [0 <= a] and [0 < b], ties going to
    the even neighbour. *)
Definition div_half_even (a b : Z) : Z :=
  let q := (a / b)%Z in
  let r := (a mod b)%Z in
  match (2 * r ?= b)%Z with
  | Lt => q
  | Gt => (q + 1)%Z
  | Eq => if Z.even q then q else (q + 1)%Z
  end.

(** The magnitude [m * 2^e] in hundredths, correctly rounded. *)
Definition hundredths (m : positive) (e : Z) : Z :=
  if (0 <=? e)%Z then (Zpos m * 2 ^ e * 100)%Z
  else div_half_even (Zpos m * 100) (2 ^ (- e)).

Definition sign_str (s : bool) : string := if s then "-" else "".

(** [format(x, '.2f')]. *)
Definition format_2f (x : float) : string :=
  match x with
  | S754_nan => "nan"
  | S754_infinity s => sign_str s ++ "inf"
  | S754_zero s => sign_str s ++ "0.00"
  | S754_finite s m e =>
      let h := Z.to_N (hundredths m e) in
      sign_str s ++ decimal (h / 100) ++ "." ++ pad 2 (h mod 100)
  end.

(** *** Shapes of numerals *)

(** The number a numeral stands for. *)
Fixpoint numeral_value (s : string) : N :=
  match s with
  | EmptyString => 0
  | String c s' =>
      (N_of_ascii c - 48) * 10 ^ N.of_nat (String.length s') +
      numeral_value s'
  end.


Fixpoint all_digits (s : string) : bool :=
  match s with
  | EmptyString => true
  | String c s' => is_digit c && all_digits s'
  end.

(** Two characters, both digits. *)
Definition two_digits (s : string) : Prop :=
  exists d1 d2, s = String d1 (String d2 "") /\
                is_digit d1 = true /\ is_digit d2 = true.

(** The shape of a fixed-point numeral with two decimals: an optional minus
    sign, at least one integer digit, a point and exactly two digits. *)
Definition two_decimals (s : string) : Prop :=
  exists sign whole frac,
    s = sign ++ whole ++ "." ++ frac /\
    (sign = "" \/ sign = "-") /\
    whole <> "" /\ all_digits whole = true /\ two_digits frac.

(** A numeral with two decimals that reads as [h] hundredths. *)
Definition reads_hundredths (s : string) (h : N) : Prop :=
  exists whole frac,
    s = whole ++ "." ++ frac /\
    whole <> "" /\ all_digits whole = true /\ two_digits frac /\
    h = (numeral_value whole * 100 + numeral_value frac)%N.

(** [h] hundredths is the magnitude [m * 2^e] rounded to the nearest
    hundredth: exact when the magnitude is an integer, and otherwise at
    most half a hundredth away. *)
Definition nearest_hundredths (m : positive) (e : Z) (h : Z) : Prop :=
  if (0 <=? e)%Z then h = (Zpos m * 2 ^ e * 100)%Z
  else (Z.abs (2 * (h * 2 ^ (- e) - Zpos m * 100)) <= 2 ^ (- e))%Z.

(** The text [s] shows the finite number [x] with two decimals: its sign,
    then the numeral of its magnitude rounded to the nearest hundredth. *)
Definition shows (x : float) (s : string) : Prop :=
  match x with
  | S754_zero sg => s = sign_str sg ++ "0.00"
  | S754_finite sg m e =>
      exists body h,
        s = sign_str sg ++ body /\ reads_hundredths body h /\
        nearest_hundredths m e (Z.of_N h)
  | _ => False
  end.

(** *** String methods *)

(** A [str] is a sequence of code points; it is kept here as its UTF-8
    encoding, in which concatenation and the search for an ASCII character
    work byte by byte. *)
Fixpoint decode_from (need : nat) (acc : N) (s : string) : list N :=
  match s with
  | EmptyString => []
  | String b s' =>
      let n := N_of_ascii b in
      match need with
      | O =>
          if (n <? 192)%N then n :: decode_from 0 0 s'
          else if (n <? 224)%N then decode_from 1 (n - 192) s'
          else if (n <? 240)%N then decode_from 2 (n - 224) s'
          else decode_from 3 (n - 240) s'
      | S k =>
          let acc' := (acc * 64 + n mod 64)%N in
          match k with
          | O => acc' :: decode_from 0 0 s'
          | S _ => decode_from k acc' s'
          end
      end
  end.

(** The code points of a string. *)
Definition decode_utf8 (s : string) : list N := decode_from 0 0 s.

Definition byte (n : N) : string := String (ascii_of_N n) "".

Definition encode_point (c : N) : string :=
  if (c <? 128)%N then byte c
  else if (c <? 2048)%N then byte (192 + c / 64) ++ byte (128 + c mod 64)
  else if (c <? 65536)%N then
    byte (224 + c / 4096) ++ byte (128 + (c / 64) mod 64) ++
    byte (128 + c mod 64)
  else
    byte (240 + c / 262144) ++ byte (128 + (c / 4096) mod 64) ++
    byte (128 + (c / 64) mod 64) ++ byte (128 + c mod 64).

Fixpoint encode_utf8 (l : list N) : string :=
  match l with
  | [] => ""
  | c :: l' => encode_point c ++ encode_utf8 l'
  end.

(** The case mappings of the Unicode character database (version 14.0,
    the one of CPython 3.11).  A simple mapping is given by runs
    [(first, count, stride, image)]: the code points [first],
    [first + stride], ... ([count] of them) are mapped to [image],
    [image + stride], ...; a code point on no run is mapped to itself.  The
    code points whose full mapping is not a single code point are listed
    apart. *)
Definition lower_runs : list (N * N * N * N) :=
  [(65, 26, 1, 97); (192, 23, 1, 224); (216, 7, 1, 248); (256, 24, 2, 257);
   (306, 3, 2, 307); (313, 8, 2, 314); (330, 23, 2, 331); (376, 1, 1, 255);
   (377, 3, 2, 378); (385, 1, 1, 595); (386, 2, 2, 387); (390, 1, 1, 596);
   (391, 1, 1, 392); (393, 2, 1, 598); (395, 1, 1, 396); (398, 1, 1, 477);
   (399, 1, 1, 601); (400, 1, 1, 603); (401, 1, 1, 402); (403, 1, 1, 608);
   (404, 1, 1, 611); (406, 1, 1, 617); (407, 1, 1, 616); (408, 1, 1, 409);
   (412, 1, 1, 623); (413, 1, 1, 626); (415, 1, 1, 629); (416, 3, 2, 417);
   (422, 1, 1, 640); (423, 1, 1, 424); (425, 1, 1, 643); (428, 1, 1, 429);
   (430, 1, 1, 648); (431, 1, 1, 432); (433, 2, 1, 650); (435, 2, 2, 436);
   (439, 1, 1, 658); (440, 1, 1, 441); (444, 1, 1, 445); (452, 1, 1, 454);
   (453, 1, 1, 454); (455, 1, 1, 457); (456, 1, 1, 457); (458, 1, 1, 460);
   (459, 9, 2, 460); (478, 9, 2, 479); (497, 1, 1, 499); (498, 2, 2, 499);
   (502, 1, 1, 405); (503, 1, 1, 447); (504, 20, 2, 505); (544, 1, 1, 414);
   (546, 9, 2, 547); (570, 1, 1, 11365); (571, 1, 1, 572); (573, 1, 1, 410);
   (574, 1, 1, 11366); (577, 1, 1, 578); (579, 1, 1, 384); (580, 1, 1, 649);
   (581, 1, 1, 652); (582, 5, 2, 583); (880, 2, 2, 881); (886, 1, 1, 887);
   (895, 1, 1, 1011); (902, 1, 1, 940); (904, 3, 1, 941); (908, 1, 1, 972);
   (910, 2, 1, 973); (913, 17, 1, 945); (931, 9, 1, 963); (975, 1, 1, 983);
   (984, 12, 2, 985); (1012, 1, 1, 952); (1015, 1, 1, 1016); (1017, 1, 1,
   1010); (1018, 1, 1, 1019); (1021, 3, 1, 891); (1024, 16, 1, 1104); (1040,
   32, 1, 1072); (1120, 17, 2, 1121); (1162, 27, 2, 1163); (1216, 1, 1,
   1231); (1217, 7, 2, 1218); (1232, 48, 2, 1233); (1329, 38, 1, 1377);
   (4256, 38, 1, 11520); (4295, 1, 1, 11559); (4301, 1, 1, 11565); (5024,
   80, 1, 43888); (5104, 6, 1, 5112); (7312, 43, 1, 4304); (7357, 3, 1,
   4349); (7680, 75, 2, 7681); (7838, 1, 1, 223); (7840, 48, 2, 7841);
   (7944, 8, 1, 7936); (7960, 6, 1, 7952); (7976, 8, 1, 7968); (7992, 8, 1,
   7984); (8008, 6, 1, 8000); (8025, 4, 2, 8017); (8040, 8, 1, 8032); (8072,
   8, 1, 8064); (8088, 8, 1, 8080); (8104, 8, 1, 8096); (8120, 2, 1, 8112);
   (8122, 2, 1, 8048); (8124, 1, 1, 8115); (8136, 4, 1, 8050); (8140, 1, 1,
   8131); (8152, 2, 1, 8144); (8154, 2, 1, 8054); (8168, 2, 1, 8160); (8170,
   2, 1, 8058); (8172, 1, 1, 8165); (8184, 2, 1, 8056); (8186, 2, 1, 8060);
   (8188, 1, 1, 8179); (8486, 1, 1, 969); (8490, 1, 1, 107); (8491, 1, 1,
   229); (8498, 1, 1, 8526); (8544, 16, 1, 8560); (8579, 1, 1, 8580); (9398,
   26, 1, 9424); (11264, 48, 1, 11312); (11360, 1, 1, 11361); (11362, 1, 1,
   619); (11363, 1, 1, 7549); (11364, 1, 1, 637); (11367, 3, 2, 11368);
   (11373, 1, 1, 593); (11374, 1, 1, 625); (11375, 1, 1, 592); (11376, 1, 1,
   594); (11378, 1, 1, 11379); (11381, 1, 1, 11382); (11390, 2, 1, 575);
   (11392, 50, 2, 11393); (11499, 2, 2, 11500); (11506, 1, 1, 11507);
   (42560, 23, 2, 42561); (42624, 14, 2, 42625); (42786, 7, 2, 42787);
   (42802, 31, 2, 42803); (42873, 2, 2, 42874); (42877, 1, 1, 7545); (42878,
   5, 2, 42879); (42891, 1, 1, 42892); (42893, 1, 1, 613); (42896, 2, 2,
   42897); (42902, 10, 2, 42903); (42922, 1, 1, 614); (42923, 1, 1, 604);
   (42924, 1, 1, 609); (42925, 1, 1, 620); (42926, 1, 1, 618); (42928, 1, 1,
   670); (42929, 1, 1, 647); (42930, 1, 1, 669); (42931, 1, 1, 43859);
   (42932, 8, 2, 42933); (42948, 1, 1, 42900); (42949, 1, 1, 642); (42950,
   1, 1, 7566); (42951, 2, 2, 42952); (42960, 1, 1, 42961); (42966, 2, 2,
   42967); (42997, 1, 1, 42998); (65313, 26, 1, 65345); (66560, 40, 1,
   66600); (66736, 36, 1, 66776); (66928, 11, 1, 66967); (66940, 15, 1,
   66979); (66956, 7, 1, 66995); (66964, 2, 1, 67003); (68736, 51, 1,
   68800); (71840, 32, 1, 71872); (93760, 32, 1, 93792); (125184, 34, 1,
   125218)]%N.

Definition lower_special : list (N * list N) :=
  [(304, [105; 775])]%N.

Definition title_runs : list (N * N * N * N) :=
  [(97, 26, 1, 65); (181, 1, 1, 924); (224, 23, 1, 192); (248, 7, 1, 216);
   (255, 1, 1, 376); (257, 24, 2, 256); (305, 1, 1, 73); (307, 3, 2, 306);
   (314, 8, 2, 313); (331, 23, 2, 330); (378, 3, 2, 377); (383, 1, 1, 83);
   (384, 1, 1, 579); (387, 2, 2, 386); (392, 1, 1, 391); (396, 1, 1, 395);
   (402, 1, 1, 401); (405, 1, 1, 502); (409, 1, 1, 408); (410, 1, 1, 573);
   (414, 1, 1, 544); (417, 3, 2, 416); (424, 1, 1, 423); (429, 1, 1, 428);
   (432, 1, 1, 431); (436, 2, 2, 435); (441, 1, 1, 440); (445, 1, 1, 444);
   (447, 1, 1, 503); (452, 1, 1, 453); (454, 1, 1, 453); (455, 1, 1, 456);
   (457, 1, 1, 456); (458, 1, 1, 459); (460, 9, 2, 459); (477, 1, 1, 398);
   (479, 9, 2, 478); (497, 1, 1, 498); (499, 2, 2, 498); (505, 20, 2, 504);
   (547, 9, 2, 546); (572, 1, 1, 571); (575, 2, 1, 11390); (578, 1, 1, 577);
   (583, 5, 2, 582); (592, 1, 1, 11375); (593, 1, 1, 11373); (594, 1, 1,
   11376); (595, 1, 1, 385); (596, 1, 1, 390); (598, 2, 1, 393); (601, 1, 1,
   399); (603, 1, 1, 400); (604, 1, 1, 42923); (608, 1, 1, 403); (609, 1, 1,
   42924); (611, 1, 1, 404); (613, 1, 1, 42893); (614, 1, 1, 42922); (616,
   1, 1, 407); (617, 1, 1, 406); (618, 1, 1, 42926); (619, 1, 1, 11362);
   (620, 1, 1, 42925); (623, 1, 1, 412); (625, 1, 1, 11374); (626, 1, 1,
   413); (629, 1, 1, 415); (637, 1, 1, 11364); (640, 1, 1, 422); (642, 1, 1,
   42949); (643, 1, 1, 425); (647, 1, 1, 42929); (648, 1, 1, 430); (649, 1,
   1, 580); (650, 2, 1, 433); (652, 1, 1, 581); (658, 1, 1, 439); (669, 1,
   1, 42930); (670, 1, 1, 42928); (837, 1, 1, 921); (881, 2, 2, 880); (887,
   1, 1, 886); (891, 3, 1, 1021); (940, 1, 1, 902); (941, 3, 1, 904); (945,
   17, 1, 913); (962, 1, 1, 931); (963, 9, 1, 931); (972, 1, 1, 908); (973,
   2, 1, 910); (976, 1, 1, 914); (977, 1, 1, 920); (981, 1, 1, 934); (982,
   1, 1, 928); (983, 1, 1, 975); (985, 12, 2, 984); (1008, 1, 1, 922);
   (1009, 1, 1, 929); (1010, 1, 1, 1017); (1011, 1, 1, 895); (1013, 1, 1,
   917); (1016, 1, 1, 1015); (1019, 1, 1, 1018); (1072, 32, 1, 1040); (1104,
   16, 1, 1024); (1121, 17, 2, 1120); (1163, 27, 2, 1162); (1218, 7, 2,
   1217); (1231, 1, 1, 1216); (1233, 48, 2, 1232); (1377, 38, 1, 1329);
   (5112, 6, 1, 5104); (7296, 1, 1, 1042); (7297, 1, 1, 1044); (7298, 1, 1,
   1054); (7299, 2, 1, 1057); (7301, 1, 1, 1058); (7302, 1, 1, 1066); (7303,
   1, 1, 1122); (7304, 1, 1, 42570); (7545, 1, 1, 42877); (7549, 1, 1,
   11363); (7566, 1, 1, 42950); (7681, 75, 2, 7680); (7835, 1, 1, 7776);
   (7841, 48, 2, 7840); (7936, 8, 1, 7944); (7952, 6, 1, 7960); (7968, 8, 1,
   7976); (7984, 8, 1, 7992); (8000, 6, 1, 8008); (8017, 4, 2, 8025); (8032,
   8, 1, 8040); (8048, 2, 1, 8122); (8050, 4, 1, 8136); (8054, 2, 1, 8154);
   (8056, 2, 1, 8184); (8058, 2, 1, 8170); (8060, 2, 1, 8186); (8064, 8, 1,
   8072); (8080, 8, 1, 8088); (8096, 8, 1, 8104); (8112, 2, 1, 8120); (8115,
   1, 1, 8124); (8126, 1, 1, 921); (8131, 1, 1, 8140); (8144, 2, 1, 8152);
   (8160, 2, 1, 8168); (8165, 1, 1, 8172); (8179, 1, 1, 8188); (8526, 1, 1,
   8498); (8560, 16, 1, 8544); (8580, 1, 1, 8579); (9424, 26, 1, 9398);
   (11312, 48, 1, 11264); (11361, 1, 1, 11360); (11365, 1, 1, 570); (11366,
   1, 1, 574); (11368, 3, 2, 11367); (11379, 1, 1, 11378); (11382, 1, 1,
   11381); (11393, 50, 2, 11392); (11500, 2, 2, 11499); (11507, 1, 1,
   11506); (11520, 38, 1, 4256); (11559, 1, 1, 4295); (11565, 1, 1, 4301);
   (42561, 23, 2, 42560); (42625, 14, 2, 42624); (42787, 7, 2, 42786);
   (42803, 31, 2, 42802); (42874, 2, 2, 42873); (42879, 5, 2, 42878);
   (42892, 1, 1, 42891); (42897, 2, 2, 42896); (42900, 1, 1, 42948); (42903,
   10, 2, 42902); (42933, 8, 2, 42932); (42952, 2, 2, 42951); (42961, 1, 1,
   42960); (42967, 2, 2, 42966); (42998, 1, 1, 42997); (43859, 1, 1, 42931);
   (43888, 80, 1, 5024); (65345, 26, 1, 65313); (66600, 40, 1, 66560);
   (66776, 36, 1, 66736); (66967, 11, 1, 66928); (66979, 15, 1, 66940);
   (66995, 7, 1, 66956); (67003, 2, 1, 66964); (68800, 51, 1, 68736);
   (71872, 32, 1, 71840); (93792, 32, 1, 93760); (125218, 34, 1, 125184)]%N.

Definition title_special : list (N * list N) :=
  [(223, [83; 115]); (329, [700; 78]); (496, [74; 780]); (912, [921; 776;
   769]); (944, [933; 776; 769]); (1415, [1333; 1410]); (7830, [72; 817]);
   (7831, [84; 776]); (7832, [87; 778]); (7833, [89; 778]); (7834, [65;
   702]); (8016, [933; 787]); (8018, [933; 787; 768]); (8020, [933; 787;
   769]); (8022, [933; 787; 834]); (8114, [8122; 837]); (8116, [902; 837]);
   (8118, [913; 834]); (8119, [913; 834; 837]); (8130, [8138; 837]); (8132,
   [905; 837]); (8134, [919; 834]); (8135, [919; 834; 837]); (8146, [921;
   776; 768]); (8147, [921; 776; 769]); (8150, [921; 834]); (8151, [921;
   776; 834]); (8162, [933; 776; 768]); (8163, [933; 776; 769]); (8164,
   [929; 787]); (8166, [933; 834]); (8167, [933; 776; 834]); (8178, [8186;
   837]); (8180, [911; 837]); (8182, [937; 834]); (8183, [937; 834; 837]);
   (64256, [70; 102]); (64257, [70; 105]); (64258, [70; 108]); (64259, [70;
   102; 105]); (64260, [70; 102; 108]); (64261, [83; 116]); (64262, [83;
   116]); (64275, [1348; 1398]); (64276, [1348; 1381]); (64277, [1348;
   1387]); (64278, [1358; 1398]); (64279, [1348; 1389])]%N.

Definition case_ignorable_ranges : list (N * N) :=
  [(39, 39); (46, 46); (58, 58); (94, 94); (96, 96); (168, 168); (173, 173);
   (175, 175); (180, 180); (183, 184); (688, 879); (884, 885); (890, 890);
   (900, 901); (903, 903); (1155, 1161); (1369, 1369); (1375, 1375); (1425,
   1469); (1471, 1471); (1473, 1474); (1476, 1477); (1479, 1479); (1524,
   1524); (1536, 1541); (1552, 1562); (1564, 1564); (1600, 1600); (1611,
   1631); (1648, 1648); (1750, 1757); (1759, 1768); (1770, 1773); (1807,
   1807); (1809, 1809); (1840, 1866); (1958, 1968); (2027, 2037); (2042,
   2042); (2045, 2045); (2070, 2093); (2137, 2139); (2184, 2184); (2192,
   2193); (2200, 2207); (2249, 2306); (2362, 2362); (2364, 2364); (2369,
   2376); (2381, 2381); (2385, 2391); (2402, 2403); (2417, 2417); (2433,
   2433); (2492, 2492); (2497, 2500); (2509, 2509); (2530, 2531); (2558,
   2558); (2561, 2562); (2620, 2620); (2625, 2626); (2631, 2632); (2635,
   2637); (2641, 2641); (2672, 2673); (2677, 2677); (2689, 2690); (2748,
   2748); (2753, 2757); (2759, 2760); (2765, 2765); (2786, 2787); (2810,
   2815); (2817, 2817); (2876, 2876); (2879, 2879); (2881, 2884); (2893,
   2893); (2901, 2902); (2914, 2915); (2946, 2946); (3008, 3008); (3021,
   3021); (3072, 3072); (3076, 3076); (3132, 3132); (3134, 3136); (3142,
   3144); (3146, 3149); (3157, 3158); (3170, 3171); (3201, 3201); (3260,
   3260); (3263, 3263); (3270, 3270); (3276, 3277); (3298, 3299); (3328,
   3329); (3387, 3388); (3393, 3396); (3405, 3405); (3426, 3427); (3457,
   3457); (3530, 3530); (3538, 3540); (3542, 3542); (3633, 3633); (3636,
   3642); (3654, 3662); (3761, 3761); (3764, 3772); (3782, 3782); (3784,
   3789); (3864, 3865); (3893, 3893); (3895, 3895); (3897, 3897); (3953,
   3966); (3968, 3972); (3974, 3975); (3981, 3991); (3993, 4028); (4038,
   4038); (4141, 4144); (4146, 4151); (4153, 4154); (4157, 4158); (4184,
   4185); (4190, 4192); (4209, 4212); (4226, 4226); (4229, 4230); (4237,
   4237); (4253, 4253); (4348, 4348); (4957, 4959); (5906, 5908); (5938,
   5939); (5970, 5971); (6002, 6003); (6068, 6069); (6071, 6077); (6086,
   6086); (6089, 6099); (6103, 6103); (6109, 6109); (6155, 6159); (6211,
   6211); (6277, 6278); (6313, 6313); (6432, 6434); (6439, 6440); (6450,
   6450); (6457, 6459); (6679, 6680); (6683, 6683); (6742, 6742); (6744,
   6750); (6752, 6752); (6754, 6754); (6757, 6764); (6771, 6780); (6783,
   6783); (6823, 6823); (6832, 6862); (6912, 6915); (6964, 6964); (6966,
   6970); (6972, 6972); (6978, 6978); (7019, 7027); (7040, 7041); (7074,
   7077); (7080, 7081); (7083, 7085); (7142, 7142); (7144, 7145); (7149,
   7149); (7151, 7153); (7212, 7219); (7222, 7223); (7288, 7293); (7376,
   7378); (7380, 7392); (7394, 7400); (7405, 7405); (7412, 7412); (7416,
   7417); (7468, 7530); (7544, 7544); (7579, 7679); (8125, 8125); (8127,
   8129); (8141, 8143); (8157, 8159); (8173, 8175); (8189, 8190); (8203,
   8207); (8216, 8217); (8228, 8228); (8231, 8231); (8234, 8238); (8288,
   8292); (8294, 8303); (8305, 8305); (8319, 8319); (8336, 8348); (8400,
   8432); (11388, 11389); (11503, 11505); (11631, 11631); (11647, 11647);
   (11744, 11775); (11823, 11823); (12293, 12293); (12330, 12333); (12337,
   12341); (12347, 12347); (12441, 12446); (12540, 12542); (40981, 40981);
   (42232, 42237); (42508, 42508); (42607, 42610); (42612, 42621); (42623,
   42623); (42652, 42655); (42736, 42737); (42752, 42785); (42864, 42864);
   (42888, 42890); (42994, 42996); (43000, 43001); (43010, 43010); (43014,
   43014); (43019, 43019); (43045, 43046); (43052, 43052); (43204, 43205);
   (43232, 43249); (43263, 43263); (43302, 43309); (43335, 43345); (43392,
   43394); (43443, 43443); (43446, 43449); (43452, 43453); (43471, 43471);
   (43493, 43494); (43561, 43566); (43569, 43570); (43573, 43574); (43587,
   43587); (43596, 43596); (43632, 43632); (43644, 43644); (43696, 43696);
   (43698, 43700); (43703, 43704); (43710, 43711); (43713, 43713); (43741,
   43741); (43756, 43757); (43763, 43764); (43766, 43766); (43867, 43871);
   (43881, 43883); (44005, 44005); (44008, 44008); (44013, 44013); (64286,
   64286); (64434, 64450); (65024, 65039); (65043, 65043); (65056, 65071);
   (65106, 65106); (65109, 65109); (65279, 65279); (65287, 65287); (65294,
   65294); (65306, 65306); (65342, 65342); (65344, 65344); (65392, 65392);
   (65438, 65439); (65507, 65507); (65529, 65531); (66045, 66045); (66272,
   66272); (66422, 66426); (67456, 67461); (67463, 67504); (67506, 67514);
   (68097, 68099); (68101, 68102); (68108, 68111); (68152, 68154); (68159,
   68159); (68325, 68326); (68900, 68903); (69291, 69292); (69446, 69456);
   (69506, 69509); (69633, 69633); (69688, 69702); (69744, 69744); (69747,
   69748); (69759, 69761); (69811, 69814); (69817, 69818); (69821, 69821);
   (69826, 69826); (69837, 69837); (69888, 69890); (69927, 69931); (69933,
   69940); (70003, 70003); (70016, 70017); (70070, 70078); (70089, 70092);
   (70095, 70095); (70191, 70193); (70196, 70196); (70198, 70199); (70206,
   70206); (70367, 70367); (70371, 70378); (70400, 70401); (70459, 70460);
   (70464, 70464); (70502, 70508); (70512, 70516); (70712, 70719); (70722,
   70724); (70726, 70726); (70750, 70750); (70835, 70840); (70842, 70842);
   (70847, 70848); (70850, 70851); (71090, 71093); (71100, 71101); (71103,
   71104); (71132, 71133); (71219, 71226); (71229, 71229); (71231, 71232);
   (71339, 71339); (71341, 71341); (71344, 71349); (71351, 71351); (71453,
   71455); (71458, 71461); (71463, 71467); (71727, 71735); (71737, 71738);
   (71995, 71996); (71998, 71998); (72003, 72003); (72148, 72151); (72154,
   72155); (72160, 72160); (72193, 72202); (72243, 72248); (72251, 72254);
   (72263, 72263); (72273, 72278); (72281, 72283); (72330, 72342); (72344,
   72345); (72752, 72758); (72760, 72765); (72767, 72767); (72850, 72871);
   (72874, 72880); (72882, 72883); (72885, 72886); (73009, 73014); (73018,
   73018); (73020, 73021); (73023, 73029); (73031, 73031); (73104, 73105);
   (73109, 73109); (73111, 73111); (73459, 73460); (78896, 78904); (92912,
   92916); (92976, 92982); (92992, 92995); (94031, 94031); (94095, 94111);
   (94176, 94177); (94179, 94180); (110576, 110579); (110581, 110587);
   (110589, 110590); (113821, 113822); (113824, 113827); (118528, 118573);
   (118576, 118598); (119143, 119145); (119155, 119170); (119173, 119179);
   (119210, 119213); (119362, 119364); (121344, 121398); (121403, 121452);
   (121461, 121461); (121476, 121476); (121499, 121503); (121505, 121519);
   (122880, 122886); (122888, 122904); (122907, 122913); (122915, 122916);
   (122918, 122922); (123184, 123197); (123566, 123566); (123628, 123631);
   (125136, 125142); (125252, 125259); (127995, 127999); (917505, 917505);
   (917536, 917631); (917760, 917999)]%N.

Definition cased_ranges : list (N * N) :=
  [(65, 90); (97, 122); (170, 170); (181, 181); (186, 186); (192, 214);
   (216, 246); (248, 442); (444, 447); (452, 659); (661, 687); (880, 883);
   (886, 887); (891, 893); (895, 895); (902, 902); (904, 906); (908, 908);
   (910, 929); (931, 1013); (1015, 1153); (1162, 1327); (1329, 1366); (1376,
   1416); (4256, 4293); (4295, 4295); (4301, 4301); (4304, 4346); (4349,
   4351); (5024, 5109); (5112, 5117); (7296, 7304); (7312, 7354); (7357,
   7359); (7424, 7467); (7531, 7543); (7545, 7578); (7680, 7957); (7960,
   7965); (7968, 8005); (8008, 8013); (8016, 8023); (8025, 8025); (8027,
   8027); (8029, 8029); (8031, 8061); (8064, 8116); (8118, 8124); (8126,
   8126); (8130, 8132); (8134, 8140); (8144, 8147); (8150, 8155); (8160,
   8172); (8178, 8180); (8182, 8188); (8450, 8450); (8455, 8455); (8458,
   8467); (8469, 8469); (8473, 8477); (8484, 8484); (8486, 8486); (8488,
   8488); (8490, 8493); (8495, 8500); (8505, 8505); (8508, 8511); (8517,
   8521); (8526, 8526); (8544, 8575); (8579, 8580); (9398, 9449); (11264,
   11387); (11390, 11492); (11499, 11502); (11506, 11507); (11520, 11557);
   (11559, 11559); (11565, 11565); (42560, 42605); (42624, 42651); (42786,
   42863); (42865, 42887); (42891, 42894); (42896, 42954); (42960, 42961);
   (42963, 42963); (42965, 42969); (42997, 42998); (43002, 43002); (43824,
   43866); (43872, 43880); (43888, 43967); (64256, 64262); (64275, 64279);
   (65313, 65338); (65345, 65370); (66560, 66639); (66736, 66771); (66776,
   66811); (66928, 66938); (66940, 66954); (66956, 66962); (66964, 66965);
   (66967, 66977); (66979, 66993); (66995, 67001); (67003, 67004); (68736,
   68786); (68800, 68850); (71840, 71903); (93760, 93823); (119808, 119892);
   (119894, 119964); (119966, 119967); (119970, 119970); (119973, 119974);
   (119977, 119980); (119982, 119993); (119995, 119995); (119997, 120003);
   (120005, 120069); (120071, 120074); (120077, 120084); (120086, 120092);
   (120094, 120121); (120123, 120126); (120128, 120132); (120134, 120134);
   (120138, 120144); (120146, 120485); (120488, 120512); (120514, 120538);
   (120540, 120570); (120572, 120596); (120598, 120628); (120630, 120654);
   (120656, 120686); (120688, 120712); (120714, 120744); (120746, 120770);
   (120772, 120779); (122624, 122633); (122635, 122654); (125184, 125251);
   (127280, 127305); (127312, 127337); (127344, 127369)]%N.

(** In [cased_ranges] stand the cased characters that are not
    case-ignorable: casedness is only ever asked of such characters. *)
(** [c] lies on the run [(first, count, stride, image)]: the code points
    [first], [first + stride], ..., [count] of them, mapped to [image],
    [image + stride], ... *)
Definition on_run (c : N) (r : N * N * N * N) : bool :=
  let '(first, count, stride, _) := r in
  ((first <=? c) && (c <? first + count * stride) &&
   ((c - first) mod stride =? 0))%N.

Fixpoint run_image (c : N) (runs : list (N * N * N * N)) : option N :=
  match runs with
  | [] => None
  | r :: rest =>
      if on_run c r
      then let '(first, _, _, image) := r in Some (image + (c - first))%N
      else run_image c rest
  end.

Fixpoint special_image (c : N) (table : list (N * list N)) : option (list N) :=
  match table with
  | [] => None
  | (c', image) :: rest =>
      if (c =? c')%N then Some image else special_image c rest
  end.

Definition full_mapping (table : list (N * list N))
    (runs : list (N * N * N * N)) (c : N) : list N :=
  match special_image c table with
  | Some image => image
  | None =>
      match run_image c runs with
      | Some c' => [c']
      | None => [c]
      end
  end.

(** The full lower-case and title-case mappings of a code point. *)
Definition to_lower (c : N) : list N := full_mapping lower_special lower_runs c.
Definition to_title (c : N) : list N := full_mapping title_special title_runs c.

Definition in_ranges (c : N) (ranges : list (N * N)) : bool :=
  existsb (fun r => ((fst r <=? c) && (c <=? snd r))%N) ranges.

Definition is_case_ignorable (c : N) : bool := in_ranges c case_ignorable_ranges.
Definition is_cased (c : N) : bool := in_ranges c cased_ranges.

Fixpoint skip_ignorable (l : list N) : list N :=
  match l with
  | c :: l' => if is_case_ignorable c then skip_ignorable l' else l
  | [] => []
  end.

(** The nearest character that is not case-ignorable exists and is cased. *)
Definition meets_cased (l : list N) : bool :=
  match skip_ignorable l with
  | c :: _ => is_cased c
  | [] => false
  end.

Definition capital_sigma : N := 931.
Definition small_sigma : N := 963.
Definition small_final_sigma : N := 962.

(** The characters [rest] in lower case, [before] being the characters in
    front of them, nearest first.  A capital sigma becomes a final sigma
    when it follows a cased letter and none comes after it. *)
Fixpoint lower_after (before rest : list N) : list N :=
  match rest with
  | [] => []
  | c :: rest' =>
      (if (c =? capital_sigma)%N
       then [if meets_cased before && negb (meets_cased rest')
             then small_final_sigma else small_sigma]
       else to_lower c) ++ lower_after (c :: before) rest'
  end.

Definition capitalize_points (l : list N) : list N :=
  match l with
  | [] => []
  | c :: rest => to_title c ++ lower_after [c] rest
  end.


(** [s.capitalize()]: the first character in title case, every other
    character in lower case. *)
Definition capitalize (s : string) : string :=
  encode_utf8 (capitalize_points (decode_utf8 s)).

(** [c in s] for a one-character string [c]. *)
Fixpoint contains_char (c : ascii) (s : string) : bool :=
  match s with
  | EmptyString => false
  | String c' s' => Ascii.eqb c c' || contains_char c s'
  end.

(** [needle in hay] *)
Fixpoint occurs (needle hay : string) : bool :=
  String.prefix needle hay ||
  match hay with
  | EmptyString => false
  | String _ hay' => occurs needle hay'
  end.

(** *** Local time *)

Record datetime : Type := {
  year : N; month : N; day : N; hour : N; minute : N; second : N
}.

(** [t.strftime('%Y-%m-%d %H:%M:%S')]. *)
Definition strftime (t : datetime) : string :=
  pad 4 (year t) ++ "-" ++ pad 2 (month t) ++ "-" ++ pad 2 (day t) ++ " " ++
  pad 2 (hour t) ++ ":" ++ pad 2 (minute t) ++ ":" ++ pad 2 (second t).

End Py.

(** ** Exceptions and results *)

(** The exceptions the program can meet.  [TelegramError] is the client
    library's class; [KeyError] and [TypeError] come from subscripting the
    configuration, [TypeError] and [OverflowError] from [asyncio.sleep];
    [OtherError] stands for any other exception of class [Exception].  The
    last three lie outside class [Exception]: task cancellation (since
    Python 3.8), the keyboard interrupt and the interpreter exit. *)
Inductive exn : Type :=
| TelegramError (msg : string)
| KeyError (key : string)
| TypeError
| OverflowError
| OtherError (msg : string)
| CancelledError
| KeyboardInterrupt
| SystemExit.

(** [isinstance(e, Exception)] *)
Definition is_exception (e : exn) : bool :=
  match e with
  | CancelledError | KeyboardInterrupt | SystemExit => false
  | _ => true
  end.

Inductive result (A : Type) : Type :=
| Ok (a : A)
| Raise (e : exn).
Arguments Ok {A} a.
Arguments Raise {A} e.

(** What can end a pause of [asyncio.sleep] before its time: the
    cancellation of the task, the keyboard interrupt, the interpreter
    exit. *)
Inductive interrupt : Type := Cancelled | Interrupted | Exited.

Definition raised (i : interrupt) : exn :=
  match i with
  | Cancelled => CancelledError
  | Interrupted => KeyboardInterrupt
  | Exited => SystemExit
  end.

(** How a pause ends: in time, or by an interrupt raised into the task. *)
Definition interrupted (i : option interrupt) : result unit :=
  match i with
  | None => Ok tt
  | Some x => Raise (raised x)
  end.

Definition is_telegram_error (e : exn) : bool :=
  match e with TelegramError _ => true | _ => false end.

(** ** Configuration: the value of [yaml.safe_load] *)

Inductive yaml : Type :=
| YNull
| YBool (b : bool)
| YInt (z : Z)
| YFloat (f : Py.float)
| YStr (s : string)
| YSeq (items : list yaml)
| YMap (entries : list (string * yaml)).

Fixpoint assoc (k : string) (entries : list (string * yaml)) : option yaml :=
  match entries with
  | [] => None
  | (k', v) :: rest => if String.eqb k k' then Some v else assoc k rest
  end.

(** [v[k]] for a string key: only a mapping can be subscripted by a string. *)
Definition subscript (v : yaml) (k : string) : result yaml :=
  match v with
  | YMap entries =>
      match assoc k entries with
      | Some x => Ok x
      | None => Raise (KeyError k)
      end
  | _ => Raise TypeError
  end.

(** [v[k1][k2]...] *)
Fixpoint lookup (v : yaml) (path : list string) : result yaml :=
  match path with
  | [] => Ok v
  | k :: rest =>
      match subscript v k with
      | Ok x => lookup x rest
      | Raise e => Raise e
      end
  end.

Fixpoint repeat_string (n : nat) (s : string) : string :=
  match n with O => "" | S n' => s ++ repeat_string n' s end.

(** [v * 60] *)
Definition times60 (v : yaml) : result yaml :=
  match v with
  | YInt z => Ok (YInt (z * 60))
  | YBool b => Ok (YInt (if b then 60 else 0))
  | YFloat f => Ok (YFloat (Py.fmul f (Py.float_of_Z 60)))
  | YStr s => Ok (YStr (repeat_string 60 s))
  | YSeq l => Ok (YSeq (List.concat (List.repeat l 60)))
  | YNull | YMap _ => Raise TypeError
  end.

(** The delay handed to [asyncio.sleep].  The call compares it with zero,
    so that a value that is not a number makes it raise [TypeError]; a
    positive delay is then added to the clock of the event loop, a float,
    so that an int too large for a float makes it raise [OverflowError]. *)
Inductive seconds : Type :=
| SecInt (z : Z)
| SecFloat (f : Py.float).

Definition as_seconds (v : yaml) : result seconds :=
  match v with
  | YInt z =>
      if (0 <? z)%Z && negb (Py.is_finite (Py.float_of_Z z))
      then Raise OverflowError
      else Ok (SecInt z)
  | YBool b => Ok (SecInt (if b then 1 else 0))
  | YFloat f => Ok (SecFloat f)
  | _ => Raise TypeError
  end.

(** ** Deals and their statistics *)

(** Modelled from the spec: the Deal of section 3, a dictionary built by the
    deals finder, which is not part of [bot.py]; the fields are the keys
    that [bot.py] reads.  Prices are Python floats. *)
Record deal : Type := {
  asin : string;
  title : string;
  sale_price : Py.float;
  original_price : Py.float;
  discount : Z;
  category : string;
  url : string
}.

(** Modelled from the spec: the DealStats of section 3, as returned by the
    database's [get_deal_stats] ([None] when the identifier was never
    posted). *)
Record deal_stats : Type := {
  lowest_price : Py.float;
  times_posted : Z
}.

(** ** The world outside the orchestrator *)

(** The run flag [self.running] is written only by code outside this file
    (the stop signal), so it is kept next to the collaborators' state: every
    call into a collaborator and every sleep is a point at which the flag
    may have changed by the time control comes back. *)
Record world (E : Type) : Type := {
  running : bool;
  env : E
}.

(** The collaborators, as the orchestrator uses them.  Each call returns or
    raises, and leaves a new world behind. *)
Record collaborators (E : Type) : Type := {
  (* ProxyManager *)
  proxy_initialize : world E -> result unit * world E;
  get_working_proxy : world E -> result unit * world E;
  (* DealsFinder(session, config).get_deals() *)
  get_deals : yaml -> world E -> result (list deal) * world E;
  (* DealsDatabase *)
  clean_old_deals : yaml -> world E -> result unit * world E;
  is_duplicate_deal : string -> Py.float -> world E -> result bool * world E;
  get_deal_stats : string -> world E -> result (option deal_stats) * world E;
  update_deal : deal -> world E -> result unit * world E;
  (* telegram.Bot *)
  send_message : yaml -> string -> world E -> result unit * world E;
  (* datetime.now() and the event loop behind asyncio.sleep() *)
  now : world E -> Py.datetime;
  sleep : seconds -> world E -> option interrupt * world E
}.

(** ** Observable events *)

Inductive pause : Type := Throttle | InterCycle | Cooldown.

(** The three places that read the run flag: the [while] condition, the top
    of the [for] body and the test before the inter-cycle sleep. *)
Inductive poll_site : Type := AtWhile | AtFor | AtIf.

Inductive log_record : Type :=
| InfoStarting
| InfoFound (n : nat)
| InfoPosted (n : nat)
| InfoShutdown
| ErrorTelegram (e : exn)
| ErrorPosting (e : exn)
| ErrorMainLoop (e : exn).

Inductive event : Type :=
| EPoll (site : poll_site) (flag : bool)
| ELog (r : log_record)
| EProxyInit (ok : bool)
| EClean (days : yaml) (ok : bool)
| EProxy (ok : bool)
| EDiscover (ok : bool)
| EIsDup (id : string) (price : Py.float) (r : result bool)
| EStats (id : string) (ok : bool)
| ENow (t : Py.datetime)
| ESend (chat : yaml) (text : string) (ok : bool)
| EUpdate (d : deal) (ok : bool)
| ESleep (k : pause) (d : seconds).

(** Every event is recorded with the value the run flag had when the event
    was issued. *)
Definition trace : Type := list (bool * event).

Definition succeeded {A} (r : result A) : bool :=
  match r with Ok _ => true | Raise _ => false end.

(** ** A monad for effects, exceptions and the event trace *)

Section Effects.

Variable E : Type.

Definition M (A : Type) : Type := world E -> result A * world E * trace.

Definition ret {A} (a : A) : M A := fun w => (Ok a, w, []).

Definition bind {A B} (m : M A) (k : A -> M B) : M B :=
  fun w =>
    match m w with
    | (Ok a, w1, t1) =>
        match k a w1 with
        | (r, w2, t2) => (r, w2, (t1 ++ t2)%list)
        end
    | (Raise e, w1, t1) => (Raise e, w1, t1)
    end.

(** [try: m except Exception as e: handler e]: what is not of class
    [Exception] passes through. *)
Definition try_except {A} (m : M A) (handler : exn -> M A) : M A :=
  fun w =>
    match m w with
    | (Ok a, w1, t1) => (Ok a, w1, t1)
    | (Raise e, w1, t1) =>
        if is_exception e then
          match handler e w1 with
          | (r, w2, t2) => (r, w2, (t1 ++ t2)%list)
          end
        else (Raise e, w1, t1)
    end.

Definition lift {A} (r : result A) : M A := fun w => (r, w, []).

Definition emit (ev : event) : M unit :=
  fun w => (Ok tt, w, [(running w, ev)]).

(** A call into a collaborator. *)
Definition call {A} (op : world E -> result A * world E)
    (ev : result A -> event) : M A :=
  fun w => let '(r, w') := op w in (r, w', [(running w, ev r)]).

(** A read of [self.running]. *)
Definition poll (site : poll_site) : M bool :=
  fun w => (Ok (running w), w, [(running w, EPoll site (running w))]).

Definition log (r : log_record) : M unit := emit (ELog r).

End Effects.

Arguments ret {E A} a.
Arguments lift {E A} r.
Arguments emit {E} ev.
Arguments call {E A} op ev.
Arguments poll {E} site.
Arguments log {E} r.
Arguments bind {E A B} m k.
Arguments try_except {E A} m handler.

Notation "x <- m ;; k" := (bind m (fun x => k))
  (at level 61, m at next level, right associativity).
Notation "m ;;; k" := (bind m (fun _ => k))
  (at level 61, right associativity).

(** ** The bot *)

Definition nl : string := String (ascii_of_nat 10) "".

(** The attributes set by [__init__], apart from the run flag. *)
Record bot : Type := {
  config : yaml;
  bot_token : yaml;
  channel_id : yaml;
  db_path : yaml;
  max_proxies : yaml
}.

Definition bind_result {A B} (r : result A) (k : A -> result B) : result B :=
  match r with Ok a => k a | Raise e => Raise e end.

(** The constructors of the collaborators, each of which returns or
    raises on the argument it is given. *)
Record constructors : Type := {
  Bot : yaml -> result unit;            (* telegram.Bot(token=...) *)
  DealsDatabase : yaml -> result unit;  (* DealsDatabase(path) *)
  ProxyManager : yaml -> result unit    (* ProxyManager(max_proxies=...) *)
}.

(** [DealsBot.__init__], from the loaded configuration on. *)
Definition init (new : constructors) (cfg : yaml) : result bot :=
  bind_result (lookup cfg ["telegram"; "bot_token"]) (fun token =>
  bind_result (Bot new token) (fun _ =>
  bind_result (lookup cfg ["telegram"; "channel_id"]) (fun channel =>
  bind_result (lookup cfg ["database"; "path"]) (fun path =>
  bind_result (DealsDatabase new path) (fun _ =>
  bind_result (lookup cfg ["scraping"; "max_proxies"]) (fun proxies =>
  bind_result (ProxyManager new proxies) (fun _ =>
  Ok {| config := cfg; bot_token := token; channel_id := channel;
        db_path := path; max_proxies := proxies |}))))))).

(** The world in which [__init__] leaves the new bot: [self.running = True]. *)
Definition fresh_world {E} (e : E) : world E := {| running := true; env := e |}.

Section Bot.

Variable E : Type.
Variable io : collaborators E.

(** [str(v)] for the configuration values whose text is not modelled
    (floats and containers). *)
Variable repr_other : yaml -> string.

Variable self : bot.

(** [f"{v}"] *)
Definition str_value (v : yaml) : string :=
  match v with
  | YStr s => s
  | YInt z => Py.str_int z
  | YBool true => "True"
  | YBool false => "False"
  | YNull => "None"
  | _ => repr_other v
  end.

Definition initialize : M E unit :=
  call (proxy_initialize io) (fun r => EProxyInit (succeeded r));;;
  days <- lift (lookup (config self) ["database"; "retention_days"]);;
  call (clean_old_deals io days) (fun r => EClean days (succeeded r)).

Definition _generate_affiliate_link (u : string) : result string :=
  bind_result (lookup (config self) ["amazon"; "affiliate_id"]) (fun affiliate_id =>
  if Py.contains_char "?" u
  then Ok (u ++ "&tag=" ++ str_value affiliate_id)
  else Ok (u ++ "?tag=" ++ str_value affiliate_id)).

(** The history block: empty unless [stats and stats['times_posted'] > 1]. *)
Definition price_history (stats : option deal_stats) : string :=
  match stats with
  | Some s =>
      if (1 <? times_posted s)%Z
      then nl ++ "💹 Lowest Price: $" ++ Py.format_2f (lowest_price s) ++ nl ++
           "📊 Times Listed: " ++ Py.str_int (times_posted s)
      else ""
  | None => ""
  end.

(** The f-string of [_format_deal_message]. *)
Definition message_text (d : deal) (history link : string)
    (t : Py.datetime) : string :=
  "🔥 HOT DEAL ALERT! 🔥" ++ nl ++ nl ++
  "📦 " ++ title d ++ nl ++ nl ++
  "💰 Sale Price: $" ++ Py.format_2f (sale_price d) ++ nl ++
  "❌ Original: $" ++ Py.format_2f (original_price d) ++ nl ++
  "💯 Save: " ++ Py.str_int (discount d) ++ "% " ++
  "($" ++ Py.format_2f (Py.fsub (original_price d) (sale_price d)) ++ ")" ++
  history ++ nl ++ nl ++
  "🛍️ Buy Now: " ++ link ++ nl ++ nl ++
  "#" ++ Py.capitalize (category d) ++ " #AmazonDeals #Discount" ++ nl ++
  "Posted: " ++ Py.strftime t.

Definition clock : M E Py.datetime :=
  fun w => (Ok (now io w), w, [(running w, ENow (now io w))]).

Definition _format_deal_message (d : deal) : M E string :=
  stats <- call (get_deal_stats io (asin d))
                (fun r => EStats (asin d) (succeeded r));;
  affiliate_link <- lift (_generate_affiliate_link (url d));;
  t <- clock;;
  ret (message_text d (price_history stats) affiliate_link t).

Definition post_deal (d : deal) : M E bool :=
  try_except
    (message <- _format_deal_message d;;
     call (send_message io (channel_id self) message)
          (fun r => ESend (channel_id self) message (succeeded r));;;
     call (update_deal io d) (fun r => EUpdate d (succeeded r));;;
     ret true)
    (fun e =>
       if is_telegram_error e
       then log (ErrorTelegram e);;; ret false
       else log (ErrorPosting e);;; ret false).

(** [await asyncio.sleep(v)]: the argument is checked, then the pause
    begins; it ends when the event loop resumes the task, or raises into
    it. *)
Definition asyncio_sleep (k : pause) (v : yaml) : M E unit :=
  d <- lift (as_seconds v);;
  fun w =>
    (interrupted (fst (sleep io d w)), snd (sleep io d w),
     [(running w, ESleep k d)]).

(** One candidate, once the run flag has been found set: the duplicate
    check and what hangs under it.  Returns the count of posted deals. *)
Definition consider (d : deal) (posted_count : nat) : M E nat :=
  dup <- call (is_duplicate_deal io (asin d) (sale_price d))
              (EIsDup (asin d) (sale_price d));;
  if negb dup then
    success <- post_deal d;;
    if success then
      delay <- lift (lookup (config self)
                       ["scraping"; "request_delay"; "min"]);;
      asyncio_sleep Throttle delay;;;
      ret (S posted_count)
    else ret posted_count
  else ret posted_count.

(** The [for deal in deals] loop, with the count of posted deals so far. *)
Fixpoint for_deals (deals : list deal) (posted_count : nat) : M E nat :=
  match deals with
  | [] => ret posted_count
  | d :: rest =>
      flag <- poll AtFor;;
      if negb flag then ret posted_count
      else
        posted_count' <- consider d posted_count;;
        for_deals rest posted_count'
  end.

(** The body of the [try] statement inside the [while] loop. *)
Definition cycle : M E unit :=
  call (get_working_proxy io) (fun r => EProxy (succeeded r));;;
  deals <- call (get_deals io (config self))
                (fun r => EDiscover (succeeded r));;
  log (InfoFound (List.length deals));;;
  posted_count <- for_deals deals 0;;
  log (InfoPosted posted_count);;;
  flag <- poll AtIf;;
  if flag then
    minutes <- lift (lookup (config self)
                       ["scraping"; "update_interval_minutes"]);;
    secs <- lift (times60 minutes);;
    asyncio_sleep InterCycle secs
  else ret tt.

Definition guarded_cycle : M E unit :=
  try_except cycle
    (fun e => log (ErrorMainLoop e);;; asyncio_sleep Cooldown (YInt 60)).

(** How a bounded run of the loop ends. *)
Inductive outcome : Type := Stopped | StillCycling.

(** The [while self.running] loop, for at most [fuel] cycles: the condition
    is evaluated, and [StillCycling] is the answer when it holds and no
    cycle is left to run. *)
Fixpoint run_loop (fuel : nat) : M E outcome :=
  flag <- poll AtWhile;;
  if flag then
    match fuel with
    | O => ret StillCycling
    | S fuel' => guarded_cycle;;; run_loop fuel'
    end
  else ret Stopped.

Definition run_forever (fuel : nat) : M E outcome :=
  log InfoStarting;;;
  initialize;;;
  o <- run_loop fuel;;
  match o with
  | Stopped => log InfoShutdown;;; ret Stopped
  | StillCycling => ret StillCycling
  end.

End Bot.

(** ** Deterministic stand-ins for the collaborators *)

Module Sim.

(** Modelled from the spec: the collaborators of section 4.5, which are not
    part of [bot.py].  The store keeps one record per identifier and sale
    price; a deal is a duplicate when a record with its identifier and that
    exact sale price exists; statistics are absent for an identifier without
    records; an upsert of a recorded pair changes nothing.  Calls are
    numbered, so that a run can be scripted: which call raises, and during
    which call the stop signal arrives. *)
Record state : Type := {
  calls : nat;
  stop_during : option nat;
  failures : list (nat * exn);
  records : list (string * Py.float);
  batches : list (list deal);
  wall_clock : Py.datetime
}.

Definition with_calls (n : nat) (s : state) : state :=
  {| calls := n; stop_during := stop_during s; failures := failures s;
     records := records s; batches := batches s; wall_clock := wall_clock s |}.

Definition with_records (r : list (string * Py.float)) (s : state) : state :=
  {| calls := calls s; stop_during := stop_during s; failures := failures s;
     records := r; batches := batches s; wall_clock := wall_clock s |}.

Definition with_batches (b : list (list deal)) (s : state) : state :=
  {| calls := calls s; stop_during := stop_during s; failures := failures s;
     records := records s; batches := b; wall_clock := wall_clock s |}.

Fixpoint failure_at (n : nat) (fs : list (nat * exn)) : option exn :=
  match fs with
  | [] => None
  | (k, e) :: rest => if Nat.eqb k n then Some e else failure_at n rest
  end.

Definition stops_now (s : state) : bool :=
  match stop_during s with
  | Some k => Nat.eqb k (calls s)
  | None => false
  end.

(** A call begins: it takes the next number, and the run flag is cleared if
    the stop signal arrives during it. *)
Definition arrive (w : world state) : option exn * world state :=
  let s := env w in
  (failure_at (calls s) (failures s),
   {| running := running w && negb (stops_now s);
      env := with_calls (S (calls s)) s |}).

Definition plain_call (w : world state) : result unit * world state :=
  match arrive w with
  | (Some e, w') => (Raise e, w')
  | (None, w') => (Ok tt, w')
  end.

Definition discover (cfg : yaml) (w : world state)
    : result (list deal) * world state :=
  match arrive w with
  | (Some e, w') => (Raise e, w')
  | (None, w') =>
      match batches (env w') with
      | [] => (Ok [], w')
      | b :: rest =>
          (Ok b, {| running := running w';
                    env := with_batches rest (env w') |})
      end
  end.

Definition recorded (id : string) (price : Py.float)
    (rs : list (string * Py.float)) : bool :=
  existsb (fun r => String.eqb (fst r) id && Py.feqb (snd r) price) rs.

(** A pause can only be scripted to end by an interrupt. *)
Definition nap (w : world state) : option interrupt * world state :=
  match arrive w with
  | (Some CancelledError, w') => (Some Cancelled, w')
  | (Some KeyboardInterrupt, w') => (Some Interrupted, w')
  | (Some SystemExit, w') => (Some Exited, w')
  | (_, w') => (None, w')
  end.

Definition is_duplicate (id : string) (price : Py.float) (w : world state)
    : result bool * world state :=
  match arrive w with
  | (Some e, w') => (Raise e, w')
  | (None, w') => (Ok (recorded id price (records (env w'))), w')
  end.

Definition prices_of (id : string) (rs : list (string * Py.float))
    : list Py.float :=
  map snd (filter (fun r => String.eqb (fst r) id) rs).

Definition lowest (p : Py.float) (ps : list Py.float) : Py.float :=
  fold_left (fun m q => if SFltb q m then q else m) ps p.

Definition stats_of (id : string) (rs : list (string * Py.float))
    : option deal_stats :=
  match prices_of id rs with
  | [] => None
  | p :: ps =>
      Some {| lowest_price := lowest p ps;
              times_posted := Z.of_nat (S (List.length ps)) |}
  end.

Definition stats (id : string) (w : world state)
    : result (option deal_stats) * world state :=
  match arrive w with
  | (Some e, w') => (Raise e, w')
  | (None, w') => (Ok (stats_of id (records (env w'))), w')
  end.

Definition upsert (d : deal) (w : world state) : result unit * world state :=
  match arrive w with
  | (Some e, w') => (Raise e, w')
  | (None, w') =>
      let rs := records (env w') in
      if recorded (asin d) (sale_price d) rs then (Ok tt, w')
      else (Ok tt, {| running := running w';
                      env := with_records (rs ++ [(asin d, sale_price d)])%list
                                          (env w') |})
  end.

Definition io : collaborators state := {|
  proxy_initialize := plain_call;
  get_working_proxy := plain_call;
  get_deals := discover;
  clean_old_deals := fun _ => plain_call;
  is_duplicate_deal := is_duplicate;
  get_deal_stats := stats;
  update_deal := upsert;
  send_message := fun _ _ => plain_call;
  now := fun w => wall_clock (env w);
  sleep := fun _ => nap
|}.

(** [not v] *)
Definition falsy (v : yaml) : bool :=
  match v with
  | YNull | YBool false | YInt 0%Z | YStr EmptyString
  | YSeq [] | YMap [] => true
  | YFloat f => Py.feqb f (Py.float_of_Z 0)
  | _ => false
  end.

(** Modelled from the spec: the constructors of the collaborators of
    section 4.5.  The Telegram client refuses an empty token, as the client
    library does; the other two accept what they are given. *)
Definition new : constructors := {|
  Bot := fun token =>
    if falsy token then Raise (TelegramError "invalid token") else Ok tt;
  DealsDatabase := fun _ => Ok tt;
  ProxyManager := fun _ => Ok tt
|}.

Definition repr_other (v : yaml) : string := "<object>".

End Sim.

(** ** Sample data *)

Module Sample.

Definition cfg : yaml :=
  YMap [("telegram", YMap [("bot_token", YStr "123:abc");
                          ("channel_id", YStr "@deals")]);
        ("database", YMap [("path", YStr "deals.db");
                          ("retention_days", YInt 30)]);
        ("scraping", YMap [("max_proxies", YInt 10);
                          ("request_delay", YMap [("min", YInt 2)]);
                          ("update_interval_minutes", YInt 30)]);
        ("amazon", YMap [("affiliate_id", YStr "abc")])].

Definition self : bot :=
  {| config := cfg; bot_token := YStr "123:abc"; channel_id := YStr "@deals";
     db_path := YStr "deals.db"; max_proxies := YInt 10 |}.

Definition kettle : deal :=
  {| asin := "B000KETTLE"; title := "Kettle";
     sale_price := Py.cents 1999; original_price := Py.cents 2999;
     discount := 33; category := "kitchen"; url := "https://x/y" |}.

Definition tv : deal :=
  {| asin := "B000TV"; title := "Television";
     sale_price := Py.cents 29900; original_price := Py.cents 39900;
     discount := 25; category := "TV"; url := "https://x/y?z=1" |}.

Definition noon : Py.datetime :=
  {| Py.year := 2024; Py.month := 3; Py.day := 9;
     Py.hour := 12; Py.minute := 0; Py.second := 0 |}.

Definition world_at (clock : Py.datetime) (stop : option nat)
    (fails : list (nat * exn)) (recs : list (string * Py.float))
    (bs : list (list deal)) : world Sim.state :=
  fresh_world {| Sim.calls := 0; Sim.stop_during := stop;
                 Sim.failures := fails; Sim.records := recs;
                 Sim.batches := bs; Sim.wall_clock := clock |}.

Definition start := world_at noon.

Definition a_second_later : Py.datetime :=
  {| Py.year := 2024; Py.month := 3; Py.day := 9;
     Py.hour := 12; Py.minute := 0; Py.second := 1 |}.

(** The kettle was posted before, at 24.99. *)
Definition price_changed : world Sim.state :=
  start None [] [("B000KETTLE", Py.cents 2499)] [].

(** The kettle was posted three times, 19.99 being the lowest price. *)
Definition thrice_posted : list (string * Py.float) :=
  [("B000KETTLE", Py.cents 2499); ("B000KETTLE", Py.cents 1999);
   ("B000KETTLE", Py.cents 2199)].

(** The fourth call, the upsert, fails. *)
Definition upsert_fails : world Sim.state :=
  start None [(3, OtherError "database is locked")] [] [].

(** The stop signal arrives during proxy acquisition. *)
Definition stop_during_proxy_acquisition : world Sim.state :=
  start (Some 0) [] [] [[kettle]].

(** Proxy initialisation fails. *)
Definition no_proxies : world Sim.state :=
  start None [(0, OtherError "no proxies")] [] [].

(** The discovery call fails, and the stop signal arrives during it. *)
Definition stop_during_failed_discovery : world Sim.state :=
  start (Some 1) [(1, OtherError "timed out")] [] [].

(** A configuration without the three keys that are read inside the loop. *)
Definition cfg_without_loop_keys : yaml :=
  YMap [("telegram", YMap [("bot_token", YStr "123:abc");
                          ("channel_id", YStr "@deals")]);
        ("database", YMap [("path", YStr "deals.db");
                          ("retention_days", YInt 30)]);
        ("scraping", YMap [("max_proxies", YInt 10)])].

(** A bot whose configuration lacks the three keys read inside the loop. *)
Definition self_without_loop_keys : bot :=
  {| config := cfg_without_loop_keys;
     bot_token := YStr "123:abc"; channel_id := YStr "@deals";
     db_path := YStr "deals.db"; max_proxies := YInt 10 |}.

(** A bot whose configuration lacks [scraping.request_delay.min] only. *)
Definition self_without_delay : bot :=
  {| config :=
       YMap [("telegram", YMap [("bot_token", YStr "123:abc");
                               ("channel_id", YStr "@deals")]);
             ("database", YMap [("path", YStr "deals.db");
                               ("retention_days", YInt 30)]);
             ("scraping", YMap [("max_proxies", YInt 10);
                               ("update_interval_minutes", YInt 30)]);
             ("amazon", YMap [("affiliate_id", YStr "abc")])];
     bot_token := YStr "123:abc"; channel_id := YStr "@deals";
     db_path := YStr "deals.db"; max_proxies := YInt 10 |}.

(** Pruning, the second call, fails. *)
Definition pruning_fails : world Sim.state :=
  start None [(1, OtherError "database is locked")] [] [].

(** A bot whose configuration lacks [database.retention_days]. *)
Definition self_without_retention : bot :=
  {| config := YMap [("telegram", YMap [("bot_token", YStr "123:abc");
                                       ("channel_id", YStr "@deals")]);
                     ("database", YMap [("path", YStr "deals.db")]);
                     ("scraping", YMap [("max_proxies", YInt 10)])];
     bot_token := YStr "123:abc"; channel_id := YStr "@deals";
     db_path := YStr "deals.db"; max_proxies := YInt 10 |}.


(** The stop signal arrives while the third call, the send, is in
    flight. *)
Definition stop_during_send : world Sim.state :=
  start (Some 2) [] [] [].

(** Electronics, in French. *)
Definition casque : deal :=
  {| asin := "B000CASQUE"; title := "Casque";
     sale_price := Py.cents 4999; original_price := Py.cents 7999;
     discount := 38; category := "électronique"; url := "https://x/z" |}.

End Sample.

(** ** Reading traces *)

(** A result with [t] put in front of its trace. *)
Definition prepend {E A} (t : trace) (x : result A * world E * trace)
    : result A * world E * trace :=
  let '(r, w, t') := x in (r, w, (t ++ t')%list).

(** What the loop does with an exception that left a cycle. *)
Definition cooldown {E} (e : exn) (w1 : world E) : trace :=
  [(running w1, ELog (ErrorMainLoop e));
   (running w1, ESleep Cooldown (SecInt 60))].

(** The keys read by [__init__]. *)
Definition constructor_keys : list (list string) :=
  [["telegram"; "bot_token"]; ["telegram"; "channel_id"];
   ["database"; "path"]; ["scraping"; "max_proxies"]].

(** The events issued while the run flag was already cleared. *)
Definition late (t : trace) : list event :=
  map snd (filter (fun p => negb (fst p)) t).

Definition is_sleep (e : event) : bool :=
  match e with ESleep _ _ => true | _ => false end.

Definition is_send (e : event) : bool :=
  match e with ESend _ _ _ => true | _ => false end.

(** The operations that sit right behind a read of the run flag: proxy
    acquisition, the duplicate check and the inter-cycle sleep. *)
Definition gated (e : event) : bool :=
  match e with
  | EProxy _ | EIsDup _ _ _ | ESleep InterCycle _ => true
  | _ => false
  end.

Definition issued_running (p : bool * event) : bool :=
  implb (gated (snd p)) (fst p).

Definition is_true_poll (p : bool * event) : bool :=
  match snd p with EPoll _ true => true | _ => false end.

(** Every gated operation comes right after a read of the flag that found
    it set; [after_poll] tells whether the trace itself follows such a
    read. *)
Fixpoint reads_before (after_poll : bool) (t : trace) : bool :=
  match t with
  | [] => true
  | p :: t' =>
      implb (gated (snd p)) after_poll && reads_before (is_true_poll p) t'
  end.

(** Reads of the flag and log records: what the loop still does on its way
    out. *)
Definition quiet (p : bool * event) : bool :=
  match snd p with EPoll _ _ | ELog _ => true | _ => false end.

Definition is_false_poll (p : bool * event) : bool :=
  match snd p with EPoll _ false => true | _ => false end.

(** After the first read of the flag that finds it cleared, nothing but
    reads of the flag and log records follows. *)
Fixpoint winds_down (t : trace) : bool :=
  match t with
  | [] => true
  | p :: t' => if is_false_poll p then forallb quiet t' else winds_down t'
  end.

(** The deals stored by a successful [update_deal]. *)
Definition persisted (t : trace) : nat :=
  List.length (filter (fun p => match snd p with
                                | EUpdate _ true => true
                                | _ => false
                                end) t).

(** The events of a discovery cycle. *)
Definition cycle_event (p : bool * event) : bool :=
  match snd p with
  | EPoll _ _ | EProxy _ | EDiscover _ | EIsDup _ _ _ | EStats _ _
  | ESend _ _ _ | EUpdate _ _ | ESleep _ _ => true
  | _ => false
  end.

(** What the specification's wording asks of a shutdown: once the flag is
    cleared, no proxy acquisition or discovery call is started, at most one
    pause is started, and that pause is a throttle pause. *)
Definition within_publish_and_throttle (t : trace) : bool :=
  forallb (fun e => match e with
                    | ESleep Throttle _ => true
                    | ESleep _ _ | EProxy _ | EDiscover _ => false
                    | _ => true
                    end) (late t)
  && (List.length (filter is_sleep (late t)) <=? 1)%nat.

(** The specification's wording for the hashtag: the first letter as a
    capital, nothing else touched. *)
Definition first_letter_capitalized (s : string) : string :=
  match Py.decode_utf8 s with
  | [] => ""
  | c :: rest => Py.encode_utf8 (Py.to_title c ++ rest)%list
  end.

Definition hashtag_line_as_specified (d : deal) : string :=
  "#" ++ first_letter_capitalized (category d) ++ " #AmazonDeals #Discount".

(** The events [post_deal] can issue. *)
Definition posting_event (p : bool * event) : bool :=
  match snd p with
  | EStats _ _ | ENow _ | ESend _ _ _ | EUpdate _ _ | ELog _ => true
  | _ => false
  end.

(** Among the events issued after the flag was cleared, those that [f]
    selects. *)
Definition late_count (f : event -> bool) (t : trace) : nat :=
  List.length (filter f (late t)).

(** At most one pause and at most one send were started after the flag was
    cleared. *)
Definition late_bounds (t : trace) : Prop :=
  (late_count is_sleep t <= 1)%nat /\ (late_count is_send t <= 1)%nat.

(** At most one pause and one send were started late, and no pause when
    an exception of class [Exception] comes out. *)
Definition late_and_caught {A} (r : result A) (t : trace) : Prop :=
  late_bounds t /\
  (forall e, r = Raise e -> is_exception e = true ->
     late_count is_sleep t = 0%nat).

(** No read of the flag found it cleared. *)
Definition clean (t : trace) : Prop :=
  forallb (fun p => negb (is_false_poll p)) t = true.

(** A read of the flag found it cleared, and only flag reads and log
    records came after the first such read. *)
Definition wound_down (t : trace) : Prop :=
  exists t0 p tq,
    t = (t0 ++ p :: tq)%list /\ clean t0 /\
    is_false_poll p = true /\ forallb quiet tq = true.

(** A computation that does not set a cleared flag again, and all of whose
    events were issued with the flag set if the flag is set at its end. *)
Definition tidy {E A} (m : M E A) : Prop :=
  forall w r w' t, m w = (r, w', t) ->
    (running w = false -> running w' = false) /\
    (running w' = true -> late t = []).

(** The run flag is only ever cleared from outside: no collaborator call
    and no sleep sets it again. *)
Definition stop_is_final {E} (io : collaborators E) : Prop :=
  forall w, running w = false ->
    running (snd (proxy_initialize io w)) = false /\
    running (snd (get_working_proxy io w)) = false /\
    (forall c, running (snd (get_deals io c w)) = false) /\
    (forall c, running (snd (clean_old_deals io c w)) = false) /\
    (forall a p, running (snd (is_duplicate_deal io a p w)) = false) /\
    (forall a, running (snd (get_deal_stats io a w)) = false) /\
    (forall d, running (snd (update_deal io d w)) = false) /\
    (forall c m, running (snd (send_message io c m w)) = false) /\
    (forall d, running (snd (sleep io d w)) = false).

(** ** Further observations *)

(** The events of a trace that [f] selects, counted. *)
Definition count_events (f : event -> bool) (t : trace) : nat :=
  List.length (filter f (map snd t)).

Definition is_update (e : event) : bool :=
  match e with EUpdate _ _ => true | _ => false end.

Definition is_stored (e : event) : bool :=
  match e with EUpdate _ true => true | _ => false end.

Definition is_delivered (e : event) : bool :=
  match e with ESend _ _ true => true | _ => false end.

Definition is_throttle (e : event) : bool :=
  match e with ESleep Throttle _ => true | _ => false end.

Definition is_posted_log (e : event) : bool :=
  match e with ELog (InfoPosted _) => true | _ => false end.

Definition is_discover (e : event) : bool :=
  match e with EDiscover _ => true | _ => false end.

Definition is_proxy_ok (p : bool * event) : bool :=
  match snd p with EProxy true => true | _ => false end.

(** The identifiers handed to the duplicate check, in the order of the
    checks. *)
Fixpoint checked_ids (t : trace) : list string :=
  match t with
  | [] => []
  | (_, EIsDup id _ _) :: t' => id :: checked_ids t'
  | _ :: t' => checked_ids t'
  end.

(** Every discovery call comes right after a proxy acquisition that
    succeeded; [after_proxy] tells whether the trace itself follows one. *)
Fixpoint discovery_follows_proxy (after_proxy : bool) (t : trace) : bool :=
  match t with
  | [] => true
  | p :: t' =>
      implb (is_discover (snd p)) after_proxy &&
      discovery_follows_proxy (is_proxy_ok p) t'
  end.

(** The argument of the throttle pause:
    [self.config['scraping']['request_delay']['min']], as [asyncio.sleep]
    takes it. *)
Definition delay_seconds (self : bot) : result seconds :=
  bind_result (lookup (config self) ["scraping"; "request_delay"; "min"])
    as_seconds.

(** The argument of the inter-cycle sleep:
    [self.config['scraping']['update_interval_minutes'] * 60]. *)
Definition interval_seconds (self : bot) : result seconds :=
  bind_result (lookup (config self) ["scraping"; "update_interval_minutes"])
    (fun minutes => bind_result (times60 minutes) as_seconds).

(** The events that [run_forever] issues outside [post_deal], each pause
    with the duration it can have. *)
Definition loop_event (self : bot) (e : event) : Prop :=
  match e with
  | EPoll _ _ | EProxy _ | EDiscover _ | EIsDup _ _ _ => True
  | ELog (InfoFound _) | ELog (InfoPosted _) | ELog (ErrorMainLoop _) => True
  | ESleep Throttle s => delay_seconds self = Ok s
  | ESleep InterCycle s => interval_seconds self = Ok s
  | ESleep Cooldown s => s = SecInt 60
  | _ => False
  end.

(** The events of [post_deal], sent to the chat [chat]. *)
Definition post_event (chat : yaml) (e : event) : Prop :=
  match e with
  | EStats _ _ | ENow _ | EUpdate _ _ => True
  | ESend c _ _ => c = chat
  | ELog (ErrorTelegram _) | ELog (ErrorPosting _) => True
  | _ => False
  end.

(** The events that only the cycle and the [while] loop issue, never the
    [for] loop over the batch. *)
Definition cycle_only (e : event) : bool :=
  match e with
  | EProxy _ | EDiscover _ | EPoll AtIf _ | EPoll AtWhile _ => true
  | ELog (InfoFound _) | ELog (InfoPosted _) | ELog (ErrorMainLoop _) => true
  | ESleep InterCycle _ | ESleep Cooldown _ => true
  | _ => false
  end.

Definition is_error_log (e : event) : bool :=
  match e with
  | ELog (ErrorTelegram _) | ELog (ErrorPosting _) => true
  | _ => false
  end.

(** Every pause has the duration the configuration gives it, and the
    cooldown lasts 60 seconds. *)
Definition pause_as_configured (self : bot) (p : bool * event) : Prop :=
  match snd p with
  | ESleep Throttle s => delay_seconds self = Ok s
  | ESleep InterCycle s => interval_seconds self = Ok s
  | ESleep Cooldown s => s = SecInt 60
  | _ => True
  end.

Definition sent_to (chat : yaml) (p : bool * event) : Prop :=
  match snd p with ESend c _ _ => c = chat | _ => True end.

(** The result [r] with [b] for its value. *)
Definition with_value {A B} (r : result A) (b : B) : result B :=
  match r with Ok _ => Ok b | Raise e => Raise e end.

(** The event that opens [post_deal]: the statistics lookup of the
    rendering. *)
Definition opens_with_stats (d : deal) (flag : bool) (t : trace) : Prop :=
  exists ok t', t = (flag, EStats (asin d) ok) :: t'.

(** The specification's wording for the throttle: a pause for each message
    that was published. *)
Definition pause_per_delivery (t : trace) : bool :=
  (count_events is_throttle t =? count_events is_delivered t)%nat.

(** The specification's wording for a skipped candidate: nothing was
    rendered, published or stored for it. *)
Definition untouched (d : deal) (t : trace) : bool :=
  forallb (fun p => match snd p with
                    | EStats id _ => negb (String.eqb id (asin d))
                    | EUpdate d' _ => negb (String.eqb (asin d') (asin d))
                    | _ => true
                    end) t.

(** The duplicate check answered true for the candidate. *)
Definition found_duplicate (d : deal) (t : trace) : bool :=
  existsb (fun p => match snd p with
                    | EIsDup id _ (Ok true) => String.eqb id (asin d)
                    | _ => false
                    end) t.


(** * Properties *)

(** ** Numerals and the two-decimal format *)

Module PyFacts.

Import Py.

Lemma digit_char_is_digit (n : N) : is_digit (digit_char n) = true.
Proof.
  unfold is_digit, digit_char. cbv zeta.
  assert (H : (n mod 10 < 10)%N) by (apply N.mod_lt; discriminate).
  rewrite N_ascii_embedding by lia.
  apply andb_true_intro; split; apply N.leb_le; [apply N.le_add_r | lia].
Qed.

Lemma digit_char_code (n : N) : N_of_ascii (digit_char n) = (48 + n mod 10)%N.
Proof.
  unfold digit_char.
  assert (H : (n mod 10 < 10)%N) by (apply N.mod_lt; discriminate).
  apply N_ascii_embedding. lia.
Qed.

Lemma digits_from_value (fuel : nat) :
  forall n acc,
    (n < 2 ^ N.of_nat fuel)%N ->
    numeral_value (digits_from fuel n acc) =
      (n * 10 ^ N.of_nat (String.length acc) + numeral_value acc)%N.
Proof.
  induction fuel as [|fuel IH]; intros n acc Hn.
  - simpl in *. assert (n = 0%N) as -> by lia. reflexivity.
  - cbn [digits_from].
    pose proof (N.Div0.div_mod n 10) as Hdm.
    assert (Hm : (n mod 10 < 10)%N) by (apply N.mod_lt; discriminate).
    destruct (n <? 10)%N eqn:Hlt.
    + apply N.ltb_lt in Hlt. cbn [numeral_value].
      rewrite digit_char_code, N.mod_small by exact Hlt.
      replace (48 + n - 48)%N with n by lia. reflexivity.
    + apply N.ltb_ge in Hlt.
      rewrite IH.
      * cbn [numeral_value String.length].
        rewrite digit_char_code, Nat2N.inj_succ, N.pow_succ_r'.
        rewrite (N.add_comm 48), N.add_sub.
        set (p := (10 ^ N.of_nat (String.length acc))%N).
        replace (n * p)%N with ((10 * (n / 10) + n mod 10) * p)%N
          by (now rewrite <- Hdm).
        ring.
      * rewrite Nat2N.inj_succ, N.pow_succ_r' in Hn.
        apply N.Div0.div_lt_upper_bound. lia.
Qed.

(** A numeral reads back as the number it was printed from. *)
Lemma decimal_value (n : N) : numeral_value (decimal n) = n.
Proof.
  unfold decimal. rewrite digits_from_value.
  - simpl. rewrite N.mul_1_r. apply N.add_0_r.
  - rewrite Nat2N.inj_succ, N2Nat.id.
    destruct n as [|p]; [reflexivity|].
    apply N.log2_spec. reflexivity.
Qed.

Lemma digits_from_all_digits (fuel : nat) :
  forall n acc, all_digits acc = true ->
                all_digits (digits_from fuel n acc) = true.
Proof.
  induction fuel as [|fuel IH]; intros n acc Hacc; simpl; [exact Hacc|].
  destruct (n <? 10)%N.
  - simpl. now rewrite digit_char_is_digit.
  - apply IH. simpl. now rewrite digit_char_is_digit.
Qed.

Lemma decimal_all_digits (n : N) : all_digits (decimal n) = true.
Proof. unfold decimal. now apply digits_from_all_digits. Qed.

Lemma digits_from_nonempty (fuel : nat) :
  forall n acc, digits_from (S fuel) n acc <> "".
Proof.
  induction fuel as [|fuel IH]; intros n acc.
  - simpl. destruct (n <? 10)%N; discriminate.
  - change (digits_from (S (S fuel)) n acc)
      with (if (n <? 10)%N then String (digit_char n) acc
            else digits_from (S fuel) (n / 10) (String (digit_char n) acc)).
    destruct (n <? 10)%N; [discriminate | apply IH].
Qed.

Lemma decimal_nonempty (n : N) : decimal n <> "".
Proof. unfold decimal. apply digits_from_nonempty. Qed.

Lemma decimal_one_digit (n : N) :
  (n < 10)%N -> decimal n = String (digit_char n) "".
Proof.
  intros H. unfold decimal. simpl.
  now apply N.ltb_lt in H as ->.
Qed.

Lemma decimal_two_digits (n : N) :
  (10 <= n < 100)%N ->
  decimal n = String (digit_char (n / 10)) (String (digit_char n) "").
Proof.
  intros [Hlo Hhi]. unfold decimal.
  assert (Hlog : (3 <= N.log2 n)%N).
  { change 3%N with (N.log2 8). apply N.log2_le_mono. lia. }
  destruct (N.to_nat (N.log2 n)) as [|k] eqn:Hk; [lia|].
  simpl.
  assert (H1 : (n <? 10)%N = false) by (apply N.ltb_ge; lia).
  assert (H2 : (n / 10 <? 10)%N = true).
  { apply N.ltb_lt. apply N.Div0.div_lt_upper_bound. lia. }
  now rewrite H1, H2.
Qed.

Lemma pad2_two_digits (n : N) : (n < 100)%N -> two_digits (pad 2 n).
Proof.
  intros H. unfold pad.
  destruct (N.lt_ge_cases n 10) as [Hs|Hb].
  - rewrite decimal_one_digit by exact Hs. simpl.
    exists "0"%char, (digit_char n). repeat split.
    apply digit_char_is_digit.
  - rewrite decimal_two_digits by lia. simpl.
    exists (digit_char (n / 10)), (digit_char n).
    repeat split; apply digit_char_is_digit.
Qed.

Lemma format_2f_two_decimals (x : float) :
  is_finite x = true -> two_decimals (format_2f x).
Proof.
  destruct x as [s|s| |s m e]; simpl; try discriminate; intros _.
  - exists (sign_str s), "0", "00". repeat split.
    + destruct s; simpl; auto.
    + discriminate.
    + exists "0"%char, "0"%char. repeat split.
  - set (h := Z.to_N (hundredths m e)).
    exists (sign_str s), (decimal (h / 100)), (pad 2 (h mod 100)).
    repeat split.
    + destruct s; simpl; auto.
    + apply decimal_nonempty.
    + apply decimal_all_digits.
    + apply pad2_two_digits. apply N.mod_lt. discriminate.
Qed.

(** The hundredths shown are the nearest to the float's exact value
    [m * 2^e]: the error is at most half a hundredth. *)
Lemma div_half_even_nearest (a b : Z) :
  (0 <= a)%Z -> (0 < b)%Z ->
  (Z.abs (2 * (div_half_even a b * b - a)) <= b)%Z.
Proof.
  intros Ha Hb. unfold div_half_even.
  pose proof (Z.div_mod a b ltac:(lia)) as Hdm.
  pose proof (Z.mod_pos_bound a b Hb) as Hr.
  assert (Hq : (a / b * b - a = - (a mod b))%Z) by lia.
  assert (Hq1 : ((a / b + 1) * b - a = b - a mod b)%Z) by lia.
  destruct (2 * (a mod b) ?= b)%Z eqn:Hc.
  - apply Z.compare_eq in Hc.
    destruct (Z.even (a / b)); [rewrite Hq | rewrite Hq1];
      clear Hdm Hq Hq1; lia.
  - rewrite Z.compare_lt_iff in Hc. rewrite Hq. clear Hdm Hq Hq1. lia.
  - rewrite Z.compare_gt_iff in Hc. rewrite Hq1. clear Hdm Hq Hq1. lia.
Qed.

Lemma hundredths_nearest (m : positive) (e : Z) :
  (e < 0)%Z ->
  (Z.abs (2 * (hundredths m e * 2 ^ (- e) - Zpos m * 100)) <= 2 ^ (- e))%Z.
Proof.
  intros He. unfold hundredths.
  destruct (0 <=? e)%Z eqn:Hle; [apply Z.leb_le in Hle; lia|].
  apply div_half_even_nearest; [lia|].
  apply Z.pow_pos_nonneg; lia.
Qed.

Lemma hundredths_nonneg (m : positive) (e : Z) : (0 <= hundredths m e)%Z.
Proof.
  unfold hundredths. destruct (0 <=? e)%Z eqn:He.
  - apply Z.leb_le in He.
    apply Z.mul_nonneg_nonneg; [|lia].
    apply Z.mul_nonneg_nonneg; [lia|]. apply Z.pow_nonneg. lia.
  - apply Z.leb_gt in He. unfold div_half_even.
    assert (Hb : (0 < 2 ^ (- e))%Z) by (apply Z.pow_pos_nonneg; lia).
    assert (Hq : (0 <= Z.pos m * 100 / 2 ^ (- e))%Z)
      by (apply Z.div_pos; lia).
    destruct (_ ?= _)%Z; [destruct (Z.even _)| |]; lia.
Qed.

Lemma numeral_value_zeros (k : nat) (s : string) :
  numeral_value (zeros k ++ s) = numeral_value s.
Proof.
  induction k as [|k IH]; simpl; [reflexivity|]. now rewrite IH.
Qed.

Lemma pad_value (width : nat) (n : N) : numeral_value (pad width n) = n.
Proof. unfold pad. now rewrite numeral_value_zeros, decimal_value. Qed.

(** The numeral printed for a finite float is that of its value rounded to
    the nearest hundredth. *)
Lemma format_2f_shows (x : float) :
  is_finite x = true -> shows x (format_2f x).
Proof.
  destruct x as [s|s| |s m e]; simpl; try discriminate; intros _;
    [reflexivity|].
  set (h := Z.to_N (hundredths m e)).
  exists (decimal (h / 100) ++ "." ++ pad 2 (h mod 100)), h.
  split; [reflexivity|]. split.
  - exists (decimal (h / 100)), (pad 2 (h mod 100)).
    split; [reflexivity|]. split; [apply decimal_nonempty|].
    split; [apply decimal_all_digits|].
    split; [apply pad2_two_digits; apply N.mod_lt; discriminate|].
    rewrite decimal_value, pad_value.
    rewrite (N.Div0.div_mod h 100) at 1. lia.
  - unfold h. rewrite Z2N.id by apply hundredths_nonneg.
    unfold nearest_hundredths. destruct (0 <=? e)%Z eqn:He.
    + unfold hundredths. now rewrite He.
    + apply hundredths_nearest. now apply Z.leb_gt.
Qed.

Lemma append_assoc (a b c : string) : (a ++ b) ++ c = a ++ b ++ c.
Proof. induction a as [|x a IH]; simpl; [reflexivity|]. now rewrite IH. Qed.

Lemma prefix_append (a b : string) : String.prefix a (a ++ b) = true.
Proof.
  induction a as [|x a IH]; simpl; [now destruct b|].
  destruct (ascii_dec x x) as [_|Hne]; [exact IH | now elim Hne].
Qed.

(** A string occurs in whatever it was spliced into. *)
Lemma occurs_spliced (a x b : string) : occurs x (a ++ x ++ b) = true.
Proof.
  induction a as [|c a IH].
  - cbn [append]. pose proof (prefix_append x b) as Hp.
    destruct (x ++ b); cbn [occurs]; now rewrite Hp.
  - cbn [append occurs]. rewrite IH. apply orb_true_r.
Qed.

End PyFacts.


(** ** Sequencing *)

Section MonadFacts.

Variable E : Type.

Lemma bind_ok {A B} (m : M E A) (k : A -> M E B) w a w1 t1 :
  m w = (Ok a, w1, t1) -> bind m k w = prepend t1 (k a w1).
Proof. intros H. unfold bind, prepend. now rewrite H. Qed.

Lemma bind_raise {A B} (m : M E A) (k : A -> M E B) w e w1 t1 :
  m w = (Raise e, w1, t1) -> bind m k w = (Raise e, w1, t1).
Proof. intros H. unfold bind. now rewrite H. Qed.

Lemma try_ok {A} (m : M E A) h w a w1 t1 :
  m w = (Ok a, w1, t1) -> try_except m h w = (Ok a, w1, t1).
Proof. intros H. unfold try_except. now rewrite H. Qed.

Lemma try_caught {A} (m : M E A) h w e w1 t1 :
  m w = (Raise e, w1, t1) -> is_exception e = true ->
  try_except m h w = prepend t1 (h e w1).
Proof. intros H He. unfold try_except, prepend. now rewrite H, He. Qed.

Lemma try_passed {A} (m : M E A) h w e w1 t1 :
  m w = (Raise e, w1, t1) -> is_exception e = false ->
  try_except m h w = (Raise e, w1, t1).
Proof. intros H He. unfold try_except. now rewrite H, He. Qed.

Lemma prepend_prepend {A} t1 t2 (x : result A * world E * trace) :
  prepend t1 (prepend t2 x) = prepend (t1 ++ t2)%list x.
Proof. destruct x as [[r w] t]. simpl. now rewrite app_assoc. Qed.

(** Subscripting raises nothing but [KeyError] and [TypeError]. *)
Lemma lookup_raises_exception (v : yaml) (path : list string) e :
  lookup v path = Raise e -> is_exception e = true.
Proof.
  revert v. induction path as [|k rest IH]; intros v; simpl; [discriminate|].
  unfold subscript. destruct v; try (intros [= <-]; reflexivity).
  destruct (assoc k entries); [apply IH | intros [= <-]; reflexivity].
Qed.

Lemma as_seconds_raises_exception (v : yaml) e :
  as_seconds v = Raise e -> is_exception e = true.
Proof.
  destruct v; simpl; try (intros [= <-]; reflexivity); try discriminate.
  destruct (_ && _); [intros [= <-]; reflexivity | discriminate].
Qed.

Lemma as_seconds_60 : as_seconds (YInt 60) = Ok (SecInt 60).
Proof. reflexivity. Qed.

End MonadFacts.

(** ** Rendering *)

Section Rendering.

Variable E : Type.
Variable io : collaborators E.
Variable repr_other : yaml -> string.
Variable self : bot.

Lemma contains_char_spec (c : ascii) (s : string) :
  Py.contains_char c s = true <-> exists a b, s = a ++ String c b.
Proof.
  induction s as [|x s IH]; simpl.
  - split; [discriminate|]. intros [[|y a] [b H]]; discriminate.
  - rewrite orb_true_iff, IH, Ascii.eqb_eq. split.
    + intros [->|[a [b ->]]]; [now exists "", s | now exists (String x a), b].
    + intros [[|y a] [b H]]; simpl in H; injection H as -> ->;
        [now left | right; now exists a, b].
Qed.

(** C6. The outbound link is the source URL followed by [tag=<affiliate
    tag>], joined with [&] when the URL contains a [?] and with [?] when it
    does not; the URL itself is copied as it is. *)
Theorem affiliate_link_rule (u tag : string) :
  lookup (config self) ["amazon"; "affiliate_id"] = Ok (YStr tag) ->
  _generate_affiliate_link repr_other self u =
    Ok (u ++ (if Py.contains_char "?" u then "&" else "?") ++ "tag=" ++ tag).
Proof.
  intros H. unfold _generate_affiliate_link. rewrite H. simpl.
  destruct (Py.contains_char "?" u); reflexivity.
Qed.

Lemma format_deal_message_ok (d : deal) w stats w1 link :
  get_deal_stats io (asin d) w = (Ok stats, w1) ->
  _generate_affiliate_link repr_other self (url d) = Ok link ->
  _format_deal_message io repr_other self d w =
    (Ok (message_text d (price_history stats) link (now io w1)), w1,
     [(running w, EStats (asin d) true); (running w1, ENow (now io w1))]).
Proof.
  intros Hs Hl. unfold _format_deal_message, bind, call, lift, clock, ret.
  rewrite Hs, Hl. reflexivity.
Qed.

Lemma price_history_cases (stats : option deal_stats) :
  (price_history stats <> "" <->
   exists s, stats = Some s /\ (1 < times_posted s)%Z) /\
  (forall s, stats = Some s -> (1 < times_posted s)%Z ->
     price_history stats =
       nl ++ "💹 Lowest Price: $" ++ Py.format_2f (lowest_price s) ++ nl ++
       "📊 Times Listed: " ++ Py.str_int (times_posted s)).
Proof.
  split.
  - destruct stats as [s|]; simpl.
    + destruct (1 <? times_posted s)%Z eqn:Hc.
      * apply Z.ltb_lt in Hc. split; [intros _; now exists s | discriminate].
      * apply Z.ltb_ge in Hc. split; [congruence|].
        intros [s' [[= <-] H]]. lia.
    + split; [congruence | intros [s [[=] _]]].
  - intros s -> H. simpl. now apply Z.ltb_lt in H as ->.
Qed.

(** The text of the message, cut where the history block goes. *)
Lemma message_text_spliced (d : deal) (history link : string) t :
  message_text d history link t =
    ("🔥 HOT DEAL ALERT! 🔥" ++ nl ++ nl ++
     "📦 " ++ title d ++ nl ++ nl ++
     "💰 Sale Price: $" ++ Py.format_2f (sale_price d) ++ nl ++
     "❌ Original: $" ++ Py.format_2f (original_price d) ++ nl ++
     "💯 Save: " ++ Py.str_int (discount d) ++ "% " ++
     "($" ++ Py.format_2f (Py.fsub (original_price d) (sale_price d)) ++ ")")
    ++ history ++
    (nl ++ nl ++
     "🛍️ Buy Now: " ++ link ++ nl ++ nl ++
     "#" ++ Py.capitalize (category d) ++ " #AmazonDeals #Discount" ++ nl ++
     "Posted: " ++ Py.strftime t).
Proof.
  unfold message_text. now rewrite !PyFacts.append_assoc.
Qed.

(** C5. The message is the lines up to the savings, then the history block,
    then the rest from the link on; the block is there -- the two lines
    with the lowest price and the times listed -- exactly when the store
    returned statistics whose [times_posted] exceeds 1, and otherwise
    nothing stands in its place. *)
Theorem history_block_gating (d : deal) w stats w1 link :
  get_deal_stats io (asin d) w = (Ok stats, w1) ->
  _generate_affiliate_link repr_other self (url d) = Ok link ->
  exists text block,
    fst (fst (_format_deal_message io repr_other self d w)) = Ok text /\
    text =
      ("🔥 HOT DEAL ALERT! 🔥" ++ nl ++ nl ++
       "📦 " ++ title d ++ nl ++ nl ++
       "💰 Sale Price: $" ++ Py.format_2f (sale_price d) ++ nl ++
       "❌ Original: $" ++ Py.format_2f (original_price d) ++ nl ++
       "💯 Save: " ++ Py.str_int (discount d) ++ "% " ++
       "($" ++ Py.format_2f (Py.fsub (original_price d) (sale_price d)) ++
       ")")
      ++ block ++
      (nl ++ nl ++
       "🛍️ Buy Now: " ++ link ++ nl ++ nl ++
       "#" ++ Py.capitalize (category d) ++ " #AmazonDeals #Discount" ++ nl ++
       "Posted: " ++ Py.strftime (now io w1)) /\
    Py.occurs block text = true /\
    (block <> "" <-> exists s, stats = Some s /\ (1 < times_posted s)%Z) /\
    (forall s, stats = Some s -> (1 < times_posted s)%Z ->
       block =
         nl ++ "💹 Lowest Price: $" ++ Py.format_2f (lowest_price s) ++ nl ++
         "📊 Times Listed: " ++ Py.str_int (times_posted s)).
Proof.
  intros Hs Hl.
  exists (message_text d (price_history stats) link (now io w1)),
    (price_history stats).
  rewrite (format_deal_message_ok d w Hs Hl).
  split; [reflexivity|]. split; [apply message_text_spliced|].
  split; [rewrite message_text_spliced; apply PyFacts.occurs_spliced|].
  apply price_history_cases.
Qed.

(** C8, as amended. The text is a function of the deal, the statistics the
    store returns, the affiliate link and the clock reading: renderings
    that agree on these give the same text.  A rendering issues one
    statistics lookup and one clock read and nothing else, and leaves the
    world as the lookup left it. *)
Theorem rendering_determined (d : deal) w w' stats w1 w1' link :
  get_deal_stats io (asin d) w = (Ok stats, w1) ->
  get_deal_stats io (asin d) w' = (Ok stats, w1') ->
  now io w1 = now io w1' ->
  _generate_affiliate_link repr_other self (url d) = Ok link ->
  exists text,
    _format_deal_message io repr_other self d w =
      (Ok text, w1,
       [(running w, EStats (asin d) true); (running w1, ENow (now io w1))]) /\
    _format_deal_message io repr_other self d w' =
      (Ok text, w1',
       [(running w', EStats (asin d) true); (running w1', ENow (now io w1'))]).
Proof.
  intros Hs Hs' Hnow Hl.
  exists (message_text d (price_history stats) link (now io w1)). split.
  - now apply format_deal_message_ok.
  - rewrite Hnow. now apply format_deal_message_ok.
Qed.

(** C9, as amended. For a deal whose prices and their difference are finite
    numbers, the sale price, the original price and the savings
    [original_price - sale_price] are each shown with two decimals, rounded
    to the nearest hundredth, next to the discount percent as supplied; the
    hashtag line is the category with its first character in title case
    and all its other characters in lower case, followed by the two fixed
    tags. *)
Theorem price_and_hashtag_lines (d : deal) (history link : string) t :
  Py.is_finite (sale_price d) = true ->
  Py.is_finite (original_price d) = true ->
  Py.is_finite (Py.fsub (original_price d) (sale_price d)) = true ->
  exists sale original saved tag,
    message_text d history link t =
      "🔥 HOT DEAL ALERT! 🔥" ++ nl ++ nl ++
      "📦 " ++ title d ++ nl ++ nl ++
      "💰 Sale Price: $" ++ sale ++ nl ++
      "❌ Original: $" ++ original ++ nl ++
      "💯 Save: " ++ Py.str_int (discount d) ++ "% ($" ++ saved ++ ")" ++
      history ++ nl ++ nl ++
      "🛍️ Buy Now: " ++ link ++ nl ++ nl ++
      "#" ++ tag ++ " #AmazonDeals #Discount" ++ nl ++
      "Posted: " ++ Py.strftime t /\
    Py.shows (sale_price d) sale /\ Py.two_decimals sale /\
    Py.shows (original_price d) original /\ Py.two_decimals original /\
    Py.shows (Py.fsub (original_price d) (sale_price d)) saved /\
    Py.two_decimals saved /\
    tag = Py.encode_utf8
            match Py.decode_utf8 (category d) with
            | [] => []
            | c :: rest => (Py.to_title c ++ Py.lower_after [c] rest)%list
            end.
Proof.
  intros Hs Ho Hd.
  exists (Py.format_2f (sale_price d)), (Py.format_2f (original_price d)),
    (Py.format_2f (Py.fsub (original_price d) (sale_price d))),
    (Py.capitalize (category d)).
  repeat split;
    auto using PyFacts.format_2f_two_decimals, PyFacts.format_2f_shows.
Qed.

End Rendering.

(** ** The anatomy of a run *)

Ltac break_match :=
  match goal with
  | |- context [match ?x with _ => _ end] => destruct x eqn:?
  | H : context [match ?x with _ => _ end] |- _ => destruct x eqn:?
  end.

Ltac unfold_effects :=
  unfold bind, try_except, call, lift, log, emit, poll, clock, ret in *.

Section Anatomy.

Variable E : Type.
Variable io : collaborators E.
Variable repr_other : yaml -> string.
Variable self : bot.

Local Abbreviation post := (post_deal io repr_other self).
Local Abbreviation consider1 := (consider io repr_other self).
Local Abbreviation batch := (for_deals io repr_other self).
Local Abbreviation one_cycle := (cycle io repr_other self).
Local Abbreviation safe_cycle := (guarded_cycle io repr_other self).
Local Abbreviation loop := (run_loop io repr_other self).

Lemma asyncio_sleep_ok (k : pause) v secs (w : world E) :
  as_seconds v = Ok secs ->
  asyncio_sleep io k v w =
    (interrupted (fst (sleep io secs w)), snd (sleep io secs w),
     [(running w, ESleep k secs)]).
Proof.
  intros H. unfold asyncio_sleep, bind, lift. rewrite H.
  now destruct (interrupted _).
Qed.

Lemma interrupted_passes (i : option interrupt) e :
  interrupted i = Raise e -> is_exception e = false.
Proof. destruct i as [[]|]; simpl; intros [= <-]; reflexivity. Qed.

Lemma asyncio_sleep_raise (k : pause) v e (w : world E) :
  as_seconds v = Raise e -> asyncio_sleep io k v w = (Raise e, w, []).
Proof. intros H. unfold asyncio_sleep, bind, lift. now rewrite H. Qed.

Lemma count_events_app f (t1 t2 : trace) :
  count_events f (t1 ++ t2)%list
  = (count_events f t1 + count_events f t2)%nat.
Proof. unfold count_events. now rewrite map_app, filter_app, length_app. Qed.

Lemma persisted_app (t1 t2 : trace) :
  persisted (t1 ++ t2)%list = (persisted t1 + persisted t2)%nat.
Proof. unfold persisted. now rewrite filter_app, length_app. Qed.

Lemma persisted_count (t : trace) : persisted t = count_events is_stored t.
Proof.
  unfold persisted, count_events.
  induction t as [|[b e] t IH]; simpl; [reflexivity|].
  destruct e; simpl; auto. destruct ok; simpl; auto.
Qed.

(** What [post_deal] does, whatever its collaborators do: it starts with
    the statistics lookup of the rendering, issues only events of its own,
    sends at most one message and calls [update_deal] exactly when the
    message was delivered; it answers true exactly when the deal was
    stored, logs one error exactly when it answers false, and lets out
    nothing of class [Exception]. *)
Lemma post_deal_facts (d : deal) (w : world E) r w2 t :
  post d w = (r, w2, t) ->
  opens_with_stats d (running w) t /\
  Forall (fun p => post_event (channel_id self) (snd p)) t /\
  (count_events is_send t <= 1)%nat /\
  count_events is_update t = count_events is_delivered t /\
  count_events is_stored t = match r with Ok true => 1 | _ => 0 end%nat /\
  count_events is_error_log t = match r with Ok false => 1 | _ => 0 end%nat /\
  match r with Raise e => is_exception e = false | Ok _ => True end.
Proof.
  unfold post_deal, _format_deal_message, opens_with_stats. unfold_effects.
  repeat break_match;
    repeat match goal with H : (_, _) = (_, _) |- _ => inversion H; clear H end;
    subst; intros H; inversion H; subst; try discriminate;
    (split; [now eexists _, _|]); (split; [repeat constructor|]);
    cbn; repeat split; auto; lia.
Qed.

Lemma post_deal_opens (d : deal) (w : world E) r w2 t :
  post d w = (r, w2, t) -> opens_with_stats d (running w) t.
Proof. intros H. apply (post_deal_facts _ _ H). Qed.

Lemma post_deal_post_events (d : deal) (w : world E) r w2 t :
  post d w = (r, w2, t) ->
  Forall (fun p => post_event (channel_id self) (snd p)) t.
Proof. intros H. apply (post_deal_facts _ _ H). Qed.

Lemma post_deal_passes (d : deal) (w : world E) e w2 t :
  post d w = (Raise e, w2, t) -> is_exception e = false.
Proof. intros H. apply (post_deal_facts _ _ H). Qed.

Lemma post_deal_persisted (d : deal) (w : world E) r w2 t :
  post d w = (r, w2, t) ->
  persisted t = match r with Ok true => 1 | _ => 0 end%nat.
Proof.
  intros H. rewrite persisted_count. apply (post_deal_facts _ _ H).
Qed.

Lemma post_events_posting (chat : yaml) (t : trace) :
  Forall (fun p => post_event chat (snd p)) t ->
  forallb posting_event t = true.
Proof.
  induction 1 as [|[b e] t He _ IH]; simpl; [reflexivity|].
  rewrite IH, andb_true_r. unfold posting_event.
  destruct e; simpl in *; try contradiction; reflexivity.
Qed.

Lemma post_deal_events (d : deal) (w : world E) r w2 t :
  post d w = (r, w2, t) ->
  forallb posting_event t = true /\
  (List.length (filter is_send (map snd t)) <= 1)%nat.
Proof.
  intros H. destruct (post_deal_facts _ _ H) as (_ & Hev & Hsend & _).
  split; [eapply post_events_posting; exact Hev | exact Hsend].
Qed.

(** *** One candidate *)

Lemma consider_duplicate (d : deal) n w w1 :
  is_duplicate_deal io (asin d) (sale_price d) w = (Ok true, w1) ->
  consider1 d n w =
    (Ok n, w1, [(running w, EIsDup (asin d) (sale_price d) (Ok true))]).
Proof.
  intros H. unfold consider. unfold bind at 1. unfold call.
  rewrite H. reflexivity.
Qed.

Lemma consider_check_raises (d : deal) n w e w1 :
  is_duplicate_deal io (asin d) (sale_price d) w = (Raise e, w1) ->
  consider1 d n w =
    (Raise e, w1, [(running w, EIsDup (asin d) (sale_price d) (Raise e))]).
Proof.
  intros H. unfold consider. unfold bind at 1. unfold call.
  rewrite H. reflexivity.
Qed.

(** The throttle pause, once [post_deal] has answered true. *)
Lemma throttle_cases n (w2 : world E) :
  (delay <- lift (lookup (config self) ["scraping"; "request_delay"; "min"]);;
   asyncio_sleep io Throttle delay;;;
   ret (S n)) w2 =
  match delay_seconds self with
  | Ok secs =>
      (with_value (interrupted (fst (sleep io secs w2))) (S n),
       snd (sleep io secs w2), [(running w2, ESleep Throttle secs)])
  | Raise e => (Raise e, w2, [])
  end.
Proof.
  unfold delay_seconds, bind_result. unfold bind at 1. unfold lift at 1.
  destruct (lookup (config self) ["scraping"; "request_delay"; "min"])
    as [v|e]; [|reflexivity].
  unfold bind at 1.
  destruct (as_seconds v) as [secs|e] eqn:Hs.
  - rewrite (asyncio_sleep_ok Throttle v w2 Hs).
    destruct (interrupted (fst (sleep io secs w2))) as [[]|e]; reflexivity.
  - now rewrite (asyncio_sleep_raise Throttle v w2 Hs).
Qed.

Lemma consider_fresh (d : deal) n w w1 rp w2 t2 :
  is_duplicate_deal io (asin d) (sale_price d) w = (Ok false, w1) ->
  post d w1 = (rp, w2, t2) ->
  consider1 d n w =
    prepend ((running w, EIsDup (asin d) (sale_price d) (Ok false)) :: t2)
      match rp with
      | Ok true =>
          match delay_seconds self with
          | Ok secs =>
              (with_value (interrupted (fst (sleep io secs w2))) (S n),
               snd (sleep io secs w2), [(running w2, ESleep Throttle secs)])
          | Raise e => (Raise e, w2, [])
          end
      | Ok false => (Ok n, w2, [])
      | Raise e => (Raise e, w2, [])
      end.
Proof.
  intros Hd Hp. unfold consider. unfold bind at 1. unfold call.
  rewrite Hd. cbn [negb]. unfold bind at 1. rewrite Hp.
  destruct rp as [[|]|e]; [|reflexivity|simpl; now rewrite app_nil_r].
  rewrite throttle_cases.
  destruct (delay_seconds self); reflexivity.
Qed.

(** What one candidate can come to. *)
Lemma consider_anatomy (d : deal) n (w : world E) :
  let chk r := (running w, EIsDup (asin d) (sale_price d) r) in
  exists r0 w1,
    is_duplicate_deal io (asin d) (sale_price d) w = (r0, w1) /\
    match r0 with
    | Raise e => consider1 d n w = (Raise e, w1, [chk (Raise e)])
    | Ok true => consider1 d n w = (Ok n, w1, [chk (Ok true)])
    | Ok false =>
        exists rp w2 t2,
          post d w1 = (rp, w2, t2) /\
          match rp with
          | Ok true =>
              match delay_seconds self with
              | Ok secs =>
                  consider1 d n w =
                    (with_value (interrupted (fst (sleep io secs w2))) (S n),
                     snd (sleep io secs w2),
                     (chk (Ok false) :: t2 ++
                      [(running w2, ESleep Throttle secs)])%list)
              | Raise e =>
                  consider1 d n w = (Raise e, w2, chk (Ok false) :: t2)
              end
          | Ok false => consider1 d n w = (Ok n, w2, chk (Ok false) :: t2)
          | Raise e => consider1 d n w = (Raise e, w2, chk (Ok false) :: t2)
          end
    end.
Proof.
  intros chk.
  destruct (is_duplicate_deal io (asin d) (sale_price d) w)
    as [[[|]|e] w1] eqn:Hd; eexists _, w1; (split; [reflexivity|]).
  - now apply consider_duplicate.
  - destruct (post d w1) as [[rp w2] t2] eqn:Hp.
    exists rp, w2, t2. split; [reflexivity|].
    rewrite (consider_fresh d n w Hd Hp).
    destruct rp as [[|]|e]; [destruct (delay_seconds self)|..];
      simpl; now rewrite ?app_nil_r.
  - now apply consider_check_raises.
Qed.

(** *** The batch *)

Lemma for_deals_stopped (d : deal) rest n (w : world E) :
  running w = false ->
  batch (d :: rest) n w = (Ok n, w, [(false, EPoll AtFor false)]).
Proof.
  intros H. simpl. unfold bind, poll. rewrite H. reflexivity.
Qed.

Lemma for_deals_running (d : deal) rest n (w : world E) :
  running w = true ->
  batch (d :: rest) n w =
    prepend [(true, EPoll AtFor true)]
      ((n' <- consider1 d n;; batch rest n') w).
Proof.
  intros H. simpl. unfold bind at 1. unfold poll. rewrite H. cbn [negb].
  unfold prepend. now destruct (bind _ _ w) as [[r w'] t].
Qed.

Lemma batch_step (d : deal) rest n (w : world E) r w' t :
  batch (d :: rest) n w = (r, w', t) ->
  (running w = false /\ r = Ok n /\ w' = w /\
   t = [(false, EPoll AtFor false)]) \/
  (running w = true /\
   exists e t1,
     consider1 d n w = (Raise e, w', t1) /\ r = Raise e /\
     t = (true, EPoll AtFor true) :: t1) \/
  (running w = true /\
   exists n1 w1 t1 t2,
     consider1 d n w = (Ok n1, w1, t1) /\
     batch rest n1 w1 = (r, w', t2) /\
     t = ((true, EPoll AtFor true) :: t1 ++ t2)%list).
Proof.
  destruct (running w) eqn:Hr.
  - rewrite (for_deals_running d rest n w Hr).
    destruct (consider1 d n w) as [[[n1|e] w1] t1] eqn:Hc.
    + rewrite (bind_ok _ _ _ Hc).
      destruct (batch rest n1 w1) as [[r2 w2] t2] eqn:Hb. simpl.
      intros [= <- <- <-]. right. right. split; [reflexivity|].
      now exists n1, w1, t1, t2.
    + rewrite (bind_raise _ _ _ Hc). simpl. intros [= <- <- <-].
      right. left. split; [reflexivity|]. now exists e, t1.
  - rewrite (for_deals_stopped d rest n w Hr).
    intros [= <- <- <-]. now left.
Qed.

(** *** The cycle *)

(** The inter-cycle sleep, once the flag has been found set. *)
Lemma interval_cases (w3 : world E) :
  (minutes <- lift (lookup (config self)
                      ["scraping"; "update_interval_minutes"]);;
   secs <- lift (times60 minutes);;
   asyncio_sleep io InterCycle secs) w3 =
  match interval_seconds self with
  | Ok secs =>
      (interrupted (fst (sleep io secs w3)), snd (sleep io secs w3),
       [(running w3, ESleep InterCycle secs)])
  | Raise e => (Raise e, w3, [])
  end.
Proof.
  unfold interval_seconds, bind_result. unfold bind at 1. unfold lift at 1.
  destruct (lookup (config self) ["scraping"; "update_interval_minutes"])
    as [minutes|e]; [|reflexivity].
  unfold bind at 1. unfold lift at 1.
  destruct (times60 minutes) as [v|e]; [|reflexivity].
  destruct (as_seconds v) as [secs|e] eqn:Hs.
  - now rewrite (asyncio_sleep_ok InterCycle v w3 Hs).
  - now rewrite (asyncio_sleep_raise InterCycle v w3 Hs).
Qed.

(** One cycle, with what the collaborators answered. *)
Lemma cycle_anatomy (w : world E) r w' t :
  one_cycle w = (r, w', t) ->
  (exists e,
     get_working_proxy io w = (Raise e, w') /\
     r = Raise e /\ t = [(running w, EProxy false)]) \/
  (exists e w1,
     get_working_proxy io w = (Ok tt, w1) /\
     get_deals io (config self) w1 = (Raise e, w') /\
     r = Raise e /\
     t = [(running w, EProxy true); (running w1, EDiscover false)]) \/
  (exists w1 w2 deals rb w3 tb,
     get_working_proxy io w = (Ok tt, w1) /\
     get_deals io (config self) w1 = (Ok deals, w2) /\
     batch deals 0 w2 = (rb, w3, tb) /\
     let pre := [(running w, EProxy true); (running w1, EDiscover true);
                 (running w2, ELog (InfoFound (List.length deals)))] in
     match rb with
     | Raise e => r = Raise e /\ w' = w3 /\ t = (pre ++ tb)%list
     | Ok posted =>
         let tail := [(running w3, ELog (InfoPosted posted));
                      (running w3, EPoll AtIf (running w3))] in
         if running w3 then
           match interval_seconds self with
           | Ok secs =>
               r = interrupted (fst (sleep io secs w3)) /\
               w' = snd (sleep io secs w3) /\
               t = (pre ++ tb ++ tail ++
                    [(true, ESleep InterCycle secs)])%list
           | Raise e => r = Raise e /\ w' = w3 /\ t = (pre ++ tb ++ tail)%list
           end
         else r = Ok tt /\ w' = w3 /\ t = (pre ++ tb ++ tail)%list
     end).
Proof.
  unfold cycle.
  unfold bind at 1. unfold call at 1.
  destruct (get_working_proxy io w) as [[[]|e] w1];
    [|intros [= <- <- <-]; left; exists e; repeat split].
  unfold bind at 1. unfold call at 1.
  destruct (get_deals io (config self) w1) as [[deals|e] w2] eqn:Hg;
    [|intros [= <- <- <-]; right; left; exists e, w1; repeat split;
      assumption].
  unfold bind at 1. unfold log at 1, emit.
  unfold bind at 1.
  destruct (batch deals 0 w2) as [[[posted|e] w3] tb] eqn:Hb;
    [|intros [= <- <- <-]; right; right;
      exists w1, w2, deals, (Raise e), w3, tb;
      (split; [reflexivity|]); (split; [exact Hg|]); (split; [exact Hb|]);
      cbv zeta; simpl; rewrite ?app_nil_r; repeat split].
  intros H. right. right. exists w1, w2, deals, (Ok posted), w3, tb.
  split; [reflexivity|]. split; [exact Hg|]. split; [exact Hb|]. cbv zeta.
  revert H. unfold bind at 1. unfold log, emit.
  unfold bind at 1. unfold poll.
  destruct (running w3) eqn:Hr3.
  - rewrite interval_cases.
    destruct (interval_seconds self) as [secs|e]; intros [= <- <- <-];
      simpl; rewrite ?app_nil_r, ?Hr3; repeat split.
  - unfold ret. intros [= <- <- <-]. simpl. rewrite ?Hr3. repeat split.
Qed.

(** The cycle under the handler of the loop. *)
Lemma guarded_cycle_cases (w : world E) :
  exists rc w1 t1,
    one_cycle w = (rc, w1, t1) /\
    match rc with
    | Ok _ => safe_cycle w = (Ok tt, w1, t1)
    | Raise e =>
        if is_exception e then
          safe_cycle w =
            (interrupted (fst (sleep io (SecInt 60) w1)),
             snd (sleep io (SecInt 60) w1), (t1 ++ cooldown e w1)%list)
        else safe_cycle w = (Raise e, w1, t1)
    end.
Proof.
  destruct (one_cycle w) as [[rc w1] t1] eqn:Hc; exists rc, w1, t1;
    (split; [reflexivity|]); destruct rc as [[]|e].
  - unfold guarded_cycle. now apply try_ok.
  - unfold guarded_cycle. destruct (is_exception e) eqn:He.
    + rewrite (try_caught _ _ _ Hc He).
      unfold bind at 1. unfold log, emit.
      rewrite (asyncio_sleep_ok Cooldown (YInt 60) w1 as_seconds_60).
      reflexivity.
    + now apply try_passed.
Qed.

(** *** The loop *)

Lemma run_loop_stopped fuel (w : world E) :
  running w = false ->
  loop fuel w = (Ok Stopped, w, [(false, EPoll AtWhile false)]).
Proof.
  intros H. destruct fuel; simpl; unfold bind, poll; rewrite H; reflexivity.
Qed.

Lemma run_loop_out_of_fuel (w : world E) :
  running w = true ->
  loop 0 w = (Ok StillCycling, w, [(true, EPoll AtWhile true)]).
Proof. intros H. simpl. unfold bind, poll. rewrite H. reflexivity. Qed.

Lemma run_loop_running fuel (w : world E) :
  running w = true ->
  loop (S fuel) w =
    prepend [(true, EPoll AtWhile true)]
      match safe_cycle w with
      | (Ok _, w1, t1) => prepend t1 (loop fuel w1)
      | (Raise e, w1, t1) => (Raise e, w1, t1)
      end.
Proof.
  intros H. cbn [run_loop]. unfold bind at 1. unfold poll. rewrite H.
  unfold bind at 1.
  destruct (safe_cycle w) as [[[[]|e] w1] t1]; [|reflexivity].
  unfold prepend. destruct (loop fuel w1) as [[r w'] t]. reflexivity.
Qed.

Lemma run_loop_step fuel (w : world E) r w' t :
  loop fuel w = (r, w', t) ->
  (running w = false /\ r = Ok Stopped /\ w' = w /\
   t = [(false, EPoll AtWhile false)]) \/
  (running w = true /\ fuel = 0%nat /\ r = Ok StillCycling /\ w' = w /\
   t = [(true, EPoll AtWhile true)]) \/
  (running w = true /\
   exists fuel' rc w1 t1,
     fuel = S fuel' /\ safe_cycle w = (rc, w1, t1) /\
     match rc with
     | Ok _ =>
         exists t2,
           loop fuel' w1 = (r, w', t2) /\
           t = ((true, EPoll AtWhile true) :: t1 ++ t2)%list
     | Raise e =>
         r = Raise e /\ w' = w1 /\ t = (true, EPoll AtWhile true) :: t1
     end).
Proof.
  destruct (running w) eqn:Hr.
  - destruct fuel as [|fuel'].
    + rewrite (run_loop_out_of_fuel w Hr). intros [= <- <- <-].
      right. left. repeat split.
    + rewrite (run_loop_running fuel' w Hr).
      destruct (safe_cycle w) as [[[[]|e] w1] t1] eqn:Hc.
      * destruct (loop fuel' w1) as [[r2 w2] t2] eqn:Hl. simpl.
        intros [= <- <- <-]. right. right. split; [reflexivity|].
        exists fuel', (Ok tt), w1, t1. repeat split. now exists t2.
      * simpl. intros [= <- <- <-]. right. right. split; [reflexivity|].
        exists fuel', (Raise e), w1, t1. repeat split.
  - rewrite (run_loop_stopped fuel w Hr). intros [= <- <- <-]. now left.
Qed.

End Anatomy.

(** ** What holds of every trace of the loop *)

(** A property of traces that holds of the empty trace, is kept by
    concatenation, holds of every single event issued outside [post_deal]
    and of every trace of [post_deal] holds of every trace of the loop. *)
Section TraceInduction.

Variable E : Type.
Variable io : collaborators E.
Variable repr_other : yaml -> string.
Variable self : bot.

Local Abbreviation post := (post_deal io repr_other self).
Local Abbreviation consider1 := (consider io repr_other self).
Local Abbreviation batch := (for_deals io repr_other self).
Local Abbreviation one_cycle := (cycle io repr_other self).
Local Abbreviation safe_cycle := (guarded_cycle io repr_other self).
Local Abbreviation loop := (run_loop io repr_other self).

Variable Q : trace -> Prop.
Hypothesis Q_nil : Q [].
Hypothesis Q_app : forall t1 t2, Q t1 -> Q t2 -> Q (t1 ++ t2)%list.
Hypothesis Q_event : forall b e, loop_event self e -> Q [(b, e)].
Hypothesis Q_post : forall d (w : world E) r w2 t,
  post d w = (r, w2, t) -> Q t.

Lemma Q_cons b e (t : trace) : loop_event self e -> Q t -> Q ((b, e) :: t).
Proof.
  intros He Ht. change ((b, e) :: t) with ([(b, e)] ++ t)%list.
  apply Q_app; auto.
Qed.

Lemma consider_trace (d : deal) n (w : world E) r w' t :
  consider1 d n w = (r, w', t) -> Q t.
Proof.
  intros H.
  destruct (consider_anatomy io repr_other self d n w)
    as (r0 & w1 & _ & Hcase). cbv zeta in Hcase.
  destruct r0 as [[|]|e].
  - rewrite Hcase in H. injection H as <- <- <-. now apply Q_event.
  - destruct Hcase as (rp & w2 & t2 & Hp & Hcase). apply Q_post in Hp.
    destruct rp as [[|]|e];
      [destruct (delay_seconds self) as [secs|e] eqn:Hs|..];
      rewrite Hcase in H; injection H as <- <- <-;
      (apply Q_cons; [exact I|]); auto.
  - rewrite Hcase in H. injection H as <- <- <-. now apply Q_event.
Qed.

Lemma batch_trace (deals : list deal) :
  forall n (w : world E) r w' t, batch deals n w = (r, w', t) -> Q t.
Proof.
  induction deals as [|d rest IH]; intros n w r w' t H.
  - injection H as <- <- <-. exact Q_nil.
  - apply batch_step in H
      as [(_ & _ & _ & ->)|[(Hr & e & t1 & Hc & _ & ->)
                           |(Hr & n1 & w1 & t1 & t2 & Hc & Hb & ->)]].
    + now apply Q_event.
    + apply Q_cons; [exact I|]. exact (consider_trace _ _ _ Hc).
    + apply Q_cons; [exact I|].
      apply Q_app; [exact (consider_trace _ _ _ Hc) | exact (IH _ _ _ _ _ Hb)].
Qed.

Lemma cycle_trace (w : world E) r w' t : one_cycle w = (r, w', t) -> Q t.
Proof.
  intros H.
  apply cycle_anatomy in H
    as [(e & _ & _ & ->)|[(e & w1 & _ & _ & _ & ->)
        |(w1 & w2 & deals & rb & w3 & tb & _ & _ & Hb & Hcase)]].
  - now apply Q_event.
  - apply Q_cons; [exact I|]. now apply Q_event.
  - apply batch_trace in Hb. cbv zeta in Hcase.
    assert (Hpre : forall t',
      Q t' ->
      Q ([(running w, EProxy true); (running w1, EDiscover true);
          (running w2, ELog (InfoFound (List.length deals)))] ++ t')%list).
    { intros t' Ht'. simpl. repeat (apply Q_cons; [exact I|]). exact Ht'. }
    destruct rb as [posted|e].
    + assert (Htail :
        Q [(running w3, ELog (InfoPosted posted));
           (running w3, EPoll AtIf (running w3))]).
      { apply Q_cons; [exact I|]. now apply Q_event. }
      destruct (running w3);
        [destruct (interval_seconds self) as [secs|e] eqn:Hs|];
        destruct Hcase as (_ & _ & ->);
        apply Hpre; apply Q_app; auto.
    + destruct Hcase as (_ & _ & ->). now apply Hpre.
Qed.

Lemma guarded_cycle_trace (w : world E) r w' t :
  safe_cycle w = (r, w', t) -> Q t.
Proof.
  destruct (guarded_cycle_cases io repr_other self w)
    as (rc & w1 & t1 & Hc & Hcase).
  apply cycle_trace in Hc.
  destruct rc as [[]|e]; [|destruct (is_exception e)];
    rewrite Hcase; intros [= <- <- <-]; auto.
  apply Q_app; [exact Hc|].
  unfold cooldown. apply Q_cons; [exact I|]. now apply Q_event.
Qed.

Lemma loop_trace fuel :
  forall (w : world E) r w' t, loop fuel w = (r, w', t) -> Q t.
Proof.
  induction fuel as [|fuel IH]; intros w r w' t H;
    apply run_loop_step in H
      as [(_ & _ & _ & ->)|[(_ & _ & _ & _ & ->)
          |(_ & fuel' & rc & w1 & t1 & Hf & Hc & Hcase)]];
    try (now apply Q_event); try discriminate.
  injection Hf as <-. apply guarded_cycle_trace in Hc.
  destruct rc as [[]|e].
  - destruct Hcase as (t2 & Hl & ->).
    apply Q_cons; [exact I|]. apply Q_app; [exact Hc | exact (IH _ _ _ _ Hl)].
  - destruct Hcase as (_ & _ & ->). now apply Q_cons.
Qed.

End TraceInduction.

(** ** The run flag along a run *)

Section FlagReads.

Variable E : Type.
Variable io : collaborators E.
Variable repr_other : yaml -> string.
Variable self : bot.

Local Abbreviation post := (post_deal io repr_other self).
Local Abbreviation consider1 := (consider io repr_other self).
Local Abbreviation batch := (for_deals io repr_other self).
Local Abbreviation one_cycle := (cycle io repr_other self).
Local Abbreviation safe_cycle := (guarded_cycle io repr_other self).
Local Abbreviation loop := (run_loop io repr_other self).

Lemma forallb_weaken {A} (f g : A -> bool) (l : list A) :
  (forall x, f x = true -> g x = true) ->
  forallb f l = true -> forallb g l = true.
Proof.
  intros Hfg. rewrite !forallb_forall. auto.
Qed.

(** The trace of one candidate: the check, the events of [post_deal], and
    at most the throttle pause at the end; no pause when an exception of
    class [Exception] comes out. *)
Lemma consider_shape (d : deal) n (w : world E) r w' t :
  consider1 d n w = (r, w', t) ->
  exists c t2 tail,
    t = ((running w, EIsDup (asin d) (sale_price d) c) :: t2 ++ tail)%list /\
    forallb posting_event t2 = true /\
    (List.length (filter is_send (map snd t2)) <= 1)%nat /\
    (tail = [] \/ exists b secs, tail = [(b, ESleep Throttle secs)]) /\
    (forall e, r = Raise e -> is_exception e = true -> tail = []).
Proof.
  intros H.
  destruct (consider_anatomy io repr_other self d n w)
    as (r0 & w1 & _ & Hcase). cbv zeta in Hcase.
  destruct r0 as [[|]|e].
  - rewrite Hcase in H. injection H as <- <- <-.
    exists (Ok true), [], []. repeat split; auto.
  - destruct Hcase as (rp & w2 & t2 & Hp & Hcase).
    apply post_deal_events in Hp as [Hp Hsend].
    destruct rp as [[|]|e];
      [destruct (delay_seconds self) as [secs|e] eqn:Hs|..];
      rewrite Hcase in H; injection H as <- <- <-.
    + exists (Ok false), t2, [(running w2, ESleep Throttle secs)].
      repeat split; auto; [right; now eexists _, _|].
      intros e He Hexc.
      destruct (interrupted (fst (sleep io secs w2))) as [[]|e'] eqn:Hi;
        [discriminate|].
      injection He as ->. apply interrupted_passes in Hi. congruence.
    + exists (Ok false), t2, []. rewrite app_nil_r. repeat split; auto.
    + exists (Ok false), t2, []. rewrite app_nil_r. repeat split; auto.
    + exists (Ok false), t2, []. rewrite app_nil_r. repeat split; auto.
  - rewrite Hcase in H. injection H as <- <- <-.
    exists (Raise e), [], []. repeat split; auto.
Qed.

(** *** Tidy computations *)

Lemma late_app (t1 t2 : trace) : late (t1 ++ t2)%list = (late t1 ++ late t2)%list.
Proof. unfold late. now rewrite filter_app, map_app. Qed.

Lemma late_single (b : bool) (e : event) :
  late [(b, e)] = if b then [] else [e].
Proof. now destruct b. Qed.

Lemma tidy_ret {A} (a : A) : tidy (@ret E A a).
Proof. intros w r w' t [= <- <- <-]. auto. Qed.

Lemma tidy_lift {A} (x : result A) : tidy (@lift E A x).
Proof. intros w r w' t [= <- <- <-]. auto. Qed.

Lemma tidy_log (l : log_record) : tidy (@log E l).
Proof.
  intros w r w' t [= <- <- <-]. split; [auto|].
  intros H. now rewrite late_single, H.
Qed.

Lemma tidy_poll (site : poll_site) : tidy (@poll E site).
Proof.
  intros w r w' t [= <- <- <-]. split; [auto|].
  intros H. now rewrite late_single, H.
Qed.

Lemma tidy_clock : tidy (clock io).
Proof.
  intros w r w' t [= <- <- <-]. split; [auto|].
  intros H. now rewrite late_single, H.
Qed.

Lemma tidy_call {A} (op : world E -> result A * world E) ev :
  (forall w, running w = false -> running (snd (op w)) = false) ->
  tidy (call op ev).
Proof.
  intros Hop w r w' t. unfold call. specialize (Hop w).
  destruct (op w) as [r0 w0]. intros [= <- <- <-]. simpl in Hop.
  split; [exact Hop|]. intros H. rewrite late_single.
  destruct (running w); [reflexivity|]. rewrite Hop in H; [discriminate|reflexivity].
Qed.

Lemma tidy_bind {A B} (m : M E A) (k : A -> M E B) :
  tidy m -> (forall a, tidy (k a)) -> tidy (bind m k).
Proof.
  intros Hm Hk w r w' t. unfold bind.
  destruct (m w) as [[[a|e] w1] t1] eqn:Hmw.
  - destruct (k a w1) as [[r2 w2] t2] eqn:Hkw. intros [= <- <- <-].
    destruct (Hm _ _ _ _ Hmw) as [Hm1 Hm2].
    destruct (Hk a _ _ _ _ Hkw) as [Hk1 Hk2].
    split; [auto|]. intros H. rewrite late_app, (Hk2 H).
    destruct (running w1) eqn:Hr1; [now rewrite Hm2|].
    rewrite Hk1 in H; [discriminate|reflexivity].
  - intros [= <- <- <-]. exact (Hm _ _ _ _ Hmw).
Qed.

Lemma tidy_try {A} (m : M E A) (h : exn -> M E A) :
  tidy m -> (forall e, tidy (h e)) -> tidy (try_except m h).
Proof.
  intros Hm Hh w r w' t. unfold try_except.
  destruct (m w) as [[[a|e] w1] t1] eqn:Hmw.
  - intros [= <- <- <-]. exact (Hm _ _ _ _ Hmw).
  - destruct (is_exception e);
      [|intros [= <- <- <-]; exact (Hm _ _ _ _ Hmw)].
    destruct (h e w1) as [[r2 w2] t2] eqn:Hhw. intros [= <- <- <-].
    destruct (Hm _ _ _ _ Hmw) as [Hm1 Hm2].
    destruct (Hh e _ _ _ _ Hhw) as [Hh1 Hh2].
    split; [auto|]. intros H. rewrite late_app, (Hh2 H).
    destruct (running w1) eqn:Hr1; [now rewrite Hm2|].
    rewrite Hh1 in H; [discriminate|reflexivity].
Qed.

(** *** The three reads of the flag *)

Lemma posting_issued (t : trace) :
  forallb posting_event t = true -> forallb issued_running t = true.
Proof.
  apply forallb_weaken. intros [b e]. unfold posting_event, issued_running.
  destruct e; simpl; congruence.
Qed.

Lemma consider_gated (d : deal) n (w : world E) r w' t :
  running w = true ->
  consider1 d n w = (r, w', t) -> forallb issued_running t = true.
Proof.
  intros Hr H.
  apply consider_shape in H
    as (c & t2 & tail & -> & Hp & _ & [->|(b & secs & ->)] & _);
    apply posting_issued in Hp; rewrite Hr; simpl;
    rewrite forallb_app, Hp; reflexivity.
Qed.

Lemma batch_gated (deals : list deal) :
  forall n (w : world E) r w' t,
    batch deals n w = (r, w', t) -> forallb issued_running t = true.
Proof.
  induction deals as [|d rest IH]; intros n w r w' t H.
  - injection H as <- <- <-. reflexivity.
  - apply batch_step in H
      as [(_ & _ & _ & ->)|[(Hr & e & t1 & Hc & _ & ->)
                           |(Hr & n1 & w1 & t1 & t2 & Hc & Hb & ->)]].
    + reflexivity.
    + simpl. exact (consider_gated _ _ _ Hr Hc).
    + simpl. rewrite forallb_app, (consider_gated _ _ _ Hr Hc).
      exact (IH _ _ _ _ _ Hb).
Qed.

(** The four ways through a cycle that has its batch. *)
Ltac cycle_ways rb w3 Hcase :=
  let posted := fresh "posted" in
  let e := fresh "e" in
  let secs := fresh "secs" in
  let Hr3 := fresh "Hr3" in
  let Hs := fresh "Hs" in
  cbv zeta in Hcase;
  destruct rb as [posted|e];
    [destruct (running w3) eqn:Hr3;
       [destruct (interval_seconds self) as [secs|e] eqn:Hs|]|];
    destruct Hcase as (? & ? & ->).

Lemma cycle_gated (w : world E) r w' t :
  running w = true ->
  one_cycle w = (r, w', t) -> forallb issued_running t = true.
Proof.
  intros Hr H.
  apply cycle_anatomy in H
    as [(e & _ & _ & ->)|[(e & w1 & _ & _ & _ & ->)
        |(w1 & w2 & deals & rb & w3 & tb & _ & _ & Hb & Hcase)]];
    rewrite ?Hr; try reflexivity.
  apply batch_gated in Hb.
  cycle_ways rb w3 Hcase; simpl; rewrite ?Hr, ?forallb_app, Hb; reflexivity.
Qed.

Lemma guarded_cycle_gated (w : world E) r w' t :
  running w = true ->
  safe_cycle w = (r, w', t) -> forallb issued_running t = true.
Proof.
  intros Hr.
  destruct (guarded_cycle_cases io repr_other self w)
    as (rc & w1 & t1 & Hc & Hcase).
  apply (cycle_gated _ Hr) in Hc.
  destruct rc as [[]|e]; [|destruct (is_exception e)];
    rewrite Hcase; intros [= <- <- <-]; auto.
  rewrite forallb_app, Hc. reflexivity.
Qed.

Lemma loop_gated fuel :
  forall (w : world E) r w' t,
    loop fuel w = (r, w', t) -> forallb issued_running t = true.
Proof.
  induction fuel as [|fuel IH]; intros w r w' t H;
    apply run_loop_step in H
      as [(_ & _ & _ & ->)|[(_ & _ & _ & _ & ->)
          |(Hr & fuel' & rc & w1 & t1 & Hf & Hc & Hcase)]];
    try reflexivity; try discriminate.
  injection Hf as <-. apply (guarded_cycle_gated _ Hr) in Hc.
  destruct rc as [[]|e].
  - destruct Hcase as (t2 & Hl & ->). simpl.
    rewrite forallb_app, Hc. exact (IH _ _ _ _ Hl).
  - destruct Hcase as (_ & _ & ->). exact Hc.
Qed.

(** *** Each gated operation follows a read of the flag *)

Lemma reads_before_weaken b (t : trace) :
  reads_before false t = true -> reads_before b t = true.
Proof.
  destruct t as [|p t]; simpl; [reflexivity|].
  destruct (gated (snd p)); simpl; [discriminate|]. now destruct b.
Qed.

Lemma reads_before_app b (t1 t2 : trace) :
  reads_before b t1 = true -> reads_before false t2 = true ->
  reads_before b (t1 ++ t2)%list = true.
Proof.
  revert b. induction t1 as [|p t1 IH]; intros b H1 H2; simpl.
  - now apply reads_before_weaken.
  - simpl in H1. apply andb_true_iff in H1 as [-> H1]. simpl. now apply IH.
Qed.

Lemma ungated_reads b (t : trace) :
  forallb (fun p => negb (gated (snd p))) t = true -> reads_before b t = true.
Proof.
  revert b. induction t as [|p t IH]; intros b; simpl; [reflexivity|].
  rewrite andb_true_iff, negb_true_iff. intros [-> H]. simpl. now apply IH.
Qed.

Lemma posting_reads b (t : trace) :
  forallb posting_event t = true -> reads_before b t = true.
Proof.
  intros H. apply ungated_reads. revert H. apply forallb_weaken.
  intros [c e]. unfold posting_event. destruct e; simpl; congruence.
Qed.

Lemma consider_reads (d : deal) n (w : world E) r w' t :
  consider1 d n w = (r, w', t) -> reads_before true t = true.
Proof.
  intros H.
  apply consider_shape in H
    as (c & t2 & tail & -> & Hp & _ & [->|(b & secs & ->)] & _);
    simpl; apply reads_before_app; try reflexivity;
    now apply posting_reads.
Qed.

Lemma batch_reads (deals : list deal) :
  forall n (w : world E) r w' t,
    batch deals n w = (r, w', t) -> reads_before false t = true.
Proof.
  induction deals as [|d rest IH]; intros n w r w' t H.
  - injection H as <- <- <-. reflexivity.
  - apply batch_step in H
      as [(_ & _ & _ & ->)|[(Hr & e & t1 & Hc & _ & ->)
                           |(Hr & n1 & w1 & t1 & t2 & Hc & Hb & ->)]].
    + reflexivity.
    + simpl. exact (consider_reads _ _ _ Hc).
    + simpl. apply reads_before_app;
        [exact (consider_reads _ _ _ Hc) | exact (IH _ _ _ _ _ Hb)].
Qed.

Lemma cycle_reads (w : world E) r w' t :
  one_cycle w = (r, w', t) -> reads_before true t = true.
Proof.
  intros H.
  apply cycle_anatomy in H
    as [(e & _ & _ & ->)|[(e & w1 & _ & _ & _ & ->)
        |(w1 & w2 & deals & rb & w3 & tb & _ & _ & Hb & Hcase)]];
    try reflexivity.
  apply batch_reads in Hb.
  cycle_ways rb w3 Hcase;
    apply (reads_before_app _ [_; _; _]); try reflexivity;
    try assumption; now apply reads_before_app.
Qed.

Lemma guarded_cycle_reads (w : world E) r w' t :
  safe_cycle w = (r, w', t) -> reads_before true t = true.
Proof.
  destruct (guarded_cycle_cases io repr_other self w)
    as (rc & w1 & t1 & Hc & Hcase).
  apply cycle_reads in Hc.
  destruct rc as [[]|e]; [|destruct (is_exception e)];
    rewrite Hcase; intros [= <- <- <-]; auto.
  now apply reads_before_app.
Qed.

Lemma loop_reads fuel :
  forall (w : world E) r w' t,
    loop fuel w = (r, w', t) -> reads_before false t = true.
Proof.
  induction fuel as [|fuel IH]; intros w r w' t H;
    apply run_loop_step in H
      as [(_ & _ & _ & ->)|[(_ & _ & _ & _ & ->)
          |(Hr & fuel' & rc & w1 & t1 & Hf & Hc & Hcase)]];
    try reflexivity; try discriminate.
  injection Hf as <-. apply guarded_cycle_reads in Hc.
  destruct rc as [[]|e].
  - destruct Hcase as (t2 & Hl & ->). simpl.
    apply reads_before_app; [exact Hc | exact (IH _ _ _ _ Hl)].
  - destruct Hcase as (_ & _ & ->). exact Hc.
Qed.

(** *** Winding down *)

Lemma clean_app (t1 t2 : trace) :
  clean (t1 ++ t2)%list <-> clean t1 /\ clean t2.
Proof. unfold clean. rewrite forallb_app. apply andb_true_iff. Qed.

Lemma clean_cons (p : bool * event) (t : trace) :
  is_false_poll p = false -> clean t -> clean (p :: t).
Proof. unfold clean. simpl. now intros -> ->. Qed.

Lemma clean_no_false_poll (t : trace) :
  clean t -> existsb is_false_poll t = false.
Proof.
  unfold clean. induction t as [|p t IH]; simpl; [reflexivity|].
  rewrite andb_true_iff, negb_true_iff. intros [-> H]. now apply IH.
Qed.

Lemma clean_winds_down (t : trace) : clean t -> winds_down t = true.
Proof.
  unfold clean. induction t as [|p t IH]; simpl; [reflexivity|].
  rewrite andb_true_iff, negb_true_iff. intros [-> H]. now apply IH.
Qed.

Lemma wound_winds_down (t : trace) : wound_down t -> winds_down t = true.
Proof.
  intros (t0 & p & tq & -> & Hc & Hp & Hq).
  induction t0 as [|x t0 IH]; simpl.
  - now rewrite Hp.
  - unfold clean in Hc. simpl in Hc.
    apply andb_true_iff in Hc as [Hx Hc]. apply negb_true_iff in Hx.
    rewrite Hx. now apply IH.
Qed.

Lemma wound_has_false_poll (t : trace) :
  wound_down t -> existsb is_false_poll t = true.
Proof.
  intros (t0 & p & tq & -> & _ & Hp & _).
  rewrite existsb_app. simpl. rewrite Hp. apply orb_true_r.
Qed.

Lemma wound_prefix (t1 t2 : trace) :
  clean t1 -> wound_down t2 -> wound_down (t1 ++ t2)%list.
Proof.
  intros H1 (t0 & p & tq & -> & Hc & Hp & Hq).
  exists (t1 ++ t0)%list, p, tq. rewrite app_assoc.
  repeat split; auto. now apply clean_app.
Qed.

Lemma wound_suffix (t1 t2 : trace) :
  wound_down t1 -> forallb quiet t2 = true -> wound_down (t1 ++ t2)%list.
Proof.
  intros (t0 & p & tq & -> & Hc & Hp & Hq) H2.
  exists t0, p, (tq ++ t2)%list. rewrite <- app_assoc.
  repeat split; auto. now rewrite forallb_app, Hq, H2.
Qed.

Lemma wound_single (t0 : trace) (p : bool * event) :
  clean t0 -> is_false_poll p = true -> wound_down (t0 ++ [p])%list.
Proof. intros Hc Hp. now exists t0, p, []. Qed.

Lemma posting_clean (t : trace) : forallb posting_event t = true -> clean t.
Proof.
  apply forallb_weaken. intros [b e]. unfold posting_event, is_false_poll.
  destruct e; simpl; congruence.
Qed.

Lemma consider_clean (d : deal) n (w : world E) r w' t :
  consider1 d n w = (r, w', t) -> clean t.
Proof.
  intros H.
  apply consider_shape in H
    as (c & t2 & tail & -> & Hp & _ & [->|(b & secs & ->)] & _);
    apply posting_clean in Hp;
    (apply clean_cons; [reflexivity|]); apply clean_app; now split.
Qed.

(** A trace that is either clean, or wound down with the flag cleared at
    the end and no exception. *)
Lemma batch_winds (deals : list deal) :
  forall n (w : world E) r w' t,
    batch deals n w = (r, w', t) ->
    clean t \/ (wound_down t /\ running w' = false /\ succeeded r = true).
Proof.
  induction deals as [|d rest IH]; intros n w r w' t H.
  - injection H as <- <- <-. now left.
  - apply batch_step in H
      as [(Hr & -> & -> & ->)|[(Hr & e & t1 & Hc & _ & ->)
                              |(Hr & n1 & w1 & t1 & t2 & Hc & Hb & ->)]].
    + right. split; [|auto]. now apply (wound_single (t0 := [])).
    + left. apply clean_cons; [reflexivity|].
      exact (consider_clean _ _ _ Hc).
    + assert (H1 : clean ((true, EPoll AtFor true) :: t1)).
      { apply clean_cons; [reflexivity|].
        exact (consider_clean _ _ _ Hc). }
      destruct (IH _ _ _ _ _ Hb) as [H2|(H2 & Hw & Hs)].
      * left. now apply (clean_app (_ :: t1) t2).
      * right. split; [|auto]. now apply (wound_prefix (t1 := _ :: t1)).
Qed.

Lemma cycle_winds (w : world E) r w' t :
  one_cycle w = (r, w', t) ->
  clean t \/ (wound_down t /\ running w' = false /\ succeeded r = true).
Proof.
  intros H.
  apply cycle_anatomy in H
    as [(e & _ & _ & ->)|[(e & w1 & _ & _ & _ & ->)
        |(w1 & w2 & deals & rb & w3 & tb & _ & _ & Hb & Hcase)]];
    try (now left).
  apply batch_winds in Hb.
  set (pre := [(running w, EProxy true); (running w1, EDiscover true);
               (running w2, ELog (InfoFound (List.length deals)))]) in *.
  assert (Hpre : clean pre) by reflexivity.
  cycle_ways rb w3 Hcase.
  - left. destruct Hb as [Hb|(_ & Hw & _)]; [|congruence].
    apply clean_app. split; [exact Hpre|].
    apply clean_app. now split.
  - left. destruct Hb as [Hb|(_ & Hw & _)]; [|congruence].
    apply clean_app. split; [exact Hpre|].
    apply clean_app. now split.
  - right. subst r w'. split; [|auto].
    destruct Hb as [Hb|(Hb & _)].
    + exists (pre ++ tb ++ [(false, ELog (InfoPosted posted))])%list,
        (false, EPoll AtIf false), [].
      repeat split.
      * now rewrite <- !app_assoc.
      * apply clean_app. split; [exact Hpre|].
        apply clean_app. now split.
    + apply wound_prefix; [exact Hpre|].
      now apply wound_suffix.
  - destruct Hb as [Hb|(_ & _ & Hs)]; [|discriminate].
    left. now apply clean_app.
Qed.

Lemma guarded_cycle_winds (w : world E) r w' t :
  safe_cycle w = (r, w', t) ->
  clean t \/ (wound_down t /\ running w' = false /\ succeeded r = true).
Proof.
  destruct (guarded_cycle_cases io repr_other self w)
    as (rc & w1 & t1 & Hc & Hcase).
  apply cycle_winds in Hc.
  destruct rc as [[]|e]; [|destruct (is_exception e)];
    rewrite Hcase; intros [= <- <- <-]; auto.
  destruct Hc as [H|(_ & _ & Hs)]; [|discriminate].
  left. apply clean_app. now split.
Qed.

Lemma loop_winds fuel :
  forall (w : world E) r w' t,
    loop fuel w = (r, w', t) ->
    clean t \/ (wound_down t /\ r = Ok Stopped).
Proof.
  induction fuel as [|fuel IH]; intros w r w' t H;
    apply run_loop_step in H
      as [(_ & -> & _ & ->)|[(_ & _ & _ & _ & ->)
          |(Hr & fuel' & rc & w1 & t1 & Hf & Hc & Hcase)]];
    try (now left); try discriminate;
    try (right; split; [|reflexivity]; now apply (wound_single (t0 := []))).
  injection Hf as <-.
  assert (H1 : clean [(true, EPoll AtWhile true)]) by reflexivity.
  destruct (guarded_cycle_winds _ Hc) as [Ht1|(Ht1 & Hw1 & Hs)].
  - destruct rc as [[]|e].
    + destruct Hcase as (t2 & Hl & ->).
      destruct (IH _ _ _ _ Hl) as [H2|(H2 & ->)].
      * left. apply (clean_app (_ :: t1) t2). split; [|exact H2].
        now apply clean_cons.
      * right. split; [|reflexivity].
        apply (wound_prefix (t1 := _ :: t1)); [|exact H2].
        now apply clean_cons.
    + destruct Hcase as (_ & _ & ->). left. now apply clean_cons.
  - destruct rc as [[]|e]; [|discriminate].
    destruct Hcase as (t2 & Hl & ->).
    rewrite (run_loop_stopped io repr_other self fuel w1 Hw1) in Hl.
    injection Hl as <- <- <-. right. split; [|reflexivity].
    apply (wound_prefix (t1 := [_])); [exact H1|].
    now apply wound_suffix.
Qed.

(** *** What is still started after the flag was cleared *)

Lemma late_count_app f (t1 t2 : trace) :
  late_count f (t1 ++ t2)%list = (late_count f t1 + late_count f t2)%nat.
Proof. unfold late_count. now rewrite late_app, filter_app, length_app. Qed.

Lemma late_count_le f (t : trace) :
  (late_count f t <= List.length (filter f (map snd t)))%nat.
Proof.
  unfold late_count, late. induction t as [|[b e] t IH]; simpl; [lia|].
  destruct b; simpl; destruct (f e); simpl; lia.
Qed.

Lemma late_count_none f (t : trace) :
  forallb (fun p => negb (f (snd p))) t = true -> late_count f t = 0%nat.
Proof.
  unfold late_count, late. induction t as [|[b e] t IH]; simpl; [reflexivity|].
  rewrite andb_true_iff, negb_true_iff. intros [Hf Ht].
  destruct b; simpl; rewrite ?Hf; auto.
Qed.

Lemma late_count_nil f (t : trace) : late t = [] -> late_count f t = 0%nat.
Proof. unfold late_count. now intros ->. Qed.

Lemma posting_no_sleep (t : trace) :
  forallb posting_event t = true -> filter is_sleep (map snd t) = [].
Proof.
  induction t as [|[b e] t IH]; simpl; [reflexivity|].
  rewrite andb_true_iff. intros [He Ht].
  destruct e; try discriminate; simpl; auto.
Qed.

Lemma consider_totals (d : deal) n (w : world E) r w' t :
  consider1 d n w = (r, w', t) ->
  (List.length (filter is_sleep (map snd t)) <= 1)%nat /\
  (forall e, r = Raise e -> is_exception e = true ->
     filter is_sleep (map snd t) = []) /\
  (List.length (filter is_send (map snd t)) <= 1)%nat.
Proof.
  intros H.
  apply consider_shape in H
    as (c & t2 & tail & -> & Hp & Hsend & Htail & Hexc).
  apply posting_no_sleep in Hp.
  split; [|split].
  - destruct Htail as [->|(b & secs & ->)]; simpl;
      rewrite map_app, filter_app, Hp; simpl; lia.
  - intros e He Hx. rewrite (Hexc e He Hx). simpl.
    now rewrite map_app, filter_app, Hp.
  - destruct Htail as [->|(b & secs & ->)]; simpl;
      rewrite map_app, filter_app, length_app; simpl; lia.
Qed.

Lemma batch_from_stopped (deals : list deal) n (w : world E) :
  running w = false ->
  exists t, batch deals n w = (Ok n, w, t) /\ forallb quiet t = true.
Proof.
  intros Hr. destruct deals as [|d rest].
  - now exists [].
  - rewrite (for_deals_stopped io repr_other self d rest n w Hr).
    now eexists.
Qed.

Lemma quiet_late_count f (t : trace) :
  (forall s b, f (EPoll s b) = false) -> (forall l, f (ELog l) = false) ->
  forallb quiet t = true -> late_count f t = 0%nat.
Proof.
  intros Hpoll Hlog Hq. apply late_count_none.
  revert Hq. apply forallb_weaken. intros [b e]. unfold quiet.
  destruct e; simpl; try discriminate; now rewrite ?Hpoll, ?Hlog.
Qed.

Section StopIsFinal.

Hypothesis Hfinal : stop_is_final io.

Lemma tidy_sleep (k : pause) (v : yaml) : tidy (asyncio_sleep io k v).
Proof.
  unfold asyncio_sleep. apply tidy_bind; [apply tidy_lift|].
  intros d w r w' t [= <- <- <-].
  assert (Hs : running w = false -> running (snd (sleep io d w)) = false).
  { intros H. apply (Hfinal w H). }
  split; [exact Hs|]. intros H. rewrite late_single.
  destruct (running w); [reflexivity|]. rewrite Hs in H; [discriminate|reflexivity].
Qed.

Ltac tidy_step :=
  first
    [ apply tidy_ret | apply tidy_lift | apply tidy_log | apply tidy_poll
    | apply tidy_clock | apply tidy_sleep
    | apply tidy_call; intros ? ?; apply Hfinal; assumption
    | apply tidy_bind | apply tidy_try
    | match goal with
      | |- tidy (if ?b then _ else _) => destruct b
      | |- forall _, _ => intros
      end ].

Lemma tidy_post (d : deal) : tidy (post d).
Proof.
  unfold post_deal, _format_deal_message. repeat tidy_step.
Qed.

Lemma tidy_consider (d : deal) n : tidy (consider1 d n).
Proof.
  unfold consider. repeat tidy_step.
Qed.

Lemma tidy_batch (deals : list deal) : forall n, tidy (batch deals n).
Proof.
  induction deals as [|d rest IH]; intros n; simpl.
  - apply tidy_ret.
  - repeat tidy_step; apply IH.
Qed.

Lemma tidy_cycle : tidy one_cycle.
Proof.
  unfold cycle. repeat tidy_step; try apply tidy_batch; repeat tidy_step.
Qed.

Lemma tidy_guarded_cycle : tidy safe_cycle.
Proof.
  unfold guarded_cycle. apply tidy_try; [apply tidy_cycle|].
  intros e. repeat tidy_step.
Qed.

Lemma batch_late (deals : list deal) :
  forall n (w : world E) r w' t,
    batch deals n w = (r, w', t) -> late_and_caught r t.
Proof.
  unfold late_and_caught, late_bounds.
  induction deals as [|d rest IH]; intros n w r w' t H.
  - injection H as <- <- <-. cbn. repeat split; auto.
  - apply batch_step in H
      as [(Hr & -> & -> & ->)|[(Hr & e & t1 & Hc & -> & ->)
                              |(Hr & n1 & w1 & t1 & t2 & Hc & Hb & ->)]].
    + cbn. repeat split; auto.
    + destruct (consider_totals _ _ _ Hc) as (Hsl & Hz & Hsend).
      pose proof (late_count_le is_sleep t1) as L1.
      pose proof (late_count_le is_send t1) as L2.
      change ((true, EPoll AtFor true) :: t1)
        with ([(true, EPoll AtFor true)] ++ t1)%list.
      rewrite !late_count_app. cbn. repeat split; try lia.
      intros e' [= <-] Hx. rewrite (Hz e eq_refl Hx) in L1. simpl in L1. lia.
    + change ((true, EPoll AtFor true) :: (t1 ++ t2)%list)
        with ([(true, EPoll AtFor true)] ++ t1 ++ t2)%list.
      rewrite !late_count_app.
      change (late_count is_sleep [(true, EPoll AtFor true)]) with 0%nat.
      change (late_count is_send [(true, EPoll AtFor true)]) with 0%nat.
      destruct (running w1) eqn:Hr1.
      * destruct (tidy_consider d n _ Hc) as [_ Hl].
        rewrite !(late_count_nil _ _ (Hl Hr1)).
        exact (IH _ _ _ _ _ Hb).
      * destruct (batch_from_stopped rest n1 w1 Hr1) as (tq & Hq & Hquiet).
        rewrite Hq in Hb. injection Hb as <- <- <-.
        rewrite !(quiet_late_count _ tq) by (auto; reflexivity).
        destruct (consider_totals _ _ _ Hc) as (Hs & _ & Hsend).
        pose proof (late_count_le is_sleep t1).
        pose proof (late_count_le is_send t1).
        repeat split; try discriminate; lia.
Qed.

Lemma cycle_late (w : world E) r w' t :
  one_cycle w = (r, w', t) -> late_and_caught r t.
Proof.
  unfold late_and_caught, late_bounds. intros H.
  apply cycle_anatomy in H
    as [(e & _ & _ & ->)|[(e & w1 & _ & _ & _ & ->)
        |(w1 & w2 & deals & rb & w3 & tb & _ & _ & Hb & Hcase)]].
  - rewrite !late_count_none by reflexivity. repeat split; auto.
  - rewrite !late_count_none by reflexivity. repeat split; auto.
  - pose proof (tidy_batch deals 0 _ Hb) as [_ Hl].
    destruct (batch_late _ _ _ Hb) as ((B1 & B2) & B3).
    set (pre := [(running w, EProxy true); (running w1, EDiscover true);
                 (running w2, ELog (InfoFound (List.length deals)))]) in *.
    assert (P1 : late_count is_sleep pre = 0%nat)
      by now apply late_count_none.
    assert (P2 : late_count is_send pre = 0%nat)
      by now apply late_count_none.
    cycle_ways rb w3 Hcase;
      rewrite !late_count_app, P1, P2;
      try rewrite !(late_count_nil _ _ (Hl eq_refl));
      rewrite ?Hr3; cbn.
    + repeat split; intros; lia.
    + repeat split; intros; lia.
    + repeat split; intros; subst; try discriminate; lia.
    + subst r. repeat split; try lia.
      intros e' [= <-] Hx. rewrite (B3 e eq_refl Hx). lia.
Qed.

Lemma guarded_cycle_late (w : world E) r w' t :
  safe_cycle w = (r, w', t) -> late_bounds t.
Proof.
  destruct (guarded_cycle_cases io repr_other self w)
    as (rc & w1 & t1 & Hc & Hcase).
  destruct (cycle_late _ Hc) as ((B1 & B2) & B3).
  destruct rc as [[]|e]; [|destruct (is_exception e) eqn:Hx];
    rewrite Hcase; intros [= <- <- <-]; try (now split).
  unfold late_bounds. rewrite !late_count_app, (B3 e eq_refl Hx).
  assert (C1 : (late_count is_sleep (cooldown e w1) <= 1)%nat).
  { unfold cooldown. destruct (running w1); cbn; lia. }
  assert (C2 : late_count is_send (cooldown e w1) = 0%nat)
    by now apply late_count_none.
  lia.
Qed.

Lemma loop_late fuel :
  forall (w : world E) r w' t, loop fuel w = (r, w', t) -> late_bounds t.
Proof.
  unfold late_bounds.
  induction fuel as [|fuel IH]; intros w r w' t H;
    apply run_loop_step in H
      as [(_ & _ & _ & ->)|[(_ & _ & _ & _ & ->)
          |(Hr & fuel' & rc & w1 & t1 & Hf & Hc & Hcase)]];
    try (cbn; lia); try discriminate.
  injection Hf as <-.
  destruct (guarded_cycle_late _ Hc) as [B1 B2].
  destruct rc as [[]|e].
  - destruct Hcase as (t2 & Hl & ->).
    change ((true, EPoll AtWhile true) :: (t1 ++ t2)%list)
      with ([(true, EPoll AtWhile true)] ++ t1 ++ t2)%list.
    rewrite !late_count_app.
    change (late_count is_sleep [(true, EPoll AtWhile true)]) with 0%nat.
    change (late_count is_send [(true, EPoll AtWhile true)]) with 0%nat.
    destruct (running w1) eqn:Hr1.
    + destruct (tidy_guarded_cycle _ Hc) as [_ Hlate].
      rewrite !(late_count_nil _ _ (Hlate Hr1)).
      exact (IH _ _ _ _ Hl).
    + rewrite (run_loop_stopped io repr_other self fuel w1 Hr1) in Hl.
      injection Hl as <- <- <-. cbn. lia.
  - destruct Hcase as (_ & _ & ->).
    change ((true, EPoll AtWhile true) :: t1)
      with ([(true, EPoll AtWhile true)] ++ t1)%list.
    rewrite !late_count_app. cbn. lia.
Qed.

End StopIsFinal.

End FlagReads.

(** ** The posting pipeline *)

Section Pipeline.

Variable E : Type.
Variable io : collaborators E.
Variable repr_other : yaml -> string.
Variable self : bot.

Local Abbreviation post := (post_deal io repr_other self).
Local Abbreviation consider1 := (consider io repr_other self).
Local Abbreviation batch := (for_deals io repr_other self).

Lemma prepend_nil {A} (x : result A * world E * trace) : prepend [] x = x.
Proof. now destruct x as [[r w] t]. Qed.

Lemma batch_running_clean (deals : list deal) n (w : world E) r w' t :
  batch deals n w = (r, w', t) -> running w' = true ->
  existsb is_false_poll t = false.
Proof.
  intros H Hr.
  apply batch_winds in H as [Hc|(_ & Hw & _)]; [|congruence].
  now apply clean_no_false_poll.
Qed.

(** A batch in two parts: the second part is run from where the first
    part ended, unless the first part raised or stopped at a cleared
    flag. *)
Lemma batch_app (before more : list deal) :
  forall n (w : world E),
    batch (before ++ more) n w =
      match batch before n w with
      | (Raise e, w0, t0) => (Raise e, w0, t0)
      | (Ok n0, w0, t0) =>
          if existsb is_false_poll t0 then (Ok n0, w0, t0)
          else prepend t0 (batch more n0 w0)
      end.
Proof.
  induction before as [|b bs IH]; intros n w.
  - cbn [app for_deals ret existsb]. now rewrite prepend_nil.
  - cbn [app]. destruct (running w) eqn:Hr.
    + rewrite !(for_deals_running io repr_other self _ _ _ _ Hr).
      destruct (consider1 b n w) as [[[n1|e] w1] t1] eqn:Hc.
      * rewrite !(bind_ok _ _ _ Hc), IH.
        pose proof Hc as Hclean.
        apply consider_clean, clean_no_false_poll in Hclean.
        destruct (batch bs n1 w1) as [[[n0|e] w0] t0]; [|reflexivity].
        cbn [prepend app existsb is_false_poll snd].
        rewrite existsb_app, Hclean. cbn [orb].
        destruct (existsb is_false_poll t0); [reflexivity|].
        destruct (batch more n0 w0) as [[r2 w2] t2]. simpl.
        now rewrite app_assoc.
      * now rewrite !(bind_raise _ _ _ Hc).
    + now rewrite !(for_deals_stopped io repr_other self _ _ _ _ Hr).
Qed.

Lemma for_deals_count (deals : list deal) :
  forall n (w : world E) n' w' t,
    batch deals n w = (Ok n', w', t) -> n' = (n + persisted t)%nat.
Proof.
  induction deals as [|d rest IH]; intros n w n' w' t H.
  - injection H as <- <- <-. unfold persisted; simpl; lia.
  - apply batch_step in H
      as [(_ & Hn & _ & ->)|[(_ & e & t1 & _ & Hn & _)
                            |(_ & n1 & w1 & t1 & t2 & Hc & Hb & ->)]];
      try discriminate.
    + injection Hn as <-. unfold persisted; simpl; lia.
    + apply IH in Hb. subst n'.
      change ((true, EPoll AtFor true) :: (t1 ++ t2)%list)
        with ([(true, EPoll AtFor true)] ++ t1 ++ t2)%list.
      rewrite !persisted_app.
      change (persisted [(true, EPoll AtFor true)]) with 0%nat.
      enough (n1 = (n + persisted t1)%nat) by lia.
      destruct (consider_anatomy io repr_other self d n w)
        as (r0 & w0 & _ & Hcase). cbv zeta in Hcase.
      destruct r0 as [[|]|e].
      * rewrite Hcase in Hc. injection Hc as <- <- <-.
        unfold persisted; simpl; lia.
      * destruct Hcase as (rp & w2 & t0 & Hp & Hcase).
        apply post_deal_persisted in Hp.
        destruct rp as [[|]|e];
          [destruct (delay_seconds self) as [secs|e]|..];
          rewrite Hcase in Hc; try discriminate.
        -- destruct (interrupted _) as [[]|e]; [|discriminate].
           injection Hc as <- <- <-.
           change ((running w, EIsDup (asin d) (sale_price d) (Ok false))
                   :: (t0 ++ [(running w2, ESleep Throttle secs)])%list)
             with ([(running w, EIsDup (asin d) (sale_price d) (Ok false))]
                   ++ t0 ++ [(running w2, ESleep Throttle secs)])%list.
           rewrite !persisted_app, Hp. unfold persisted; simpl; lia.
        -- injection Hc as <- <- <-.
           change ((running w, EIsDup (asin d) (sale_price d) (Ok false))
                   :: t0)
             with ([(running w, EIsDup (asin d) (sale_price d) (Ok false))]
                   ++ t0)%list.
           rewrite !persisted_app, Hp. unfold persisted; simpl; lia.
      * rewrite Hcase in Hc. discriminate.
Qed.

(** C1, as amended. Take any candidate [d] of a batch, with the candidates
    [before] it and [after] it.  If the iterations before it raised, or
    ended with the run flag cleared, [d] is not looked at.  Otherwise the
    store is asked whether [d]'s identifier and sale price are a
    duplicate.  When it answers true, nothing else is done for [d]: the
    batch goes on with the candidates after it, from the world the check
    left and with the count unchanged.  When it answers false, whatever
    the store holds for the identifier at other prices, [post_deal] is
    called for [d], starting with the rendering's statistics lookup.  When
    the check raises, the batch ends there. *)
Theorem duplicate_gate (before : list deal) (d : deal) (after : list deal)
    n (w : world E) :
  let '(r0, w0, t0) := batch before n w in
  let '(r, w', t) := batch (before ++ d :: after) n w in
  match r0 with
  | Raise e => (r, w', t) = (Raise e, w0, t0)
  | Ok n0 =>
      if running w0 then
        let '(c, w1) := is_duplicate_deal io (asin d) (sale_price d) w0 in
        let reached :=
          (t0 ++ [(true, EPoll AtFor true);
                  (true, EIsDup (asin d) (sale_price d) c)])%list in
        match c with
        | Ok true => (r, w', t) = prepend reached (batch after n0 w1)
        | Ok false =>
            let '(rp, w2, t2) := post d w1 in
            opens_with_stats d (running w1) t2 /\
            exists t3, t = (reached ++ t2 ++ t3)%list
        | Raise e => (r, w', t) = (Raise e, w1, reached)
        end
      else
        r = Ok n0 /\ w' = w0 /\
        (t = t0 \/ t = (t0 ++ [(false, EPoll AtFor false)])%list)
  end.
Proof.
  rewrite batch_app.
  destruct (batch before n w) as [[[n0|e] w0] t0] eqn:H0; [|reflexivity].
  destruct (running w0) eqn:Hr0.
  - rewrite (batch_running_clean _ _ _ H0 Hr0).
    rewrite (for_deals_running io repr_other self d after n0 w0 Hr0).
    destruct (is_duplicate_deal io (asin d) (sale_price d) w0)
      as [[[|]|e] w1] eqn:Hd.
    + rewrite (bind_ok _ _ _ (consider_duplicate io repr_other self d n0 w0 Hd)).
      rewrite !prepend_prepend, Hr0.
      destruct (batch after n0 w1) as [[ra wa] ta]. cbn [prepend].
      now rewrite <- !app_assoc.
    + destruct (post d w1) as [[rp w2] t2] eqn:Hp.
      pose proof (consider_fresh io repr_other self d n0 w0 Hd Hp) as Hc.
      rewrite Hr0 in Hc.
      match type of Hc with
      | _ = prepend _ ?x => destruct x as [[rc wc] tc]
      end.
      cbn [prepend] in Hc. destruct rc as [n1|e].
      * rewrite (bind_ok _ _ _ Hc).
        destruct (batch after n1 wc) as [[ra wa] ta]. cbn [prepend].
        split; [eapply post_deal_opens; exact Hp|].
        exists (tc ++ ta)%list. simpl. now rewrite <- !app_assoc.
      * rewrite (bind_raise _ _ _ Hc). cbn [prepend].
        split; [eapply post_deal_opens; exact Hp|].
        exists tc. simpl. now rewrite <- !app_assoc.
    + rewrite (bind_raise _ _ _
                 (consider_check_raises io repr_other self d n0 w0 Hd)).
      cbn [prepend]. now rewrite Hr0.
  - destruct (existsb is_false_poll t0); [now auto|].
    rewrite (for_deals_stopped io repr_other self d after n0 w0 Hr0).
    cbn [prepend]. auto.
Qed.

Lemma delivered_are_sent (t : trace) :
  (count_events is_delivered t <= count_events is_send t)%nat.
Proof.
  unfold count_events. induction (map snd t) as [|e l IH]; simpl; [lia|].
  destruct e; simpl; try lia. destruct ok; simpl; lia.
Qed.

Lemma stored_are_updates (t : trace) :
  (count_events is_stored t <= count_events is_update t)%nat.
Proof.
  unfold count_events. induction (map snd t) as [|e l IH]; simpl; [lia|].
  destruct e; simpl; try lia. destruct ok; simpl; lia.
Qed.

(** C4, as amended. For a candidate that is not a duplicate, [post_deal]
    itself never sleeps, and it answers true exactly when the message was
    delivered and the deal then stored.  The throttle pause of the
    configured minimum delay is taken in that case and in no other: when
    [post_deal] answers false -- the send failed, or the send succeeded
    and the store failed -- the next candidate follows at once, with the
    count unchanged. *)
Theorem throttle_only_on_success (d : deal) rest n w w1 secs :
  running w = true ->
  is_duplicate_deal io (asin d) (sale_price d) w = (Ok false, w1) ->
  delay_seconds self = Ok secs ->
  let '(rp, w2, t2) := post d w1 in
  let head :=
    ([(true, EPoll AtFor true);
      (true, EIsDup (asin d) (sale_price d) (Ok false))] ++ t2)%list in
  let pause := [(running w2, ESleep Throttle secs)] in
  count_events is_sleep t2 = 0%nat /\
  (rp = Ok true <->
   count_events is_delivered t2 = 1%nat /\
   count_events is_stored t2 = 1%nat) /\
  batch (d :: rest) n w =
    match rp with
    | Ok true =>
        match sleep io secs w2 with
        | (None, w3) => prepend (head ++ pause)%list (batch rest (S n) w3)
        | (Some i, w3) => (Raise (raised i), w3, (head ++ pause)%list)
        end
    | Ok false => prepend head (batch rest n w2)
    | Raise e => (Raise e, w2, head)
    end.
Proof.
  intros Hr Hd Hs.
  destruct (post d w1) as [[rp w2] t2] eqn:Hp. cbv zeta.
  pose proof Hp as Hfacts.
  apply post_deal_facts in Hfacts as (_ & Hev & Hsend & Hupd & Hst & _ & _).
  split; [|split].
  - apply post_events_posting, posting_no_sleep in Hev.
    unfold count_events. now rewrite Hev.
  - pose proof (delivered_are_sent t2). pose proof (stored_are_updates t2).
    destruct rp as [[|]|e]; split; try discriminate; try lia; auto;
      intros [_ H1]; lia.
  - rewrite (for_deals_running io repr_other self d rest n w Hr).
    pose proof (consider_fresh io repr_other self d n w Hd Hp) as Hc.
    rewrite Hs, Hr in Hc.
    destruct rp as [[|]|e]; cbn [prepend] in Hc.
    + destruct (sleep io secs w2) as [[i|] w3]; cbn in Hc.
      * now rewrite (bind_raise _ _ _ Hc).
      * now rewrite (bind_ok _ _ _ Hc), prepend_prepend.
    + rewrite app_nil_r in Hc.
      now rewrite (bind_ok _ _ _ Hc), prepend_prepend.
    + rewrite app_nil_r in Hc. now rewrite (bind_raise _ _ _ Hc).
Qed.

(** C10. When the message is delivered and [update_deal] then raises an
    exception of class [Exception], [post_deal] logs the error and answers
    false: the count stays, no throttle pause is taken and the next
    candidate follows; the deal is announced but not stored.  The count
    returned by a batch is therefore the number of deals stored by a
    successful [update_deal]. *)
Theorem unrecorded_post_is_a_failure
    (d : deal) rest n w w1 stats w2 link w3 e w4 :
  running w = true ->
  is_duplicate_deal io (asin d) (sale_price d) w = (Ok false, w1) ->
  get_deal_stats io (asin d) w1 = (Ok stats, w2) ->
  _generate_affiliate_link repr_other self (url d) = Ok link ->
  send_message io (channel_id self)
    (message_text d (price_history stats) link (now io w2)) w2 = (Ok tt, w3) ->
  update_deal io d w3 = (Raise e, w4) ->
  is_exception e = true ->
  batch (d :: rest) n w =
    prepend
      [(true, EPoll AtFor true);
       (true, EIsDup (asin d) (sale_price d) (Ok false));
       (running w1, EStats (asin d) true);
       (running w2, ENow (now io w2));
       (running w2,
        ESend (channel_id self)
          (message_text d (price_history stats) link (now io w2)) true);
       (running w3, EUpdate d false);
       (running w4,
        ELog (if is_telegram_error e then ErrorTelegram e
              else ErrorPosting e))]
      (batch rest n w4) /\
  (forall deals m w0 m' w' t,
     batch deals m w0 = (Ok m', w', t) -> m' = (m + persisted t)%nat).
Proof.
  intros Hr Hd Hst Hl Hsend Hup He. split.
  - assert (Hp : post d w1 =
      (Ok false, w4,
       [(running w1, EStats (asin d) true);
        (running w2, ENow (now io w2));
        (running w2,
         ESend (channel_id self)
           (message_text d (price_history stats) link (now io w2)) true);
        (running w3, EUpdate d false);
        (running w4,
         ELog (if is_telegram_error e then ErrorTelegram e
               else ErrorPosting e))])).
    { unfold post_deal, try_except. unfold bind at 1.
      rewrite (format_deal_message_ok io repr_other self d w1 Hst Hl).
      unfold bind at 1. unfold call at 1. rewrite Hsend.
      unfold bind at 1. unfold call at 1. rewrite Hup, He.
      destruct (is_telegram_error e); reflexivity. }
    rewrite (for_deals_running io repr_other self d rest n w Hr).
    pose proof (consider_fresh io repr_other self d n w Hd Hp) as Hc.
    cbn [prepend] in Hc. rewrite app_nil_r, Hr in Hc.
    now rewrite (bind_ok _ _ _ Hc), prepend_prepend.
  - intros deals m w0 m' w' t. apply for_deals_count.
Qed.

End Pipeline.

(** ** The loop *)

Section Loop.

Variable E : Type.
Variable io : collaborators E.
Variable repr_other : yaml -> string.
Variable self : bot.

Local Abbreviation batch := (for_deals io repr_other self).
Local Abbreviation one_cycle := (cycle io repr_other self).
Local Abbreviation safe_cycle := (guarded_cycle io repr_other self).
Local Abbreviation loop := (run_loop io repr_other self).

Lemma cycle_proxy_failure (w : world E) e w1 :
  get_working_proxy io w = (Raise e, w1) ->
  one_cycle w = (Raise e, w1, [(running w, EProxy false)]).
Proof.
  intros H. unfold cycle. unfold bind at 1. unfold call. now rewrite H.
Qed.

Lemma cycle_discovery_failure (w : world E) w1 e w2 :
  get_working_proxy io w = (Ok tt, w1) ->
  get_deals io (config self) w1 = (Raise e, w2) ->
  one_cycle w =
    (Raise e, w2, [(running w, EProxy true); (running w1, EDiscover false)]).
Proof.
  intros H1 H2. unfold cycle. unfold bind at 1. unfold call at 1. rewrite H1.
  unfold bind at 1. unfold call at 1. now rewrite H2.
Qed.

(** What leaves the handler of the loop is not of class [Exception]. *)
Lemma guarded_cycle_passes (w : world E) e w1 t1 :
  safe_cycle w = (Raise e, w1, t1) -> is_exception e = false.
Proof.
  destruct (guarded_cycle_cases io repr_other self w)
    as (rc & w0 & t0 & _ & Hcase).
  destruct rc as [[]|e0]; [|destruct (is_exception e0) eqn:Hx];
    rewrite Hcase; intros [= H _ _]; try discriminate.
  - now apply interrupted_passes in H.
  - congruence.
Qed.

Lemma loop_raises fuel :
  forall (w : world E) e w' t,
    loop fuel w = (Raise e, w', t) -> is_exception e = false.
Proof.
  induction fuel as [|fuel IH]; intros w e w' t H;
    apply run_loop_step in H
      as [(_ & ? & _)|[(_ & _ & ? & _)
          |(_ & fuel' & rc & w1 & t1 & Hf & Hc & Hcase)]];
    try discriminate.
  injection Hf as <-. destruct rc as [[]|e0].
  - destruct Hcase as (t2 & Hl & _). exact (IH _ _ _ _ Hl).
  - destruct Hcase as ([= <-] & _ & _). exact (guarded_cycle_passes _ Hc).
Qed.

Lemma loop_opens fuel (w : world E) :
  exists t,
    snd (loop fuel w) = (running w, EPoll AtWhile (running w)) :: t.
Proof.
  destruct (loop fuel w) as [[r w'] t] eqn:H.
  apply run_loop_step in H
    as [(Hr & _ & _ & ->)|[(Hr & _ & _ & _ & ->)
        |(Hr & fuel' & rc & w1 & t1 & _ & _ & Hcase)]];
    rewrite Hr; simpl; try (now eexists).
  destruct rc as [[]|e].
  - destruct Hcase as (t2 & _ & ->). now eexists.
  - destruct Hcase as (_ & _ & ->). now eexists.
Qed.


Lemma init_needs_constructor_keys (new : constructors) (cfg : yaml) path e :
  In path constructor_keys -> lookup cfg path = Raise e ->
  exists e', init new cfg = Raise e'.
Proof.
  unfold constructor_keys, init, bind_result. intros Hin Hl.
  destruct (lookup cfg ["telegram"; "bot_token"]) eqn:H1; [|eauto].
  destruct (Bot new a); [|eauto].
  destruct (lookup cfg ["telegram"; "channel_id"]) eqn:H2; [|eauto].
  destruct (lookup cfg ["database"; "path"]) eqn:H3; [|eauto].
  destruct (DealsDatabase new a2); [|eauto].
  destruct (lookup cfg ["scraping"; "max_proxies"]) eqn:H4; [|eauto].
  simpl in Hin. destruct Hin as [<-|[<-|[<-|[<-|[]]]]]; congruence.
Qed.

Lemma init_builds (new : constructors) (cfg token channel path proxies : yaml) :
  lookup cfg ["telegram"; "bot_token"] = Ok token ->
  lookup cfg ["telegram"; "channel_id"] = Ok channel ->
  lookup cfg ["database"; "path"] = Ok path ->
  lookup cfg ["scraping"; "max_proxies"] = Ok proxies ->
  Bot new token = Ok tt ->
  DealsDatabase new path = Ok tt ->
  ProxyManager new proxies = Ok tt ->
  init new cfg =
    Ok {| config := cfg; bot_token := token; channel_id := channel;
          db_path := path; max_proxies := proxies |}.
Proof.
  intros H1 H2 H3 H4 B1 B2 B3. unfold init.
  rewrite H1. cbn [bind_result]. rewrite B1. cbn [bind_result].
  rewrite H2. cbn [bind_result]. rewrite H3. cbn [bind_result].
  rewrite B2. cbn [bind_result]. rewrite H4. cbn [bind_result].
  rewrite B3. reflexivity.
Qed.

(** C7, as amended. A configuration without [telegram.bot_token],
    [telegram.channel_id], [database.path] or [scraping.max_proxies] makes
    the constructor raise, and one without [database.retention_days] makes
    [run_forever] raise out of [initialize]; in both cases no cycle has
    started.  The other three keys are not read at startup: whenever the
    four keys of the constructor resolve and the collaborators can be
    built, the bot is constructed, and whenever proxy initialisation
    succeeds and [database.retention_days] resolves and pruning succeeds,
    [run_forever] goes on to the [while] loop. *)
Theorem missing_startup_keys (new : constructors) :
  (forall cfg path e,
     In path constructor_keys -> lookup cfg path = Raise e ->
     exists e', init new cfg = Raise e') /\
  (forall fuel (w : world E) e,
     lookup (config self) ["database"; "retention_days"] = Raise e ->
     exists e' w' t,
       run_forever io repr_other self fuel w = (Raise e', w', t) /\
       forallb (fun p => negb (cycle_event p)) t = true) /\
  (forall cfg token channel path proxies,
     lookup cfg ["telegram"; "bot_token"] = Ok token ->
     lookup cfg ["telegram"; "channel_id"] = Ok channel ->
     lookup cfg ["database"; "path"] = Ok path ->
     lookup cfg ["scraping"; "max_proxies"] = Ok proxies ->
     Bot new token = Ok tt ->
     DealsDatabase new path = Ok tt ->
     ProxyManager new proxies = Ok tt ->
     exists b, init new cfg = Ok b /\ config b = cfg) /\
  (forall fuel (w : world E) w1 days w2,
     proxy_initialize io w = (Ok tt, w1) ->
     lookup (config self) ["database"; "retention_days"] = Ok days ->
     clean_old_deals io days w1 = (Ok tt, w2) ->
     exists t,
       snd (run_forever io repr_other self fuel w) =
         ([(running w, ELog InfoStarting); (running w, EProxyInit true);
           (running w1, EClean days true);
           (running w2, EPoll AtWhile (running w2))] ++ t)%list).
Proof.
  split; [exact (init_needs_constructor_keys new)|].
  split; [|split].
  - intros fuel w e Hl. unfold run_forever, initialize.
    unfold bind at 1. unfold log, emit.
    unfold bind at 1. unfold bind at 1. unfold call.
    destruct (proxy_initialize io w) as [[[]|e0] wi].
    + unfold bind at 1. unfold lift. rewrite Hl. now eexists _, _, _.
    + now eexists _, _, _.
  - intros cfg token channel path proxies H1 H2 H3 H4 B1 B2 B3.
    eexists. split; [exact (init_builds new cfg H1 H2 H3 H4 B1 B2 B3)|].
    reflexivity.
  - intros fuel w w1 days w2 Hp Hl Hclean. unfold run_forever, initialize.
    unfold bind at 1. unfold log at 1, emit.
    unfold bind at 1. unfold bind at 1. unfold call at 1. rewrite Hp.
    unfold bind at 1. unfold lift. rewrite Hl.
    unfold call. rewrite Hclean.
    unfold bind at 1.
    destruct (loop_opens fuel w2) as (t & Ht).
    destruct (loop fuel w2) as [[[o|e] w3] t3]; simpl in Ht; subst t3.
    + destruct o; simpl; now eexists.
    + simpl. now eexists.
Qed.

End Loop.

(** ** Shutdown *)

Section Shutdown.

Variable E : Type.
Variable io : collaborators E.
Variable repr_other : yaml -> string.
Variable self : bot.

Local Abbreviation loop := (run_loop io repr_other self).

(** C2, as amended. Proxy acquisition, each candidate's duplicate check and
    the inter-cycle sleep each come right after a read of the run flag that
    found it set, and none of them is started while the flag is cleared.
    Once a read finds the flag cleared, only reads of the flag and log
    records follow, and the loop returns [Stopped] without raising; the
    loop never lets out an exception of class [Exception].  When the flag,
    once cleared, stays cleared, at most one pause and at most one send
    are started after it was cleared; a call or sleep in flight at that
    moment runs to its end first. *)
Theorem cooperative_shutdown fuel (w : world E) :
  let '(r, w', t) := loop fuel w in
  reads_before false t = true /\
  forallb issued_running t = true /\
  winds_down t = true /\
  (existsb is_false_poll t = true -> r = Ok Stopped) /\
  (forall e, r = Raise e -> is_exception e = false) /\
  (stop_is_final io -> late_bounds t).
Proof.
  destruct (loop fuel w) as [[r w'] t] eqn:H.
  split; [eapply loop_reads; exact H|].
  split; [eapply loop_gated; exact H|].
  assert (Hraise : forall e, r = Raise e -> is_exception e = false).
  { intros e ->. eapply loop_raises; exact H. }
  assert (Hlate : stop_is_final io -> late_bounds t).
  { intros Hf. eapply loop_late; [exact Hf | exact H]. }
  pose proof H as Hwinds. apply loop_winds in Hwinds as [Hc|[Hw ->]].
  - split; [now apply clean_winds_down|]. split; [|now split].
    rewrite (clean_no_false_poll Hc). discriminate.
  - split; [now apply wound_winds_down|]. split; [reflexivity|]. now split.
Qed.

End Shutdown.

(** * Further properties of the loop *)

(** ** Invariants of a run *)

Section Invariants.

Variable E : Type.
Variable io : collaborators E.
Variable repr_other : yaml -> string.
Variable self : bot.

Local Abbreviation post := (post_deal io repr_other self).
Local Abbreviation batch := (for_deals io repr_other self).
Local Abbreviation loop := (run_loop io repr_other self).

Lemma post_updates_deliveries (d : deal) (w : world E) r w2 t :
  post d w = (r, w2, t) ->
  count_events is_update t = count_events is_delivered t.
Proof. intros H. apply post_deal_facts in H. apply H. Qed.

(** X1. In every run of the loop, [update_deal] is called exactly as often
    as [send_message] succeeded: every delivered message is followed by
    one attempt to store the deal, and nothing is stored that was not
    delivered. *)
Theorem updates_match_deliveries fuel (w : world E) :
  let t := snd (loop fuel w) in
  count_events is_update t = count_events is_delivered t /\
  (count_events is_stored t <= count_events is_delivered t)%nat.
Proof.
  destruct (loop fuel w) as [[r w'] t] eqn:H. simpl.
  assert (Heq : count_events is_update t = count_events is_delivered t).
  { revert H.
    apply (loop_trace io repr_other self
             (fun t => count_events is_update t
                       = count_events is_delivered t)).
    - reflexivity.
    - intros t1 t2 H1 H2. now rewrite !count_events_app, H1, H2.
    - intros b e He. destruct e as [| [] | | | | | | | | | |[]];
        simpl in He; try contradiction; reflexivity.
    - intros d w0 s w2 t0. apply post_updates_deliveries. }
  split; [exact Heq|]. rewrite <- Heq.
  unfold count_events. clear. induction (map snd t) as [|e l IH]; simpl; [lia|].
  destruct e; simpl; try lia. destruct ok; simpl; lia.
Qed.

(** X2. Every message the loop sends goes to the chat configured as
    [telegram.channel_id]; no other chat is ever written to. *)
Theorem sends_go_to_the_channel fuel (w : world E) :
  Forall (sent_to (channel_id self)) (snd (loop fuel w)).
Proof.
  destruct (loop fuel w) as [[r w'] t] eqn:H. simpl. revert H.
  apply (loop_trace io repr_other self
           (fun t => Forall (sent_to (channel_id self)) t)).
  - constructor.
  - intros t1 t2 H1 H2. apply Forall_app. now split.
  - intros b e He. constructor; [|constructor].
    unfold sent_to. destruct e; simpl in *; auto; contradiction.
  - intros d w0 s w2 t0 Hp.
    apply post_deal_post_events in Hp.
    revert Hp. apply Forall_impl. intros [b e]. unfold sent_to.
    destruct e; simpl; auto.
Qed.

(** X3. Every pause of the loop has the duration the code gives it: a
    throttle pause lasts [scraping.request_delay.min], an inter-cycle sleep
    lasts [scraping.update_interval_minutes] times 60, the cooldown lasts
    60 seconds; no pause of another duration is ever taken. *)
Theorem pauses_are_as_configured fuel (w : world E) :
  Forall (pause_as_configured self) (snd (loop fuel w)).
Proof.
  destruct (loop fuel w) as [[r w'] t] eqn:H. simpl. revert H.
  apply (loop_trace io repr_other self
           (fun t => Forall (pause_as_configured self) t)).
  - constructor.
  - intros t1 t2 H1 H2. apply Forall_app. now split.
  - intros b e He. constructor; [|constructor].
    unfold pause_as_configured. destruct e; simpl in *; auto.
  - intros d w0 s w2 t0 Hp.
    apply post_deal_post_events in Hp.
    revert Hp. apply Forall_impl. intros [b e]. unfold pause_as_configured.
    destruct e; simpl; intros Hpe; auto; contradiction.
Qed.

Lemma post_without_affiliate_id (d : deal) (w : world E) e r w2 t :
  lookup (config self) ["amazon"; "affiliate_id"] = Raise e ->
  post d w = (r, w2, t) ->
  count_events is_send t = 0%nat /\ count_events is_update t = 0%nat.
Proof.
  intros Hmiss.
  unfold post_deal, _format_deal_message, _generate_affiliate_link.
  rewrite Hmiss. unfold_effects. simpl.
  repeat break_match;
    repeat match goal with H : (_, _) = (_, _) |- _ => inversion H; clear H end;
    subst; intros H; inversion H; subst; repeat split.
Qed.

(** X4. When [amazon.affiliate_id] is missing from the configuration, the
    loop never sends a message and never stores a deal: every posting
    attempt fails at the link, before [send_message] is reached. *)
Theorem nothing_is_sent_without_affiliate_id e fuel (w : world E) :
  lookup (config self) ["amazon"; "affiliate_id"] = Raise e ->
  let t := snd (loop fuel w) in
  count_events is_send t = 0%nat /\ count_events is_update t = 0%nat.
Proof.
  intros Hmiss. destruct (loop fuel w) as [[r w'] t] eqn:H. simpl. revert H.
  apply (loop_trace io repr_other self
           (fun t => count_events is_send t = 0%nat /\
                     count_events is_update t = 0%nat)).
  - split; reflexivity.
  - intros t1 t2 [H1 H1'] [H2 H2'].
    now rewrite !count_events_app, H1, H1', H2, H2'.
  - intros b e0 He. destruct e0 as [| [] | | | | | | | | | |[]];
      simpl in He; try contradiction; split; reflexivity.
  - intros d w0 s w2 t0 Hp.
    exact (post_without_affiliate_id _ _ Hmiss Hp).
Qed.

Lemma loop_exit_flag fuel :
  forall (w : world E) o w' t,
    loop fuel w = (Ok o, w', t) ->
    running w' = match o with Stopped => false | StillCycling => true end.
Proof.
  induction fuel as [|fuel IH]; intros w o w' t H;
    apply run_loop_step in H
      as [(Hr & [= ->] & -> & _)|[(Hr & _ & [= ->] & -> & _)
          |(Hr & fuel' & rc & w1 & t1 & Hf & Hc & Hcase)]];
    try exact Hr; try discriminate.
  injection Hf as <-. destruct rc as [[]|e].
  - destruct Hcase as (t2 & Hl & _). exact (IH _ _ _ _ Hl).
  - destruct Hcase as ([=] & _).
Qed.

(** X5. [run_forever] returns only with the run flag cleared, and the last
    thing it does is log the shutdown; as long as the flag is set it keeps
    cycling. *)
Theorem run_forever_returns_stopped fuel (w : world E) :
  match run_forever io repr_other self fuel w with
  | (Ok Stopped, w', t) =>
      running w' = false /\
      exists t0, t = (t0 ++ [(false, ELog InfoShutdown)])%list
  | (Ok StillCycling, w', _) => running w' = true
  | (Raise _, _, _) => True
  end.
Proof.
  unfold run_forever. unfold bind at 1. unfold log at 1, emit.
  unfold bind at 1.
  destruct (initialize io self w) as [[[[]|e] wi] ti]; [|exact I].
  unfold bind at 1.
  destruct (loop fuel wi) as [[[o|e] w2] t2] eqn:Hl; [|exact I].
  pose proof (loop_exit_flag _ _ Hl) as Hflag.
  destruct o; simpl.
  - unfold bind, log, emit, ret. simpl. rewrite Hflag. split; [reflexivity|].
    exists ((running w, ELog InfoStarting) :: ti ++ t2)%list.
    simpl. now rewrite app_assoc.
  - exact Hflag.
Qed.

End Invariants.

(** ** Batches *)

Section Batches.

Variable E : Type.
Variable io : collaborators E.
Variable repr_other : yaml -> string.
Variable self : bot.

Local Abbreviation post := (post_deal io repr_other self).
Local Abbreviation consider1 := (consider io repr_other self).
Local Abbreviation batch := (for_deals io repr_other self).
Local Abbreviation one_cycle := (cycle io repr_other self).
Local Abbreviation safe_cycle := (guarded_cycle io repr_other self).
Local Abbreviation loop := (run_loop io repr_other self).

(** X6. [post_deal] lets out no exception of class [Exception], whatever
    its collaborators do: it answers, or an exception outside that class
    passes through it.  It answers [True] exactly when the deal was
    stored, and then nothing was logged; when it answers [False] exactly
    one error was logged and nothing was stored; when an exception passes
    through, nothing was stored and nothing logged.  It sends at most one
    message and calls [update_deal] exactly when the message was
    delivered. *)
Theorem post_deal_outcome (d : deal) (w : world E) :
  let '(r, w2, t) := post d w in
  (count_events is_send t <= 1)%nat /\
  count_events is_update t = count_events is_delivered t /\
  match r with
  | Ok s =>
      count_events is_stored t = (if s then 1 else 0)%nat /\
      count_events is_error_log t = (if s then 0 else 1)%nat
  | Raise e =>
      is_exception e = false /\
      count_events is_stored t = 0%nat /\
      count_events is_error_log t = 0%nat
  end.
Proof.
  destruct (post d w) as [[r w2] t] eqn:Hp.
  apply post_deal_facts in Hp as (_ & _ & Hsend & Hupd & Hst & Hlog & Hx).
  split; [exact Hsend|]. split; [exact Hupd|].
  destruct r as [[|]|e]; auto.
Qed.

Lemma checked_ids_app (t1 t2 : trace) :
  checked_ids (t1 ++ t2)%list = (checked_ids t1 ++ checked_ids t2)%list.
Proof.
  induction t1 as [|[b e] t1 IH]; simpl; [reflexivity|].
  destruct e; simpl; now rewrite ?IH.
Qed.

Lemma post_events_unchecked (chat : yaml) (t : trace) :
  Forall (fun p => post_event chat (snd p)) t -> checked_ids t = [].
Proof.
  induction 1 as [|[b e] t He _ IH]; simpl; [reflexivity|].
  destruct e; simpl in He; try contradiction; exact IH.
Qed.

(** One candidate: the check made, the count, the pause. *)
Lemma consider_summary (d : deal) n (w : world E) r w' t :
  consider1 d n w = (r, w', t) ->
  checked_ids t = [asin d] /\
  (count_events is_send t <= 1)%nat /\
  (persisted t <= 1)%nat /\
  Forall (fun p => cycle_only (snd p) = false) t /\
  match r with
  | Ok n' =>
      n' = (n + persisted t)%nat /\
      count_events is_throttle t = persisted t
  | Raise _ =>
      (count_events is_throttle t <= persisted t)%nat /\
      (persisted t <= count_events is_throttle t + 1)%nat
  end.
Proof.
  intros H.
  destruct (consider_anatomy io repr_other self d n w)
    as (r0 & w1 & _ & Hcase). cbv zeta in Hcase.
  destruct r0 as [[|]|e].
  - rewrite Hcase in H. injection H as <- <- <-. cbn.
    repeat split; auto; repeat constructor.
  - destruct Hcase as (rp & w2 & t2 & Hp & Hcase).
    pose proof Hp as Hev. apply post_deal_post_events in Hev.
    pose proof (post_events_unchecked _ Hev) as Hun.
    pose proof Hp as Hst. apply post_deal_persisted in Hst.
    apply post_deal_facts in Hp as (_ & _ & Hsend & _).
    assert (Hthr : count_events is_throttle t2 = 0%nat).
    { clear - Hev. unfold count_events.
      induction Hev as [|[b e] t He _ IH]; simpl; [reflexivity|].
      destruct e; simpl in He; try contradiction; exact IH. }
    assert (Hco : Forall (fun p => cycle_only (snd p) = false) t2).
    { revert Hev. apply Forall_impl. intros [b e]. simpl.
      destruct e as [| [] | | | | | | | | | |]; simpl;
        intros He; try contradiction; reflexivity. }
    destruct rp as [[|]|e];
      [destruct (delay_seconds self) as [secs|e]|..];
      rewrite Hcase in H; injection H as <- <- <-;
      repeat match goal with
        | |- context [(?p :: ?l ++ ?m)%list] =>
            change (p :: l ++ m)%list with ([p] ++ l ++ m)%list
        | |- context [?p :: t2] =>
            change (p :: t2) with ([p] ++ t2)%list
        end;
      rewrite ?checked_ids_app, ?count_events_app, ?persisted_app, ?Hun,
        ?Hst, ?Hthr;
      try destruct (interrupted _) as [[]|e'];
      cbn; repeat split; try lia;
      repeat split; auto; repeat constructor; auto;
      try (apply Forall_app; split; [exact Hco|]); repeat constructor.
  - rewrite Hcase in H. injection H as <- <- <-. cbn.
    repeat split; auto; repeat constructor.
Qed.

Lemma batch_summary (deals : list deal) :
  forall n (w : world E) r w' t,
    batch deals n w = (r, w', t) ->
    (exists rest,
       map asin deals = (checked_ids t ++ rest)%list /\
       (succeeded r = true -> running w' = true -> rest = [])) /\
    (count_events is_send t <= List.length deals)%nat /\
    (persisted t <= List.length deals)%nat /\
    Forall (fun p => cycle_only (snd p) = false) t /\
    match r with
    | Ok n' =>
        n' = (n + persisted t)%nat /\
        count_events is_throttle t = persisted t
    | Raise _ =>
        (count_events is_throttle t <= persisted t)%nat /\
        (persisted t <= count_events is_throttle t + 1)%nat
    end.
Proof.
  induction deals as [|d rest IH]; intros n w r w' t H.
  - injection H as <- <- <-. cbn.
    split; [now exists []|]. repeat split; auto.
  - apply batch_step in H
      as [(Hr & -> & -> & ->)|[(Hr & e & t1 & Hc & -> & ->)
                              |(Hr & n1 & w1 & t1 & t2 & Hc & Hb & ->)]].
    + cbn.
      split; [exists (asin d :: map asin rest);
              split; [reflexivity | congruence]|].
      repeat split; auto; try lia; repeat constructor.
    + destruct (consider_summary _ _ _ Hc) as (Hid & Hs & Hp & Hco & Hthr).
      change ((true, EPoll AtFor true) :: t1)
        with ([(true, EPoll AtFor true)] ++ t1)%list.
      rewrite checked_ids_app, !count_events_app, persisted_app, Hid.
      cbn. split; [|split; [|split; [|split; [|split]]]]; try lia.
      * exists (map asin rest). split; [reflexivity | discriminate].
      * constructor; [reflexivity | exact Hco].
    + destruct (consider_summary _ _ _ Hc)
        as (Hid & Hs & Hp & Hco & Hn1 & Hthr).
      destruct (IH _ _ _ _ _ Hb)
        as ((more & Hmore & Hall) & Hs2 & Hp2 & Hco2 & Hr2).
      change ((true, EPoll AtFor true) :: (t1 ++ t2)%list)
        with ([(true, EPoll AtFor true)] ++ t1 ++ t2)%list.
      rewrite !checked_ids_app, !count_events_app, !persisted_app, Hid, Hthr.
      cbn. split; [|split; [|split; [|split]]]; try lia.
      * exists more. split; [now rewrite Hmore | exact Hall].
      * constructor; [reflexivity|]. apply Forall_app. now split.
      * destruct r as [n'|e]; lia.
Qed.

(** X7. The candidates of a batch are handed to the duplicate check in the
    order in which discovery returned them, none twice and none skipped in
    between: the identifiers checked are a prefix of the batch, and all of
    it when the batch returns with the run flag still set. *)
Theorem candidates_are_checked_in_order (deals : list deal) n (w : world E) :
  let '(r, w', t) := batch deals n w in
  exists rest,
    map asin deals = (checked_ids t ++ rest)%list /\
    (succeeded r = true -> running w' = true -> rest = []).
Proof.
  destruct (batch deals n w) as [[r w'] t] eqn:H.
  exact (proj1 (batch_summary _ _ _ H)).
Qed.

(** X8. A batch sends at most one message per candidate and stores at most
    one deal per candidate; the count it returns is the count it started
    from plus the number of deals it stored, so at most the size of the
    batch more. *)
Theorem batch_count_bounds (deals : list deal) n (w : world E) :
  let '(r, w', t) := batch deals n w in
  (count_events is_send t <= List.length deals)%nat /\
  (persisted t <= List.length deals)%nat /\
  match r with
  | Ok n' => n' = (n + persisted t)%nat /\ (n <= n' <= n + List.length deals)%nat
  | Raise _ => True
  end.
Proof.
  destruct (batch deals n w) as [[r w'] t] eqn:H.
  destruct (batch_summary _ _ _ H) as (_ & Hs & Hp & _ & Hr).
  repeat split; auto. destruct r as [n'|e]; [|exact I].
  destruct Hr as [-> _]. lia.
Qed.

(** X9. In a batch, every throttle pause follows a deal that was stored.  A
    batch that returns has paused once for each deal it stored; a batch
    that raises has stored at most one deal without pausing after it. *)
Theorem one_pause_per_stored_deal (deals : list deal) n (w : world E) :
  let '(r, w', t) := batch deals n w in
  match r with
  | Ok _ => count_events is_throttle t = persisted t
  | Raise _ =>
      (count_events is_throttle t <= persisted t)%nat /\
      (persisted t <= count_events is_throttle t + 1)%nat
  end.
Proof.
  destruct (batch deals n w) as [[r w'] t] eqn:H.
  destruct (batch_summary _ _ _ H) as (_ & _ & _ & _ & Hr).
  destruct r as [n'|e]; [exact (proj2 Hr) | exact Hr].
Qed.

Lemma batch_events_of_batch (t : trace) :
  Forall (fun p => cycle_only (snd p) = false) t ->
  count_events is_posted_log t = 0%nat /\
  (forall b k, ~ In (b, ELog (InfoPosted k)) t) /\
  (forall b, discovery_follows_proxy b t = true).
Proof.
  induction 1 as [|[c e] t He _ (IH1 & IH2 & IH3)].
  - repeat split; auto.
  - simpl in He. split; [|split].
    + change ((c, e) :: t) with ([(c, e)] ++ t)%list.
      rewrite count_events_app, IH1.
      destruct e as [| [] | | | | | | | | | |]; try discriminate; reflexivity.
    + intros b k [Hin|Hin]; [|exact (IH2 _ _ Hin)].
      injection Hin as _ ->. discriminate.
    + intros b. simpl. rewrite IH3.
      destruct e; try discriminate; reflexivity.
Qed.

(** X10. When [scraping.request_delay.min] is missing or is not a number,
    no throttle pause is ever taken, and a batch stores at most one deal:
    the first successful post raises at the pause and ends the batch. *)
Theorem at_most_one_deal_without_delay e (deals : list deal) n (w : world E) :
  delay_seconds self = Raise e ->
  let '(r, w', t) := batch deals n w in
  count_events is_throttle t = 0%nat /\
  (persisted t <= 1)%nat /\
  (persisted t = 1%nat -> succeeded r = false).
Proof.
  intros Hmiss. destruct (batch deals n w) as [[r w'] t] eqn:H.
  assert (Hthr : count_events is_throttle t = 0%nat).
  { revert H.
    apply (batch_trace io repr_other self
             (fun t => count_events is_throttle t = 0%nat)).
    - reflexivity.
    - intros t1 t2 H1 H2. now rewrite count_events_app, H1, H2.
    - intros b e0 He. destruct e0 as [| | | | | | | | | | |[]];
        simpl in He; try reflexivity; congruence.
    - intros d w0 s w2 t0 Hp.
      apply post_deal_post_events in Hp.
      unfold count_events.
      induction Hp as [|[b e0] t0 He _ IH]; simpl; [reflexivity|].
      destruct e0; simpl in He; try contradiction; exact IH. }
  destruct (batch_summary _ _ _ H) as (_ & _ & _ & _ & Hr).
  split; [exact Hthr|]. destruct r as [n'|e'].
  - destruct Hr as [_ Hr]. rewrite Hthr in Hr. rewrite <- Hr.
    split; [lia | discriminate].
  - destruct Hr as [_ Hr]. rewrite Hthr in Hr. split; [lia | reflexivity].
Qed.

(** X11. A cycle logs the number of posted deals at most once, and the
    number it logs is the number of deals stored in that cycle; a cycle
    that returns has logged it exactly once. *)
Theorem posted_log_is_the_stored_count (w : world E) :
  let '(r, w', t) := one_cycle w in
  (count_events is_posted_log t <= 1)%nat /\
  (forall b k, In (b, ELog (InfoPosted k)) t -> k = persisted t) /\
  (succeeded r = true -> count_events is_posted_log t = 1%nat).
Proof.
  destruct (one_cycle w) as [[r w'] t] eqn:H.
  apply cycle_anatomy in H
    as [(e & _ & -> & ->)|[(e & w1 & _ & _ & -> & ->)
        |(w1 & w2 & deals & rb & w3 & tb & _ & _ & Hb & Hcase)]].
  - cbn. split; [lia|]. split; [|discriminate].
    intros b k [Hin|[]]. discriminate.
  - cbn. split; [lia|]. split; [|discriminate].
    intros b k [Hin|[Hin|[]]]; discriminate.
  - destruct (batch_summary _ _ _ Hb) as (_ & _ & _ & Hco & Hr).
    destruct (batch_events_of_batch Hco) as (Hlog & Hnot & _).
    cbv zeta in Hcase.
    set (pre := [(running w, EProxy true); (running w1, EDiscover true);
                 (running w2, ELog (InfoFound (List.length deals)))]) in *.
    assert (Hpre : forall b k, ~ In (b, ELog (InfoPosted k)) pre).
    { intros b k [Hin|[Hin|[Hin|[]]]]; discriminate. }
    destruct rb as [posted|e].
    + destruct Hr as [Hposted _]. simpl in Hposted.
      assert (Hall : forall tl,
        persisted tl = 0%nat ->
        count_events is_posted_log tl = 0%nat ->
        (forall b k, ~ In (b, ELog (InfoPosted k)) tl) ->
        let tr := (pre ++ tb ++
                   [(running w3, ELog (InfoPosted posted));
                    (running w3, EPoll AtIf (running w3))] ++ tl)%list in
        (count_events is_posted_log tr <= 1)%nat /\
        (forall b k, In (b, ELog (InfoPosted k)) tr -> k = persisted tr) /\
        (succeeded r = true -> count_events is_posted_log tr = 1%nat)).
      { intros tl Hp0 Hc0 Hn0 tr.
        assert (Hpt : persisted tr = posted).
        { unfold tr. rewrite !persisted_app, Hp0, Hposted.
          unfold pre, persisted. simpl. lia. }
        assert (Hone : count_events is_posted_log tr = 1%nat).
        { unfold tr. rewrite !count_events_app, Hlog, Hc0. reflexivity. }
        split; [lia|]. split; [|intros _; exact Hone].
        intros b k Hin. rewrite Hpt. unfold tr in Hin.
        apply in_app_or in Hin as [Hin|Hin]; [now apply Hpre in Hin|].
        apply in_app_or in Hin as [Hin|Hin]; [now apply Hnot in Hin|].
        apply in_app_or in Hin as [Hin|Hin]; [|now apply Hn0 in Hin].
        destruct Hin as [Hin|[Hin|[]]]; [|discriminate].
        now injection Hin as _ ->. }
      destruct (running w3) eqn:Hr3;
        [destruct (interval_seconds self) as [secs|e]|];
        destruct Hcase as (_ & _ & ->).
      * apply (Hall [(true, ESleep InterCycle secs)]); auto.
        intros b k [Hin|[]]. discriminate.
      * specialize (Hall [] eq_refl eq_refl (fun _ _ H => H)).
        cbv zeta in Hall. now rewrite app_nil_r in Hall.
      * specialize (Hall [] eq_refl eq_refl (fun _ _ H => H)).
        cbv zeta in Hall. now rewrite app_nil_r in Hall.
    + destruct Hcase as (-> & _ & ->).
      assert (Hc0 : count_events is_posted_log (pre ++ tb)%list = 0%nat)
        by now rewrite count_events_app, Hlog.
      rewrite Hc0. split; [lia|]. split; [|discriminate].
      intros b k Hin.
      apply in_app_or in Hin as [Hin|Hin];
        [now apply Hpre in Hin | now apply Hnot in Hin].
Qed.

Lemma discovery_weaken b (t : trace) :
  discovery_follows_proxy false t = true ->
  discovery_follows_proxy b t = true.
Proof.
  destruct t as [|p t]; simpl; [reflexivity|].
  destruct (is_discover (snd p)); simpl; [discriminate|]. now destruct b.
Qed.

Lemma discovery_app b (t1 t2 : trace) :
  discovery_follows_proxy b t1 = true ->
  discovery_follows_proxy false t2 = true ->
  discovery_follows_proxy b (t1 ++ t2)%list = true.
Proof.
  revert b. induction t1 as [|p t1 IH]; intros b H1 H2; simpl.
  - now apply discovery_weaken.
  - simpl in H1. apply andb_true_iff in H1 as [-> H1]. simpl. now apply IH.
Qed.

Lemma cycle_discovery (w : world E) r w' t :
  one_cycle w = (r, w', t) -> discovery_follows_proxy false t = true.
Proof.
  intros H.
  apply cycle_anatomy in H
    as [(e & _ & _ & ->)|[(e & w1 & _ & _ & _ & ->)
        |(w1 & w2 & deals & rb & w3 & tb & _ & _ & Hb & Hcase)]];
    try reflexivity.
  destruct (batch_summary _ _ _ Hb) as (_ & _ & _ & Hco & _).
  destruct (batch_events_of_batch Hco) as (_ & _ & Hdisc).
  cbv zeta in Hcase.
  destruct rb as [posted|e];
    [destruct (running w3);
       [destruct (interval_seconds self) as [secs|e]|]|];
    destruct Hcase as (_ & _ & ->);
    apply (discovery_app _ [_; _; _]); try reflexivity; auto;
    apply discovery_app; auto.
Qed.

(** X12. Discovery is only ever called right after a proxy acquisition that
    succeeded: when [get_working_proxy] raises, the cycle makes no
    discovery call, and no cycle discovers twice on one proxy. *)
Theorem discovery_needs_a_proxy fuel (w : world E) :
  discovery_follows_proxy false (snd (loop fuel w)) = true.
Proof.
  revert w. induction fuel as [|fuel IH]; intros w;
    destruct (loop _ w) as [[r w'] t] eqn:H; cbn [snd];
    apply run_loop_step in H
      as [(_ & _ & _ & ->)|[(_ & _ & _ & _ & ->)
          |(_ & fuel' & rc & w1 & t1 & Hf & Hc & Hcase)]];
    try reflexivity; try discriminate.
  injection Hf as <-.
  assert (H1 : discovery_follows_proxy false t1 = true).
  { destruct (guarded_cycle_cases io repr_other self w)
      as (rc0 & w0 & t0 & Hcy & Hcase0).
    apply cycle_discovery in Hcy.
    destruct rc0 as [[]|e]; [|destruct (is_exception e)];
      rewrite Hcase0 in Hc; injection Hc as _ _ <-; auto.
    apply discovery_app; [exact Hcy | reflexivity]. }
  destruct rc as [[]|e].
  - destruct Hcase as (t2 & Hl & ->). simpl.
    apply discovery_app; [exact H1|].
    specialize (IH w1). now rewrite Hl in IH.
  - destruct Hcase as (_ & _ & ->). exact H1.
Qed.

(** X13. When discovery returns no candidate, the cycle calls neither the
    database nor Telegram: it logs that 0 deals were found and 0 posted
    and, the run flag being set, starts the inter-cycle sleep; the cycle
    ends as that sleep ends. *)
Theorem empty_batch_cycle (w : world E) w1 w2 secs :
  get_working_proxy io w = (Ok tt, w1) ->
  get_deals io (config self) w1 = (Ok [], w2) ->
  running w2 = true ->
  interval_seconds self = Ok secs ->
  one_cycle w =
    (interrupted (fst (sleep io secs w2)), snd (sleep io secs w2),
     [(running w, EProxy true); (running w1, EDiscover true);
      (true, ELog (InfoFound 0)); (true, ELog (InfoPosted 0));
      (true, EPoll AtIf true); (true, ESleep InterCycle secs)]).
Proof.
  intros Hp Hg Hr Hs. unfold cycle.
  unfold bind at 1. unfold call at 1. rewrite Hp.
  unfold bind at 1. unfold call at 1. rewrite Hg.
  unfold bind at 1. unfold log at 1, emit.
  unfold bind at 1. cbn [for_deals ret].
  unfold bind at 1. unfold log, emit.
  unfold bind at 1. unfold poll. rewrite Hr.
  rewrite interval_cases, Hs. simpl. now rewrite Hr.
Qed.

(** X14. A failure of proxy initialisation or of the pruning of old deals
    leaves [run_forever] as it is raised: the loop is never entered, the
    run flag is not read and no shutdown is logged; when proxy
    initialisation fails the database is not asked to prune. *)
Theorem startup_failures_propagate fuel (w : world E) :
  (forall e w1,
     proxy_initialize io w = (Raise e, w1) ->
     run_forever io repr_other self fuel w =
       (Raise e, w1,
        [(running w, ELog InfoStarting); (running w, EProxyInit false)])) /\
  (forall w1 days e w2,
     proxy_initialize io w = (Ok tt, w1) ->
     lookup (config self) ["database"; "retention_days"] = Ok days ->
     clean_old_deals io days w1 = (Raise e, w2) ->
     run_forever io repr_other self fuel w =
       (Raise e, w2,
        [(running w, ELog InfoStarting); (running w, EProxyInit true);
         (running w1, EClean days false)])).
Proof.
  split.
  - intros e w1 Hp. unfold run_forever, initialize.
    unfold bind at 1. unfold log at 1, emit.
    unfold bind at 1. unfold bind at 1. unfold call at 1. now rewrite Hp.
  - intros w1 days e w2 Hp Hl Hc. unfold run_forever, initialize.
    unfold bind at 1. unfold log at 1, emit.
    unfold bind at 1. unfold bind at 1. unfold call at 1. rewrite Hp.
    unfold bind at 1. unfold lift. rewrite Hl.
    unfold call. now rewrite Hc.
Qed.

End Batches.

(** ** Links *)

Section Links.

Variable repr_other : yaml -> string.
Variable self : bot.

Lemma contains_char_app (c : ascii) (a b : string) :
  Py.contains_char c (a ++ b) = Py.contains_char c a || Py.contains_char c b.
Proof.
  induction a as [|x a IH]; simpl; [reflexivity|].
  now rewrite IH, orb_assoc.
Qed.

(** X15. A generated link always contains a [?], so generating a link from
    a link that already carries the tag does not recognise it: the tag is
    appended a second time, joined with [&]. *)
Theorem tagging_twice_appends_twice (u tag : string) :
  lookup (config self) ["amazon"; "affiliate_id"] = Ok (YStr tag) ->
  exists link,
    _generate_affiliate_link repr_other self u = Ok link /\
    Py.contains_char "?" link = true /\
    _generate_affiliate_link repr_other self link
    = Ok (link ++ "&tag=" ++ tag).
Proof.
  intros H. unfold _generate_affiliate_link. rewrite H.
  cbn [bind_result str_value].
  destruct (Py.contains_char "?" u) eqn:Hq.
  - exists (u ++ "&tag=" ++ tag). split; [reflexivity|].
    assert (Hc : Py.contains_char "?" (u ++ "&tag=" ++ tag) = true)
      by now rewrite contains_char_app, Hq.
    rewrite Hc. split; reflexivity.
  - exists (u ++ "?tag=" ++ tag). split; [reflexivity|].
    assert (Hc : Py.contains_char "?" (u ++ "?tag=" ++ tag) = true).
    { rewrite contains_char_app. simpl. apply orb_true_r. }
    rewrite Hc. split; reflexivity.
Qed.

End Links.

(** ** The constructor *)

Section Constructor.

Variable new : constructors.

(** X16. The constructor succeeds exactly when its four keys resolve and
    the three collaborators can be built from the values found; the bot it
    builds keeps the whole configuration, so that the keys read later come
    from the same file, and holds the four values under the attributes
    named after them.  When it raises, the exception is that of a missing
    key or that of a collaborator's constructor. *)
Theorem constructor_keeps_configuration (cfg : yaml) :
  (forall b,
     init new cfg = Ok b <->
     config b = cfg /\
     lookup cfg ["telegram"; "bot_token"] = Ok (bot_token b) /\
     lookup cfg ["telegram"; "channel_id"] = Ok (channel_id b) /\
     lookup cfg ["database"; "path"] = Ok (db_path b) /\
     lookup cfg ["scraping"; "max_proxies"] = Ok (max_proxies b) /\
     Bot new (bot_token b) = Ok tt /\
     DealsDatabase new (db_path b) = Ok tt /\
     ProxyManager new (max_proxies b) = Ok tt) /\
  (forall e,
     init new cfg = Raise e ->
     (exists path, In path constructor_keys /\ lookup cfg path = Raise e) \/
     (exists v,
        Bot new v = Raise e \/ DealsDatabase new v = Raise e \/
        ProxyManager new v = Raise e)).
Proof.
  split.
  - intros b. split.
    + unfold init, bind_result.
      destruct (lookup cfg ["telegram"; "bot_token"]) as [token|];
        [|discriminate].
      destruct (Bot new token) as [[]|] eqn:B1; [|discriminate].
      destruct (lookup cfg ["telegram"; "channel_id"]); [|discriminate].
      destruct (lookup cfg ["database"; "path"]) as [path|]; [|discriminate].
      destruct (DealsDatabase new path) as [[]|] eqn:B2; [|discriminate].
      destruct (lookup cfg ["scraping"; "max_proxies"]) as [proxies|];
        [|discriminate].
      destruct (ProxyManager new proxies) as [[]|] eqn:B3; [|discriminate].
      intros [= <-]. repeat split; assumption.
    + intros (H0 & H1 & H2 & H3 & H4 & B1 & B2 & B3).
      rewrite (init_builds new cfg H1 H2 H3 H4 B1 B2 B3).
      destruct b. simpl in H0. now subst.
  - intros e. unfold init, bind_result, constructor_keys.
    destruct (lookup cfg ["telegram"; "bot_token"]) as [token|] eqn:H1;
      [|intros [= <-]; left; eexists; split; [|exact H1]; simpl; auto].
    destruct (Bot new token) as [[]|] eqn:B1;
      [|intros [= <-]; right; exists token; auto].
    destruct (lookup cfg ["telegram"; "channel_id"]) eqn:H2;
      [|intros [= <-]; left; eexists; split; [|exact H2]; simpl; auto].
    destruct (lookup cfg ["database"; "path"]) as [path|] eqn:H3;
      [|intros [= <-]; left; eexists; split; [|exact H3]; simpl; auto].
    destruct (DealsDatabase new path) as [[]|] eqn:B2;
      [|intros [= <-]; right; exists path; auto].
    destruct (lookup cfg ["scraping"; "max_proxies"]) as [proxies|] eqn:H4;
      [|intros [= <-]; left; eexists; split; [|exact H4]; simpl; auto 6].
    destruct (ProxyManager new proxies) as [[]|] eqn:B3;
      [discriminate | intros [= <-]; right; exists proxies; auto].
Qed.

End Constructor.

(** * Worked examples *)

Module Examples.

Import Sample.

Example link_without_query :
  _generate_affiliate_link Sim.repr_other self "https://x/y"
  = Ok "https://x/y?tag=abc".
Proof. reflexivity. Qed.

Example link_with_query :
  _generate_affiliate_link Sim.repr_other self "https://x/y?z=1"
  = Ok "https://x/y?z=1&tag=abc".
Proof. reflexivity. Qed.

Lemma affiliate_link_rule_witness :
  lookup (config self) ["amazon"; "affiliate_id"] = Ok (YStr "abc") /\
  _generate_affiliate_link Sim.repr_other self "https://x/y?z=1" =
    Ok ("https://x/y?z=1" ++
        (if Py.contains_char "?" "https://x/y?z=1" then "&" else "?") ++
        "tag=" ++ "abc").
Proof.
  split; [reflexivity|].
  apply (affiliate_link_rule Sim.repr_other self "https://x/y?z=1").
  reflexivity.
Defined.

(** The statistics of the specification's example: lowest price 19.99,
    posted three times. *)
Example stats_thrice_posted :
  Sim.stats_of "B000KETTLE" thrice_posted
  = Some {| lowest_price := Py.cents 1999; times_posted := 3 |}.
Proof. vm_compute. reflexivity. Qed.

Example history_shown_after_three_posts :
  price_history (Some {| lowest_price := Py.cents 1999; times_posted := 3 |})
  = nl ++ "💹 Lowest Price: $19.99" ++ nl ++ "📊 Times Listed: 3".
Proof. vm_compute. reflexivity. Qed.

Example history_hidden_after_one_post :
  price_history (Some {| lowest_price := Py.cents 1999; times_posted := 1 |})
  = "".
Proof. reflexivity. Qed.

Example history_in_message :
  Py.occurs "Lowest Price"
    (message_text kettle
       (price_history
          (Some {| lowest_price := Py.cents 1999; times_posted := 3 |}))
       "https://x/y?tag=abc" noon) = true /\
  Py.occurs "Lowest Price"
    (message_text kettle
       (price_history
          (Some {| lowest_price := Py.cents 1999; times_posted := 1 |}))
       "https://x/y?tag=abc" noon) = false /\
  Py.occurs "Lowest Price"
    (message_text kettle (price_history None) "https://x/y?tag=abc" noon)
  = false.
Proof. vm_compute. auto. Qed.

Lemma history_block_gating_witness :
  let w := start None [] thrice_posted [] in
  let w1 := snd (get_deal_stats Sim.io (asin kettle) w) in
  let stats := Some {| lowest_price := Py.cents 1999; times_posted := 3 |} in
  let link := "https://x/y?tag=abc" in
  get_deal_stats Sim.io (asin kettle) w = (Ok stats, w1) /\
  _generate_affiliate_link Sim.repr_other self (url kettle) = Ok link /\
  exists text block,
    fst (fst (_format_deal_message Sim.io Sim.repr_other self kettle w)) =
      Ok text /\
    text =
      ("🔥 HOT DEAL ALERT! 🔥" ++ nl ++ nl ++
       "📦 " ++ title kettle ++ nl ++ nl ++
       "💰 Sale Price: $" ++ Py.format_2f (sale_price kettle) ++ nl ++
       "❌ Original: $" ++ Py.format_2f (original_price kettle) ++ nl ++
       "💯 Save: " ++ Py.str_int (discount kettle) ++ "% " ++
       "($" ++
       Py.format_2f (Py.fsub (original_price kettle) (sale_price kettle)) ++
       ")")
      ++ block ++
      (nl ++ nl ++
       "🛍️ Buy Now: " ++ link ++ nl ++ nl ++
       "#" ++ Py.capitalize (category kettle) ++
       " #AmazonDeals #Discount" ++ nl ++
       "Posted: " ++ Py.strftime (now Sim.io w1)) /\
    Py.occurs block text = true /\
    (block <> "" <-> exists s, stats = Some s /\ (1 < times_posted s)%Z) /\
    (forall s, stats = Some s -> (1 < times_posted s)%Z ->
       block =
         nl ++ "💹 Lowest Price: $" ++ Py.format_2f (lowest_price s) ++ nl ++
         "📊 Times Listed: " ++ Py.str_int (times_posted s)).
Proof.
  intros w w1 stats link.
  assert (Hs : get_deal_stats Sim.io (asin kettle) w = (Ok stats, w1))
    by (vm_compute; reflexivity).
  assert (Hl : _generate_affiliate_link Sim.repr_other self (url kettle)
               = Ok link) by reflexivity.
  split; [exact Hs|]. split; [exact Hl|].
  exact (history_block_gating Sim.io Sim.repr_other self kettle w Hs Hl).
Defined.

Example savings_of_thirty_cents_less_ten :
  Py.format_2f (Py.fsub (Py.cents 30) (Py.cents 10)) = "0.20".
Proof. vm_compute. reflexivity. Qed.

Example half_cents_round_to_even :
  Py.format_2f (Py.fdiv (Py.float_of_Z 1) (Py.float_of_Z 8)) = "0.12" /\
  Py.format_2f (Py.fdiv (Py.float_of_Z 3) (Py.float_of_Z 8)) = "0.38".
Proof. vm_compute. auto. Qed.

Example tv_message :
  message_text tv "" "https://x/y?z=1&tag=abc" noon =
    "🔥 HOT DEAL ALERT! 🔥" ++ nl ++ nl ++
    "📦 Television" ++ nl ++ nl ++
    "💰 Sale Price: $299.00" ++ nl ++
    "❌ Original: $399.00" ++ nl ++
    "💯 Save: 25% ($100.00)" ++ nl ++ nl ++
    "🛍️ Buy Now: https://x/y?z=1&tag=abc" ++ nl ++ nl ++
    "#Tv #AmazonDeals #Discount" ++ nl ++
    "Posted: 2024-03-09 12:00:00".
Proof. vm_compute. reflexivity. Qed.

(** Case mapping goes by characters, not by bytes, and follows Unicode. *)
Example capitalize_samples :
  map Py.capitalize
    ["kitchen"; "TV"; "home & Garden"; "électronique"; "CAFÉ"; "straße";
     "ßa"; "ΟΔΟΣ"; "ǆabc"; ""]
  = ["Kitchen"; "Tv"; "Home & garden"; "Électronique"; "Café"; "Straße";
     "Ssa"; "Οδος"; "ǅabc"; ""].
Proof. vm_compute. reflexivity. Qed.

Example casque_hashtag :
  Py.occurs "#Électronique #AmazonDeals #Discount"
    (message_text casque "" "https://x/z?tag=abc" noon) = true.
Proof. vm_compute. reflexivity. Qed.

(** C9, as stated, fails.  The category [TV] comes out as [Tv]: the line
    the specification describes, [#TV #AmazonDeals #Discount], is not in
    the message. *)
Lemma hashtag_counterexample :
  hashtag_line_as_specified tv = "#TV #AmazonDeals #Discount" /\
  Py.occurs (hashtag_line_as_specified tv)
    (message_text tv "" "https://x/y?z=1&tag=abc" noon) = false /\
  Py.occurs "#Tv #AmazonDeals #Discount"
    (message_text tv "" "https://x/y?z=1&tag=abc" noon) = true.
Proof. vm_compute. auto. Qed.

Lemma price_and_hashtag_lines_witness :
  Py.is_finite (sale_price tv) = true /\
  Py.is_finite (original_price tv) = true /\
  Py.is_finite (Py.fsub (original_price tv) (sale_price tv)) = true /\
  exists sale original saved tag,
    message_text tv "" "https://x/y?z=1&tag=abc" noon =
      "🔥 HOT DEAL ALERT! 🔥" ++ nl ++ nl ++
      "📦 " ++ title tv ++ nl ++ nl ++
      "💰 Sale Price: $" ++ sale ++ nl ++
      "❌ Original: $" ++ original ++ nl ++
      "💯 Save: " ++ Py.str_int (discount tv) ++ "% ($" ++ saved ++ ")" ++
      "" ++ nl ++ nl ++
      "🛍️ Buy Now: " ++ "https://x/y?z=1&tag=abc" ++ nl ++ nl ++
      "#" ++ tag ++ " #AmazonDeals #Discount" ++ nl ++
      "Posted: " ++ Py.strftime noon /\
    Py.shows (sale_price tv) sale /\ Py.two_decimals sale /\
    Py.shows (original_price tv) original /\ Py.two_decimals original /\
    Py.shows (Py.fsub (original_price tv) (sale_price tv)) saved /\
    Py.two_decimals saved /\
    tag = Py.encode_utf8
            match Py.decode_utf8 (category tv) with
            | [] => []
            | c :: rest => (Py.to_title c ++ Py.lower_after [c] rest)%list
            end.
Proof.
  assert (H1 : Py.is_finite (sale_price tv) = true) by reflexivity.
  assert (H2 : Py.is_finite (original_price tv) = true) by reflexivity.
  assert (H3 : Py.is_finite (Py.fsub (original_price tv) (sale_price tv))
               = true) by reflexivity.
  repeat (split; [assumption|]).
  exact (price_and_hashtag_lines tv "" "https://x/y?z=1&tag=abc" noon
           H1 H2 H3).
Defined.

(** C8, as stated, fails.  Two renderings of the same deal with the same
    statistics, one second apart, differ. *)
Lemma rendering_counterexample :
  let w := world_at noon None [] thrice_posted [] in
  let w' := world_at a_second_later None [] thrice_posted [] in
  fst (get_deal_stats Sim.io (asin kettle) w) =
    fst (get_deal_stats Sim.io (asin kettle) w') /\
  fst (fst (_format_deal_message Sim.io Sim.repr_other self kettle w)) <>
    fst (fst (_format_deal_message Sim.io Sim.repr_other self kettle w')).
Proof. split; [reflexivity|]. vm_compute. discriminate. Qed.

Lemma rendering_determined_witness :
  let w := start None [] thrice_posted [] in
  let w' := start None [(7, OtherError "later")] thrice_posted [] in
  let stats := Some {| lowest_price := Py.cents 1999; times_posted := 3 |} in
  let w1 := snd (get_deal_stats Sim.io (asin kettle) w) in
  let w1' := snd (get_deal_stats Sim.io (asin kettle) w') in
  let link := "https://x/y?tag=abc" in
  get_deal_stats Sim.io (asin kettle) w = (Ok stats, w1) /\
  get_deal_stats Sim.io (asin kettle) w' = (Ok stats, w1') /\
  now Sim.io w1 = now Sim.io w1' /\
  _generate_affiliate_link Sim.repr_other self (url kettle) = Ok link /\
  exists text,
    _format_deal_message Sim.io Sim.repr_other self kettle w =
      (Ok text, w1,
       [(running w, EStats (asin kettle) true);
        (running w1, ENow (now Sim.io w1))]) /\
    _format_deal_message Sim.io Sim.repr_other self kettle w' =
      (Ok text, w1',
       [(running w', EStats (asin kettle) true);
        (running w1', ENow (now Sim.io w1'))]).
Proof.
  intros w w' stats w1 w1' link.
  assert (Hs : get_deal_stats Sim.io (asin kettle) w = (Ok stats, w1))
    by (vm_compute; reflexivity).
  assert (Hs' : get_deal_stats Sim.io (asin kettle) w' = (Ok stats, w1'))
    by (vm_compute; reflexivity).
  assert (Hn : now Sim.io w1 = now Sim.io w1') by reflexivity.
  assert (Hl : _generate_affiliate_link Sim.repr_other self (url kettle)
               = Ok link) by reflexivity.
  repeat (split; [assumption|]).
  exact (rendering_determined Sim.io Sim.repr_other self kettle w w'
           Hs Hs' Hn Hl).
Defined.

(** A price change on a recorded identifier is not a duplicate for the
    store that the specification describes. *)
Example price_change_is_not_duplicate :
  Sim.recorded "B000KETTLE" (Py.cents 2499) (Sim.records (env price_changed))
  = true /\
  fst (is_duplicate_deal Sim.io (asin kettle) (sale_price kettle)
         price_changed) = Ok false /\
  fst (is_duplicate_deal Sim.io (asin kettle) (Py.cents 2499) price_changed)
  = Ok true.
Proof. vm_compute. auto. Qed.

(** C1, as stated, fails.  The stop signal arrives while the kettle is
    being sent: the television, next in the batch, is never rendered,
    published, counted or stored, and yet the duplicate check never
    answered true for it -- it was never asked.  And with the affiliate key
    missing, the check answers false for the kettle, and still nothing is
    published, counted or stored. *)
Lemma skipped_without_duplicate_counterexample :
  (let '(r, _, t) :=
     for_deals Sim.io Sim.repr_other self [kettle; tv] 0 stop_during_send in
   r = Ok 1%nat /\
   map snd t =
     [EPoll AtFor true;
      EIsDup (asin kettle) (sale_price kettle) (Ok false);
      EStats (asin kettle) true; ENow noon;
      ESend (channel_id self)
        (message_text kettle "" "https://x/y?tag=abc" noon) true;
      EUpdate kettle true; ESleep Throttle (SecInt 2);
      EPoll AtFor false] /\
   untouched tv t = true /\ found_duplicate tv t = false) /\
  (let '(r, _, t) :=
     for_deals Sim.io Sim.repr_other self_without_loop_keys [kettle] 0
       (start None [] [] []) in
   r = Ok 0%nat /\
   map snd t =
     [EPoll AtFor true;
      EIsDup (asin kettle) (sale_price kettle) (Ok false);
      EStats (asin kettle) true;
      ELog (ErrorPosting (KeyError "amazon"))] /\
   found_duplicate kettle t = false /\
   count_events is_send t = 0%nat /\ persisted t = 0%nat).
Proof. vm_compute. repeat split. Qed.

Lemma duplicate_gate_witness :
  let before := [tv] in
  let d := kettle in
  let after := [casque] in
  let w := price_changed in
  let '(r0, w0, t0) :=
    for_deals Sim.io Sim.repr_other self before 0 w in
  let '(r, w', t) :=
    for_deals Sim.io Sim.repr_other self (before ++ d :: after) 0 w in
  match r0 with
  | Raise e => (r, w', t) = (Raise e, w0, t0)
  | Ok n0 =>
      if running w0 then
        let '(c, w1) :=
          is_duplicate_deal Sim.io (asin d) (sale_price d) w0 in
        let reached :=
          (t0 ++ [(true, EPoll AtFor true);
                  (true, EIsDup (asin d) (sale_price d) c)])%list in
        match c with
        | Ok true =>
            (r, w', t) =
              prepend reached
                (for_deals Sim.io Sim.repr_other self after n0 w1)
        | Ok false =>
            let '(rp, w2, t2) :=
              post_deal Sim.io Sim.repr_other self d w1 in
            opens_with_stats d (running w1) t2 /\
            exists t3, t = (reached ++ t2 ++ t3)%list
        | Raise e => (r, w', t) = (Raise e, w1, reached)
        end
      else
        r = Ok n0 /\ w' = w0 /\
        (t = t0 \/ t = (t0 ++ [(false, EPoll AtFor false)])%list)
  end.
Proof.
  intros before d after w.
  exact (duplicate_gate Sim.io Sim.repr_other self before d after 0 w).
Defined.

(** In that run the television is posted first; the kettle, recorded at
    another price, is checked, found fresh and posted as well. *)
Example price_change_is_posted :
  let '(r, _, t) :=
    for_deals Sim.io Sim.repr_other self [tv; kettle; casque] 0
      price_changed in
  r = Ok 3%nat /\
  checked_ids t = ["B000TV"; "B000KETTLE"; "B000CASQUE"] /\
  persisted t = 3%nat.
Proof. vm_compute. repeat split. Qed.

(** C4, as stated, fails.  The kettle's message is delivered and the store
    then fails: the publish succeeded, and no pause follows. *)
Lemma throttle_counterexample :
  let '(r, _, t) :=
    for_deals Sim.io Sim.repr_other self [kettle; tv] 0 upsert_fails in
  r = Ok 1%nat /\
  map snd t =
    [EPoll AtFor true;
     EIsDup (asin kettle) (sale_price kettle) (Ok false);
     EStats (asin kettle) true; ENow noon;
     ESend (channel_id self)
       (message_text kettle "" "https://x/y?tag=abc" noon) true;
     EUpdate kettle false;
     ELog (ErrorPosting (OtherError "database is locked"));
     EPoll AtFor true;
     EIsDup (asin tv) (sale_price tv) (Ok false);
     EStats (asin tv) true; ENow noon;
     ESend (channel_id self)
       (message_text tv "" "https://x/y?z=1&tag=abc" noon) true;
     EUpdate tv true; ESleep Throttle (SecInt 2)] /\
  count_events is_delivered t = 2%nat /\
  count_events is_throttle t = 1%nat /\
  pause_per_delivery t = false.
Proof. vm_compute. repeat split. Qed.

Lemma throttle_only_on_success_witness :
  let w := start None [] [] [] in
  let w1 :=
    snd (is_duplicate_deal Sim.io (asin kettle) (sale_price kettle) w) in
  running w = true /\
  is_duplicate_deal Sim.io (asin kettle) (sale_price kettle) w
  = (Ok false, w1) /\
  delay_seconds self = Ok (SecInt 2) /\
  let '(rp, w2, t2) := post_deal Sim.io Sim.repr_other self kettle w1 in
  let head :=
    ([(true, EPoll AtFor true);
      (true, EIsDup (asin kettle) (sale_price kettle) (Ok false))] ++
     t2)%list in
  let pause := [(running w2, ESleep Throttle (SecInt 2))] in
  count_events is_sleep t2 = 0%nat /\
  (rp = Ok true <->
   count_events is_delivered t2 = 1%nat /\
   count_events is_stored t2 = 1%nat) /\
  for_deals Sim.io Sim.repr_other self (kettle :: [tv]) 0 w =
    match rp with
    | Ok true =>
        match sleep Sim.io (SecInt 2) w2 with
        | (None, w3) =>
            prepend (head ++ pause)%list
              (for_deals Sim.io Sim.repr_other self [tv] 1 w3)
        | (Some i, w3) => (Raise (raised i), w3, (head ++ pause)%list)
        end
    | Ok false =>
        prepend head (for_deals Sim.io Sim.repr_other self [tv] 0 w2)
    | Raise e => (Raise e, w2, head)
    end.
Proof.
  intros w w1.
  assert (Hr : running w = true) by reflexivity.
  assert (Hd : is_duplicate_deal Sim.io (asin kettle) (sale_price kettle) w
               = (Ok false, w1)) by (vm_compute; reflexivity).
  assert (Hs : delay_seconds self = Ok (SecInt 2)) by reflexivity.
  repeat (split; [assumption|]).
  exact (throttle_only_on_success Sim.io Sim.repr_other self kettle [tv] 0 w
           Hr Hd Hs).
Defined.

Lemma unrecorded_post_is_a_failure_witness :
  let w := upsert_fails in
  let e := OtherError "database is locked" in
  let link := "https://x/y?tag=abc" in
  let w1 :=
    snd (is_duplicate_deal Sim.io (asin kettle) (sale_price kettle) w) in
  let w2 := snd (get_deal_stats Sim.io (asin kettle) w1) in
  let text := message_text kettle (price_history None) link (now Sim.io w2) in
  let w3 := snd (send_message Sim.io (channel_id self) text w2) in
  let w4 := snd (update_deal Sim.io kettle w3) in
  running w = true /\
  is_duplicate_deal Sim.io (asin kettle) (sale_price kettle) w
  = (Ok false, w1) /\
  get_deal_stats Sim.io (asin kettle) w1 = (Ok None, w2) /\
  _generate_affiliate_link Sim.repr_other self (url kettle) = Ok link /\
  send_message Sim.io (channel_id self) text w2 = (Ok tt, w3) /\
  update_deal Sim.io kettle w3 = (Raise e, w4) /\
  is_exception e = true /\
  for_deals Sim.io Sim.repr_other self (kettle :: [tv]) 0 w =
    prepend
      [(true, EPoll AtFor true);
       (true, EIsDup (asin kettle) (sale_price kettle) (Ok false));
       (running w1, EStats (asin kettle) true);
       (running w2, ENow (now Sim.io w2));
       (running w2, ESend (channel_id self) text true);
       (running w3, EUpdate kettle false);
       (running w4,
        ELog (if is_telegram_error e then ErrorTelegram e
              else ErrorPosting e))]
      (for_deals Sim.io Sim.repr_other self [tv] 0 w4) /\
  (let both :=
     for_deals Sim.io Sim.repr_other self [kettle; tv] 0
       (start None [] [] []) in
   both = (Ok 2%nat, snd (fst both), snd both) /\
   2%nat = (0 + persisted (snd both))%nat).
Proof.
  intros w e link w1 w2 text w3 w4.
  assert (Hr : running w = true) by reflexivity.
  assert (Hd : is_duplicate_deal Sim.io (asin kettle) (sale_price kettle) w
               = (Ok false, w1)) by (vm_compute; reflexivity).
  assert (Hst : get_deal_stats Sim.io (asin kettle) w1 = (Ok None, w2))
    by (vm_compute; reflexivity).
  assert (Hl : _generate_affiliate_link Sim.repr_other self (url kettle)
               = Ok link) by reflexivity.
  assert (Hsend : send_message Sim.io (channel_id self) text w2 = (Ok tt, w3))
    by (vm_compute; reflexivity).
  assert (Hup : update_deal Sim.io kettle w3 = (Raise e, w4))
    by (vm_compute; reflexivity).
  assert (He : is_exception e = true) by reflexivity.
  repeat (split; [assumption|]).
  destruct (unrecorded_post_is_a_failure Sim.io Sim.repr_other self kettle
              [tv] 0 w Hr Hd Hst Hl Hsend Hup He) as [Hbatch Hcount].
  split; [exact Hbatch|]. intros both.
  assert (Hboth : both = (Ok 2%nat, snd (fst both), snd both))
    by (vm_compute; reflexivity).
  split; [exact Hboth | exact (Hcount _ _ _ _ _ _ Hboth)].
Defined.



(** After the failed discovery the loop has slept 60 seconds, not the 30
    minutes of the configuration, and has started the next cycle. *)
Example cooldown_then_next_cycle :
  map snd
    (snd (run_loop Sim.io Sim.repr_other self 1
            (start None [(1, OtherError "timed out")] [] []))) =
  [EPoll AtWhile true; EProxy true; EDiscover false;
   ELog (ErrorMainLoop (OtherError "timed out"));
   ESleep Cooldown (SecInt 60); EPoll AtWhile true].
Proof. vm_compute. reflexivity. Qed.

(** The constructor of the Telegram client can refuse what it is given,
    with every key in place. *)
Example empty_token_is_refused :
  init Sim.new
    (YMap [("telegram", YMap [("bot_token", YStr "");
                              ("channel_id", YStr "@deals")]);
           ("database", YMap [("path", YStr "deals.db")]);
           ("scraping", YMap [("max_proxies", YInt 10)])])
  = Raise (TelegramError "invalid token").
Proof. reflexivity. Qed.

(** C7, as stated, fails.  With the three keys of the loop missing, the bot
    is constructed, [initialize] succeeds and a cycle runs: discovery is
    called, the deal cannot be rendered, and the cycle ends in the
    cooldown. *)
Lemma missing_keys_counterexample :
  lookup cfg_without_loop_keys ["scraping"; "request_delay"; "min"]
  = Raise (KeyError "request_delay") /\
  lookup cfg_without_loop_keys ["scraping"; "update_interval_minutes"]
  = Raise (KeyError "update_interval_minutes") /\
  lookup cfg_without_loop_keys ["amazon"; "affiliate_id"]
  = Raise (KeyError "amazon") /\
  exists b,
    init Sim.new cfg_without_loop_keys = Ok b /\
    fst (fst (run_forever Sim.io Sim.repr_other b 1
                (start None [] [] [[kettle]]))) = Ok StillCycling /\
    map snd (snd (run_forever Sim.io Sim.repr_other b 1
                    (start None [] [] [[kettle]]))) =
    [ELog InfoStarting; EProxyInit true; EClean (YInt 30) true;
     EPoll AtWhile true; EProxy true; EDiscover true; ELog (InfoFound 1);
     EPoll AtFor true;
     EIsDup (asin kettle) (sale_price kettle) (Ok false);
     EStats (asin kettle) true;
     ELog (ErrorPosting (KeyError "amazon"));
     ELog (InfoPosted 0); EPoll AtIf true;
     ELog (ErrorMainLoop (KeyError "update_interval_minutes"));
     ESleep Cooldown (SecInt 60); EPoll AtWhile true].
Proof.
  repeat (split; [reflexivity|]).
  eexists. split; [reflexivity|]. vm_compute. auto.
Qed.

Lemma missing_startup_keys_witness :
  let without_channel :=
    YMap [("telegram", YMap [("bot_token", YStr "123:abc")])] in
  let w := start None [] [] [[kettle]] in
  let w1 := snd (proxy_initialize Sim.io w) in
  let w2 := snd (clean_old_deals Sim.io (YInt 30) w1) in
  In ["telegram"; "channel_id"] constructor_keys /\
  lookup without_channel ["telegram"; "channel_id"]
  = Raise (KeyError "channel_id") /\
  lookup (config self_without_retention) ["database"; "retention_days"]
  = Raise (KeyError "retention_days") /\
  lookup cfg_without_loop_keys ["telegram"; "bot_token"]
  = Ok (YStr "123:abc") /\
  lookup cfg_without_loop_keys ["telegram"; "channel_id"]
  = Ok (YStr "@deals") /\
  lookup cfg_without_loop_keys ["database"; "path"] = Ok (YStr "deals.db") /\
  lookup cfg_without_loop_keys ["scraping"; "max_proxies"] = Ok (YInt 10) /\
  Bot Sim.new (YStr "123:abc") = Ok tt /\
  DealsDatabase Sim.new (YStr "deals.db") = Ok tt /\
  ProxyManager Sim.new (YInt 10) = Ok tt /\
  proxy_initialize Sim.io w = (Ok tt, w1) /\
  lookup (config self_without_loop_keys) ["database"; "retention_days"]
  = Ok (YInt 30) /\
  clean_old_deals Sim.io (YInt 30) w1 = (Ok tt, w2) /\
  (exists e', init Sim.new without_channel = Raise e') /\
  (exists e' w' t,
     run_forever Sim.io Sim.repr_other self_without_retention 1 w
     = (Raise e', w', t) /\
     forallb (fun p => negb (cycle_event p)) t = true) /\
  (exists b,
     init Sim.new cfg_without_loop_keys = Ok b /\
     config b = cfg_without_loop_keys) /\
  (exists t,
     snd (run_forever Sim.io Sim.repr_other self_without_loop_keys 1 w) =
       ([(running w, ELog InfoStarting); (running w, EProxyInit true);
         (running w1, EClean (YInt 30) true);
         (running w2, EPoll AtWhile (running w2))] ++ t)%list).
Proof.
  intros without_channel w w1 w2.
  assert (Hin : In ["telegram"; "channel_id"] constructor_keys)
    by (right; left; reflexivity).
  assert (H1 : lookup without_channel ["telegram"; "channel_id"]
               = Raise (KeyError "channel_id")) by reflexivity.
  assert (H2 : lookup (config self_without_retention)
                 ["database"; "retention_days"]
               = Raise (KeyError "retention_days")) by reflexivity.
  assert (K1 : lookup cfg_without_loop_keys ["telegram"; "bot_token"]
               = Ok (YStr "123:abc")) by reflexivity.
  assert (K2 : lookup cfg_without_loop_keys ["telegram"; "channel_id"]
               = Ok (YStr "@deals")) by reflexivity.
  assert (K3 : lookup cfg_without_loop_keys ["database"; "path"]
               = Ok (YStr "deals.db")) by reflexivity.
  assert (K4 : lookup cfg_without_loop_keys ["scraping"; "max_proxies"]
               = Ok (YInt 10)) by reflexivity.
  assert (B1 : Bot Sim.new (YStr "123:abc") = Ok tt) by reflexivity.
  assert (B2 : DealsDatabase Sim.new (YStr "deals.db") = Ok tt)
    by reflexivity.
  assert (B3 : ProxyManager Sim.new (YInt 10) = Ok tt) by reflexivity.
  assert (P1 : proxy_initialize Sim.io w = (Ok tt, w1)) by reflexivity.
  assert (P2 : lookup (config self_without_loop_keys)
                 ["database"; "retention_days"] = Ok (YInt 30))
    by reflexivity.
  assert (P3 : clean_old_deals Sim.io (YInt 30) w1 = (Ok tt, w2))
    by reflexivity.
  repeat (split; [assumption|]).
  split; [|split; [|split]].
  - exact (proj1 (missing_startup_keys Sim.io Sim.repr_other
                    self_without_retention Sim.new) _ _ _ Hin H1).
  - exact (proj1 (proj2 (missing_startup_keys Sim.io Sim.repr_other
                           self_without_retention Sim.new)) 1%nat w _ H2).
  - exact (proj1 (proj2 (proj2 (missing_startup_keys Sim.io Sim.repr_other
                                  self_without_loop_keys Sim.new)))
             _ _ _ _ _ K1 K2 K3 K4 B1 B2 B3).
  - exact (proj2 (proj2 (proj2 (missing_startup_keys Sim.io Sim.repr_other
                                  self_without_loop_keys Sim.new)))
             1%nat w w1 _ w2 P1 P2 P3).
Defined.

Lemma sim_stop_is_final : stop_is_final Sim.io.
Proof.
  intros [flag s] Hr. simpl in Hr. subst flag.
  repeat split; intros; simpl;
    unfold Sim.plain_call, Sim.discover, Sim.is_duplicate, Sim.stats,
      Sim.upsert, Sim.nap, Sim.arrive; simpl;
    repeat break_match; reflexivity.
Qed.

(** C2, as stated, fails.  The stop signal arrives during proxy
    acquisition: the discovery call is still started afterwards.  It
    arrives during a failing discovery call: the 60 second cooldown is
    started afterwards. *)
Lemma shutdown_latency_counterexample :
  stop_is_final Sim.io /\
  snd (run_loop Sim.io Sim.repr_other self 1 stop_during_proxy_acquisition) =
    [(true, EPoll AtWhile true); (true, EProxy true);
     (false, EDiscover true); (false, ELog (InfoFound 1));
     (false, EPoll AtFor false); (false, ELog (InfoPosted 0));
     (false, EPoll AtIf false); (false, EPoll AtWhile false)] /\
  within_publish_and_throttle
    (snd (run_loop Sim.io Sim.repr_other self 1
            stop_during_proxy_acquisition)) = false /\
  snd (run_loop Sim.io Sim.repr_other self 1 stop_during_failed_discovery) =
    [(true, EPoll AtWhile true); (true, EProxy true);
     (true, EDiscover false);
     (false, ELog (ErrorMainLoop (OtherError "timed out")));
     (false, ESleep Cooldown (SecInt 60));
     (false, EPoll AtWhile false)] /\
  within_publish_and_throttle
    (snd (run_loop Sim.io Sim.repr_other self 1
            stop_during_failed_discovery)) = false.
Proof.
  split; [exact sim_stop_is_final|]. vm_compute. auto.
Qed.

Lemma cooperative_shutdown_witness :
  let t :=
    [(true, EPoll AtWhile true); (true, EProxy true);
     (false, EDiscover true); (false, ELog (InfoFound 1));
     (false, EPoll AtFor false); (false, ELog (InfoPosted 0));
     (false, EPoll AtIf false); (false, EPoll AtWhile false)] in
  stop_is_final Sim.io /\
  existsb is_false_poll t = true /\
  exists w',
    run_loop Sim.io Sim.repr_other self 1 stop_during_proxy_acquisition
    = (Ok Stopped, w', t) /\
    reads_before false t = true /\
    forallb issued_running t = true /\
    winds_down t = true /\
    late_bounds t.
Proof.
  intros t.
  split; [exact sim_stop_is_final|]. split; [reflexivity|].
  pose proof (cooperative_shutdown Sim.io Sim.repr_other self 1
                stop_during_proxy_acquisition) as H.
  assert (Hrun :
    run_loop Sim.io Sim.repr_other self 1 stop_during_proxy_acquisition
    = (Ok Stopped,
       snd (fst (run_loop Sim.io Sim.repr_other self 1
                   stop_during_proxy_acquisition)), t))
    by (vm_compute; reflexivity).
  rewrite Hrun in H.
  destruct H as (Hreads & Hgated & Hwinds & _ & _ & Hlate).
  eexists. split; [exact Hrun|].
  repeat (split; [assumption|]).
  exact (Hlate sim_stop_is_final).
Defined.

End Examples.

(** ** Further worked examples *)

Module MoreExamples.

Import Sample.

(** Thirty minutes give an inter-cycle sleep of 1800 seconds, two seconds
    of delay a throttle pause of two. *)
Example configured_pauses :
  interval_seconds self = Ok (SecInt 1800) /\
  delay_seconds self = Ok (SecInt 2).
Proof. split; reflexivity. Qed.

(** [asyncio.sleep] takes the largest int that a float can hold, and
    raises on the next one. *)
Example sleep_overflow :
  as_seconds (YInt (2 ^ 1024 - 2 ^ 970 - 1)) =
    Ok (SecInt (2 ^ 1024 - 2 ^ 970 - 1)) /\
  as_seconds (YInt (2 ^ 1024 - 2 ^ 970)) = Raise OverflowError /\
  as_seconds (YInt (- 2 ^ 1024)) = Ok (SecInt (- 2 ^ 1024)) /\
  as_seconds (YStr "2") = Raise TypeError.
Proof. vm_compute. repeat split. Qed.

(** Without the delay key, the kettle is posted and stored, and the batch
    ends there: the television is not looked at. *)
Example batch_without_delay :
  let '(r, w', t) :=
    for_deals Sim.io Sim.repr_other self_without_delay [kettle; tv] 0
      (start None [] [] []) in
  r = Raise (KeyError "request_delay") /\
  persisted t = 1%nat /\ checked_ids t = ["B000KETTLE"].
Proof. vm_compute. auto. Qed.

(** A send that is cancelled passes through [post_deal]: nothing is logged
    and nothing is stored. *)
Example cancelled_send :
  let '(r, _, t) :=
    post_deal Sim.io Sim.repr_other self kettle
      (start None [(1, CancelledError)] [] []) in
  r = Raise CancelledError /\
  map snd t =
    [EStats (asin kettle) true; ENow noon;
     ESend (channel_id self)
       (message_text kettle "" "https://x/y?tag=abc" noon) false].
Proof. vm_compute. repeat split. Qed.

Lemma nothing_is_sent_without_affiliate_id_witness :
  let w := start None [] [] [[kettle; tv]] in
  lookup (config self_without_loop_keys) ["amazon"; "affiliate_id"]
  = Raise (KeyError "amazon") /\
  let t := snd (run_loop Sim.io Sim.repr_other self_without_loop_keys 2 w) in
  count_events is_send t = 0%nat /\ count_events is_update t = 0%nat.
Proof.
  intros w.
  assert (H : lookup (config self_without_loop_keys)
                ["amazon"; "affiliate_id"] = Raise (KeyError "amazon"))
    by reflexivity.
  split; [exact H|].
  exact (nothing_is_sent_without_affiliate_id Sim.io Sim.repr_other
           self_without_loop_keys 2 w H).
Defined.

Lemma at_most_one_deal_without_delay_witness :
  delay_seconds self_without_delay = Raise (KeyError "request_delay") /\
  let '(r, w', t) :=
    for_deals Sim.io Sim.repr_other self_without_delay [kettle; tv] 0
      (start None [] [] []) in
  count_events is_throttle t = 0%nat /\
  (persisted t <= 1)%nat /\
  (persisted t = 1%nat -> succeeded r = false).
Proof.
  assert (H : delay_seconds self_without_delay
              = Raise (KeyError "request_delay")) by reflexivity.
  split; [exact H|].
  exact (at_most_one_deal_without_delay Sim.io Sim.repr_other
           self_without_delay [kettle; tv] 0 (start None [] [] []) H).
Defined.

Lemma empty_batch_cycle_witness :
  let w := start None [] [] [] in
  let w1 := snd (get_working_proxy Sim.io w) in
  let w2 := snd (get_deals Sim.io (config self) w1) in
  get_working_proxy Sim.io w = (Ok tt, w1) /\
  get_deals Sim.io (config self) w1 = (Ok [], w2) /\
  running w2 = true /\
  interval_seconds self = Ok (SecInt 1800) /\
  cycle Sim.io Sim.repr_other self w =
    (interrupted (fst (sleep Sim.io (SecInt 1800) w2)),
     snd (sleep Sim.io (SecInt 1800) w2),
     [(running w, EProxy true); (running w1, EDiscover true);
      (true, ELog (InfoFound 0)); (true, ELog (InfoPosted 0));
      (true, EPoll AtIf true); (true, ESleep InterCycle (SecInt 1800))]).
Proof.
  intros w w1 w2.
  assert (Hp : get_working_proxy Sim.io w = (Ok tt, w1)) by reflexivity.
  assert (Hg : get_deals Sim.io (config self) w1 = (Ok [], w2))
    by reflexivity.
  assert (Hr : running w2 = true) by reflexivity.
  assert (Hs : interval_seconds self = Ok (SecInt 1800)) by reflexivity.
  repeat (split; [assumption|]).
  exact (empty_batch_cycle Sim.io Sim.repr_other self w Hp Hg Hr Hs).
Defined.

Lemma startup_failures_propagate_witness :
  let e1 := OtherError "no proxies" in
  let e2 := OtherError "database is locked" in
  let v1 := snd (proxy_initialize Sim.io no_proxies) in
  let w1 := snd (proxy_initialize Sim.io pruning_fails) in
  let w2 := snd (clean_old_deals Sim.io (YInt 30) w1) in
  proxy_initialize Sim.io no_proxies = (Raise e1, v1) /\
  proxy_initialize Sim.io pruning_fails = (Ok tt, w1) /\
  lookup (config self) ["database"; "retention_days"] = Ok (YInt 30) /\
  clean_old_deals Sim.io (YInt 30) w1 = (Raise e2, w2) /\
  run_forever Sim.io Sim.repr_other self 1 no_proxies =
    (Raise e1, v1,
     [(running no_proxies, ELog InfoStarting);
      (running no_proxies, EProxyInit false)]) /\
  run_forever Sim.io Sim.repr_other self 1 pruning_fails =
    (Raise e2, w2,
     [(running pruning_fails, ELog InfoStarting);
      (running pruning_fails, EProxyInit true);
      (running w1, EClean (YInt 30) false)]).
Proof.
  intros e1 e2 v1 w1 w2.
  assert (H1 : proxy_initialize Sim.io no_proxies = (Raise e1, v1))
    by reflexivity.
  assert (H2 : proxy_initialize Sim.io pruning_fails = (Ok tt, w1))
    by reflexivity.
  assert (H3 : lookup (config self) ["database"; "retention_days"]
               = Ok (YInt 30)) by reflexivity.
  assert (H4 : clean_old_deals Sim.io (YInt 30) w1 = (Raise e2, w2))
    by reflexivity.
  repeat (split; [assumption|]).
  split.
  - exact (proj1 (startup_failures_propagate Sim.io Sim.repr_other self 1
                    no_proxies) _ _ H1).
  - exact (proj2 (startup_failures_propagate Sim.io Sim.repr_other self 1
                    pruning_fails) _ _ _ _ H2 H3 H4).
Defined.

Lemma tagging_twice_appends_twice_witness :
  lookup (config self) ["amazon"; "affiliate_id"] = Ok (YStr "abc") /\
  exists link,
    _generate_affiliate_link Sim.repr_other self "https://x/y" = Ok link /\
    Py.contains_char "?" link = true /\
    _generate_affiliate_link Sim.repr_other self link
    = Ok (link ++ "&tag=" ++ "abc").
Proof.
  assert (H : lookup (config self) ["amazon"; "affiliate_id"]
              = Ok (YStr "abc")) by reflexivity.
  split; [exact H|].
  exact (tagging_twice_appends_twice Sim.repr_other self "https://x/y" H).
Defined.

Example link_tagged_twice :
  _generate_affiliate_link Sim.repr_other self "https://x/y?tag=abc"
  = Ok "https://x/y?tag=abc&tag=abc".
Proof. reflexivity. Qed.

Lemma constructor_keeps_configuration_witness :
  init Sim.new cfg = Ok self /\
  config self = cfg /\
  lookup cfg ["telegram"; "bot_token"] = Ok (bot_token self) /\
  lookup cfg ["telegram"; "channel_id"] = Ok (channel_id self) /\
  lookup cfg ["database"; "path"] = Ok (db_path self) /\
  lookup cfg ["scraping"; "max_proxies"] = Ok (max_proxies self) /\
  Bot Sim.new (bot_token self) = Ok tt /\
  DealsDatabase Sim.new (db_path self) = Ok tt /\
  ProxyManager Sim.new (max_proxies self) = Ok tt.
Proof.
  assert (Hinit : init Sim.new cfg = Ok self) by reflexivity.
  split; [exact Hinit|].
  exact (proj1 (proj1 (constructor_keeps_configuration Sim.new cfg) self)
           Hinit).
Defined.

End MoreExamples.
